(** * The engine simulator's test environment (simulators/ethereum/engine/testenv.go)

    A shallow embedding of the per-test environment of the engine simulator:
    the transaction builder, the retrying submitter, the liveness prober,
    the deadline-context accessor, the test orchestrator, the launcher of
    further clients and the check of proof-of-work progress, together with
    the properties stated about them.

    Conventions.
    - [uint64] values are integers of [Z]; wrap-around is written out with
      [u64].  [*big.Int] values are integers of [Z].
    - Instants and durations are natural numbers of nanoseconds ([N]), the
      unit of Go's [time.Duration].
    - A Go call ends in one of three ways, see [Result]: it returns, the
      goroutine exits ([runtime.Goexit], reached through [hivesim.T.FailNow]),
      or it panics.  Stateful code is written in the monad [M].
    - The outside world (the node answering RPC calls and TCP dials) is a
      script of [Reply] values, one per blocking call. *)

From Stdlib Require Import ZArith NArith List String Bool Lia.
From Stdlib Require Import Strings.Byte.
Import ListNotations.

Open Scope Z_scope.

(** ** Machine integers and bytes *)

Definition u64 (z : Z) : Z := z mod 2 ^ 64.

Definition byte_of_Z (z : Z) : byte :=
  match Byte.of_N (Z.to_N (z mod 256)) with
  | Some b => b
  | None => x00
  end.

(** [binary.BigEndian.PutUint64] on a fresh 8-byte buffer. *)
Definition PutUint64 (v : Z) : list byte :=
  [ byte_of_Z (Z.shiftr v 56); byte_of_Z (Z.shiftr v 48);
    byte_of_Z (Z.shiftr v 40); byte_of_Z (Z.shiftr v 32);
    byte_of_Z (Z.shiftr v 24); byte_of_Z (Z.shiftr v 16);
    byte_of_Z (Z.shiftr v 8); byte_of_Z v ].

(** ** Durations ([time] package) *)

Definition Millisecond : N := 1000000%N.
Definition Second : N := 1000000000%N.

(** ** Transactions (go-ethereum [core/types]) *)

Definition Address := Z.

Definition LegacyTxType : Z := 0.
Definition AccessListTxType : Z := 1.
Definition DynamicFeeTxType : Z := 2.

(** The fields are those the builder populates; every other field of the
    go-ethereum structs stays at its zero value. *)
Record LegacyTx := {
  ltNonce : Z;
  ltTo : option Address;
  ltValue : Z;
  ltGas : Z;
  ltGasPrice : Z;
  ltData : list byte
}.

Record DynamicFeeTx := {
  dfNonce : Z;
  dfGas : Z;
  dfGasTipCap : Z;
  dfGasFeeCap : Z;
  dfTo : option Address;
  dfValue : Z;
  dfData : list byte
}.

Inductive TxData :=
| LegacyTxData (l : LegacyTx)
| DynamicFeeTxData (d : DynamicFeeTx).

Record Signature := { sigV : Z; sigR : Z; sigS : Z }.

(** A transaction: its data, and once signed the signature values together
    with the chain identifier of the signer and the key that produced them. *)
Record SignedBy := { sbChainID : Z; sbKey : Z; sbSig : Signature }.

Record Transaction := { inner : TxData; signed : option SignedBy }.

Definition NewTx (d : TxData) : Transaction := {| inner := d; signed := None |}.

Definition txType (tx : Transaction) : Z :=
  match inner tx with
  | LegacyTxData _ => LegacyTxType
  | DynamicFeeTxData _ => DynamicFeeTxType
  end.

Definition txNonce (tx : Transaction) : Z :=
  match inner tx with
  | LegacyTxData l => ltNonce l
  | DynamicFeeTxData d => dfNonce d
  end.

Definition txGas (tx : Transaction) : Z :=
  match inner tx with
  | LegacyTxData l => ltGas l
  | DynamicFeeTxData d => dfGas d
  end.

Definition txTo (tx : Transaction) : option Address :=
  match inner tx with
  | LegacyTxData l => ltTo l
  | DynamicFeeTxData d => dfTo d
  end.

Definition txValue (tx : Transaction) : Z :=
  match inner tx with
  | LegacyTxData l => ltValue l
  | DynamicFeeTxData d => dfValue d
  end.

Definition txPayload (tx : Transaction) : list byte :=
  match inner tx with
  | LegacyTxData l => ltData l
  | DynamicFeeTxData d => dfData d
  end.

(** [GasPrice], [GasFeeCap] and [GasTipCap] as go-ethereum reads them: a
    legacy transaction answers all three with its single gas price. *)
Definition txGasPrice (tx : Transaction) : Z :=
  match inner tx with
  | LegacyTxData l => ltGasPrice l
  | DynamicFeeTxData d => dfGasFeeCap d
  end.

Definition txGasFeeCap (tx : Transaction) : Z :=
  match inner tx with
  | LegacyTxData l => ltGasPrice l
  | DynamicFeeTxData d => dfGasFeeCap d
  end.

Definition txGasTipCap (tx : Transaction) : Z :=
  match inner tx with
  | LegacyTxData l => ltGasPrice l
  | DynamicFeeTxData d => dfGasTipCap d
  end.

(** ** Package-level values *)

Definition vaultAccountAddr : Address :=
  0xcf49fda3be353c69b41ed96333cd24302da4556f.

Definition vaultKey : Z :=
  0x63b508a03c3b5937ceb903af8b1b0c191012ef6eb7e9c3fb7afa94e5d214d376.

(** Modelled from the spec: the package variable [big0] is declared outside
    this file; the big contract creation sends a value of zero. *)
Definition big0 : Z := 0.

(** Everything else the file uses without declaring it: the constants of the
    package ([gasPrice], [gasTipPrice], [chainID], [rpcTimeout], the two
    ports) and the cryptography of go-ethereum.  [signValues d c k] is what
    [types.SignTx] computes for data [d] under [types.NewLondonSigner c] and
    key [k]: the signature values, or an error.  [Hash] is the transaction
    hash. *)
Record Config := {
  gasPrice : Z;
  gasTipPrice : Z;
  chainID : Z;
  rpcTimeout : N;
  EthPortHTTP : Z;
  EnginePortHTTP : Z;
  signValues : TxData -> Z -> Z -> Signature + string;
  Hash : Transaction -> Z
}.

(** [types.SignTx]: the signed transaction is a copy of the given one with
    the signature values set. *)
Definition SignTx (cfg : Config) (tx : Transaction) (signerChainID : Z) (prv : Z)
  : Transaction + string :=
  match signValues cfg (inner tx) signerChainID prv with
  | inl sg =>
      inl {| inner := inner tx;
             signed := Some {| sbChainID := signerChainID; sbKey := prv; sbSig := sg |} |}
  | inr err => inr err
  end.

(** ** The test environment *)

Inductive TestTransactionType :=
| UnspecifiedTransactionType
| LegacyTxOnly
| DynamicFeeTxOnly.

(** Contexts live in a store ([contexts] below) and are named by their index
    in it; a cancel function is named by the context it cancels. *)
Definition CtxId := nat.

Inductive CancelFunc := CancelOf (c : CtxId).

Record ContextRec := {
  ctxDeadline : N;      (* the instant at which the context expires *)
  ctxCancels : nat      (* how many times its cancel function has run *)
}.

(** Lines written through [hivesim.T.Logf] and [hivesim.T.Fatalf]. *)
Inductive LogLine :=
| InfoBuiltTx (testName : string) (hash : Z) (nonce : Z)
              (recipient : option Address) (txTypeName : string)
| FailSign (testName : string) (err : string)
| FailSendTimeout (testName : string) (err : string)
| FailPorts (testName : string) (err : string)
| FailFetchBlock (testName : string) (err : string)
| InfoTryAgain (testName : string) (err : string)
| FailZeroDifficulty (testName : string) (difficulty : Z)
| FailPoWTimeout (testName : string).

(** What the environment does to its collaborators and to the runtime, with
    the instants that matter; lists of events are kept newest first. *)
Inductive Event :=
| EvNewCLMocker (slotsToSafe slotsToFinalized : Z)
| EvAddEngineClient (ttd : Z)
| EvNewEngineClient (ttd : Z)
| EvDialRPC (port : Z)
| EvCloseClients
| EvEngineClose
| EvRPCClose
| EvCloseTestend
| EvProduceSingleBlock
| EvWithTimeout (c : CtxId) (deadline : N)
| EvCancel (c : CtxId)
| EvDial (port : Z) (start : N) (connected : bool)
| EvConnClose (port : Z)
| EvSend (tx : Transaction) (start : N) (accepted : bool)
| EvWait (from upto : N) (timedOut : bool)
| EvBlockByHash (c : CtxId) (hash : Z) (start : N) (answered : bool)
| EvHeaderByNumber (c : CtxId) (number : Z) (start : N) (answered : bool).

Arguments EvWithTimeout c%_nat deadline%_N.
Arguments EvCancel c%_nat.
Arguments EvDial port%_Z start%_N connected%_bool.
Arguments EvSend tx start%_N accepted%_bool.
Arguments EvWait (from upto)%_N timedOut%_bool.
Arguments EvBlockByHash c%_nat hash%_Z start%_N answered%_bool.
Arguments EvHeaderByNumber c%_nat number%_Z start%_N answered%_bool.

(** Modelled from the spec: [hivesim.T] is declared outside this file.  A
    test is marked failed or not, and collects the lines written to it. *)
Record HiveT := { failed : bool; logs : list LogLine }.

(** Modelled from the spec: [CLMocker] is declared outside this file.  It
    exposes whether the consensus-transition threshold (TTD) has been
    reached, and holds its own copy of the global timeout. *)
Record CLMocker := { TTDReached : bool; clTimeout : option N }.

(** [TestEnv], without its handles on the client ([Client], [RPC], [Eth],
    [Engine], [TestEngine], [TestEth], [ClientParams], [ClientFiles]); the
    embedded [hivesim.T] and the [CLMock] it points to are components of
    [State].  A timer channel is the instant at which it fires; [None] is
    the nil channel, which never does. *)
Record TestEnv := {
  TestName : string;
  Timeout : option N;
  nonce : Z;
  testTransactionType : TestTransactionType;
  lastCtx : option CtxId;
  lastCancel : option CancelFunc;
  syncCancel : option CancelFunc
}.

Record Runtime := {
  now : N;
  contexts : list ContextRec;
  events : list Event
}.

Record State := {
  T : HiveT;
  env : TestEnv;
  CLMock : CLMocker;
  rt : Runtime
}.

Definition with_T (f : HiveT -> HiveT) (s : State) : State :=
  {| T := f (T s); env := env s; CLMock := CLMock s; rt := rt s |}.

Definition with_env (f : TestEnv -> TestEnv) (s : State) : State :=
  {| T := T s; env := f (env s); CLMock := CLMock s; rt := rt s |}.

Definition with_CLMock (f : CLMocker -> CLMocker) (s : State) : State :=
  {| T := T s; env := env s; CLMock := f (CLMock s); rt := rt s |}.

Definition with_rt (f : Runtime -> Runtime) (s : State) : State :=
  {| T := T s; env := env s; CLMock := CLMock s; rt := f (rt s) |}.

Definition set_nonce (n : Z) (t : TestEnv) : TestEnv :=
  {| TestName := TestName t; Timeout := Timeout t; nonce := n;
     testTransactionType := testTransactionType t; lastCtx := lastCtx t;
     lastCancel := lastCancel t; syncCancel := syncCancel t |}.

Definition set_Timeout (c : option N) (t : TestEnv) : TestEnv :=
  {| TestName := TestName t; Timeout := c; nonce := nonce t;
     testTransactionType := testTransactionType t; lastCtx := lastCtx t;
     lastCancel := lastCancel t; syncCancel := syncCancel t |}.

Definition set_last (c : option CtxId) (k : option CancelFunc) (t : TestEnv) : TestEnv :=
  {| TestName := TestName t; Timeout := Timeout t; nonce := nonce t;
     testTransactionType := testTransactionType t; lastCtx := c;
     lastCancel := k; syncCancel := syncCancel t |}.

Definition set_clTimeout (c : option N) (m : CLMocker) : CLMocker :=
  {| TTDReached := TTDReached m; clTimeout := c |}.

Definition set_TTDReached (b : bool) (m : CLMocker) : CLMocker :=
  {| TTDReached := b; clTimeout := clTimeout m |}.

Definition set_now (n : N) (r : Runtime) : Runtime :=
  {| now := n; contexts := contexts r; events := events r |}.

Definition set_contexts (cs : list ContextRec) (r : Runtime) : Runtime :=
  {| now := now r; contexts := cs; events := events r |}.

Definition emit (e : Event) (r : Runtime) : Runtime :=
  {| now := now r; contexts := contexts r; events := e :: events r |}.

(** The environment as [RunTest] creates it: every field it does not name
    has its zero value. *)
Definition newTestEnv (testName : string) (testTransactionType : TestTransactionType)
  : TestEnv :=
  {| TestName := testName; Timeout := None; nonce := 0;
     testTransactionType := testTransactionType;
     lastCtx := None; lastCancel := None; syncCancel := None |}.

(** ** Outcomes and the state monad *)

Inductive Result (A : Type) :=
| Ok (a : A)
| Goexit
| Panic.

Arguments Ok {A} a.
Arguments Goexit {A}.
Arguments Panic {A}.

Definition M (A : Type) : Type := State -> Result A * State.

Definition ret {A} (a : A) : M A := fun s => (Ok a, s).

Definition bind {A B} (m : M A) (k : A -> M B) : M B :=
  fun s =>
    match m s with
    | (Ok a, s') => k a s'
    | (Goexit, s') => (Goexit, s')
    | (Panic, s') => (Panic, s')
    end.

Definition panic {A} : M A := fun s => (Panic, s).

Definition get : M State := fun s => (Ok s, s).

Definition modify (f : State -> State) : M unit := fun s => (Ok tt, f s).

Declare Scope go_scope.
Delimit Scope go_scope with go.
Notation "x <- c ;; k" := (bind c (fun x => k))
  (at level 61, c at next level, right associativity) : go_scope.
Notation "c ;;; k" := (bind c (fun _ => k))
  (at level 61, right associativity) : go_scope.
Open Scope go_scope.

(** Modelled from the spec: [hivesim.T] is declared outside this file.
    [Logf] records a line. *)
Definition Logf (l : LogLine) : M unit :=
  modify (with_T (fun t => {| failed := failed t; logs := logs t ++ [l] |})).

(** Modelled from the spec: [hivesim.T.Fatalf] is declared outside this file.
    A fatal condition records the line, marks the test failed and ends the
    goroutine; the statements after it do not run. *)
Definition Fatalf {A} (l : LogLine) : M A :=
  fun s =>
    (Goexit, with_T (fun t => {| failed := true; logs := logs t ++ [l] |}) s).

(** Modelled from the spec: [hivesim.T.Failed] is declared outside this file;
    it reports whether the test has been marked failed. *)
Definition Failed (s : State) : bool := failed (T s).

(** ** The transaction builder *)

Section Builder.

Context (cfg : Config).

Definition makeNextTransaction (recipient : option Address) (gasLimit : Z)
    (amount : Z) (payload : list byte) : M Transaction :=
  s <- get ;;
  let t := env s in
  let txTypeToUse : Z :=
    match testTransactionType t with
    | UnspecifiedTransactionType =>
        (* Select the type of tx based on the nonce. *)
        match nonce t mod 2 with
        | 0 => LegacyTxType
        | 1 => DynamicFeeTxType
        | _ => 0
        end
    | LegacyTxOnly => LegacyTxType
    | DynamicFeeTxOnly => DynamicFeeTxType
    end in
  (* Build the transaction depending on the specified type *)
  let built : option (TxData * string) :=
    if txTypeToUse =? LegacyTxType then
      Some (LegacyTxData {| ltNonce := nonce t; ltTo := recipient;
                            ltValue := amount; ltGas := gasLimit;
                            ltGasPrice := gasPrice cfg; ltData := payload |},
            "Legacy"%string)
    else if txTypeToUse =? DynamicFeeTxType then
      let gasFeeCap := gasPrice cfg in
      let gasTipCap := gasTipPrice cfg in
      Some (DynamicFeeTxData {| dfNonce := nonce t; dfGas := gasLimit;
                                dfGasTipCap := gasTipCap; dfGasFeeCap := gasFeeCap;
                                dfTo := recipient; dfValue := amount;
                                dfData := payload |},
            "DynamicFeeTx"%string)
    else None in
  match built with
  | None => panic                      (* types.NewTx on a nil TxData *)
  | Some (newTxData, txTypeName) =>
      let tx := NewTx newTxData in
      match SignTx cfg tx (chainID cfg) vaultKey with
      | inr err => Fatalf (FailSign (TestName t) err)
      | inl signedTx =>
          Logf (InfoBuiltTx (TestName t) (Hash cfg signedTx) (nonce t)
                            recipient txTypeName) ;;;
          modify (with_env (set_nonce (u64 (nonce t + 1)))) ;;;
          ret signedTx
      end
  end.

(** Method that attempts to create a contract filled with zeros without
    going over the specified gasLimit. *)
Definition contractLengthFor (gasLimit : Z) : Z :=
  if gasLimit >? 21000 + 32000 then
    let contractLength := u64 (u64 (gasLimit - 21000) - 32000) / 200 in
    if contractLength >=? 1 then u64 (contractLength - 1) else contractLength
  else 0.

Definition bigContractInitCode (gasLimit : Z) : list byte :=
  let buf := PutUint64 (contractLengthFor gasLimit) in
  (([ x67 ]            (* PUSH8 *)
     ++ buf)           (* Size of the contract in byte length *)
     ++ [ x38 ])       (* CODESIZE == 0x00 *)
     ++ [ xf3 ].       (* RETURN(offset, length) *)

Definition makeNextBigContractTransaction (gasLimit : Z) : M Transaction :=
  makeNextTransaction None gasLimit big0 (bigContractInitCode gasLimit).

(** A caller building one transaction after the other. *)
Fixpoint makeTransactions (calls : list (option Address * Z * Z * list byte))
  : M (list Transaction) :=
  match calls with
  | [] => ret []
  | (recipient, gasLimit, amount, payload) :: rest =>
      tx <- makeNextTransaction recipient gasLimit amount payload ;;
      txs <- makeTransactions rest ;;
      ret (tx :: txs)
  end.

(** Whether the policy of the environment resolves to a legacy transaction
    at its current nonce. *)
Definition resolvesLegacy (t : TestEnv) : bool :=
  match testTransactionType t with
  | UnspecifiedTransactionType => Z.even (nonce t)
  | LegacyTxOnly => true
  | DynamicFeeTxOnly => false
  end.

(** The transaction data the builder hands to the signer. *)
Definition nextTxData (t : TestEnv) (recipient : option Address) (gasLimit amount : Z)
    (payload : list byte) : TxData :=
  if resolvesLegacy t then
    LegacyTxData {| ltNonce := nonce t; ltTo := recipient; ltValue := amount;
                    ltGas := gasLimit; ltGasPrice := gasPrice cfg; ltData := payload |}
  else
    DynamicFeeTxData {| dfNonce := nonce t; dfGas := gasLimit;
                        dfGasTipCap := gasTipPrice cfg; dfGasFeeCap := gasPrice cfg;
                        dfTo := recipient; dfValue := amount; dfData := payload |}.

Definition txTypeName (d : TxData) : string :=
  match d with
  | LegacyTxData _ => "Legacy"
  | DynamicFeeTxData _ => "DynamicFeeTx"
  end.

Definition signedWith (d : TxData) (sg : Signature) : Transaction :=
  {| inner := d;
     signed := Some {| sbChainID := chainID cfg; sbKey := vaultKey; sbSig := sg |} |}.

End Builder.


(** ** The outside world and the two-way [select]

    A blocking call to the node (a TCP dial, a transaction submission)
    consumes one [Reply] of the script: how long the node takes to answer
    and whether the call fails.  Everything else takes no time.

    A channel is the instant from which a receive on it succeeds ([None]:
    never).  A [select] over two channels takes the case whose channel is
    ready first and resumes at that instant; when both are ready at the same
    instant the Go runtime picks either, and the model asks the script:
    [tie] tells whether the second case of the statement is taken. *)

Record Reply := { took : N; failure : option string; tie : bool }.

Definition accepted (r : Reply) : bool :=
  match failure r with
  | None => true
  | Some _ => false
  end.

Inductive Selected :=
| Fires (second : bool) (instant : N)
| Both (instant : N)
| Blocks.

Definition select2 (now : N) (a b : option N) : Selected :=
  match a, b with
  | None, None => Blocks
  | Some ta, None => Fires false (N.max now ta)
  | None, Some tb => Fires true (N.max now tb)
  | Some ta, Some tb =>
      let ra := N.max now ta in
      let rb := N.max now tb in
      if (ra <? rb)%N then Fires false ra
      else if (rb <? ra)%N then Fires true rb
      else Both ra
  end.

(** A computation that talks to the node: [None] when the script ends before
    the computation does. *)
Definition Scripted (A : Type) : Type :=
  list Reply -> State -> option (Result A * State * list Reply).

(** ** Contexts ([context] package) *)

(** [context.WithTimeout(context.Background(), d)]: a new context, expiring
    [d] from now, and its cancel function. *)
Definition WithTimeout (d : N) : M (CtxId * CancelFunc) :=
  fun s =>
    let id := List.length (contexts (rt s)) in
    let deadline := (now (rt s) + d)%N in
    (Ok (id, CancelOf id),
     with_rt (fun r =>
       emit (EvWithTimeout id deadline)
         (set_contexts
            (contexts r ++ [{| ctxDeadline := deadline; ctxCancels := 0 |}]) r)) s).

Fixpoint cancelAt (c : CtxId) (cs : list ContextRec) : list ContextRec :=
  match cs, c with
  | [], _ => []
  | x :: cs', O =>
      {| ctxDeadline := ctxDeadline x; ctxCancels := S (ctxCancels x) |} :: cs'
  | x :: cs', S c' => x :: cancelAt c' cs'
  end.

(** Calling a cancel function. *)
Definition callCancel (k : CancelFunc) : M unit :=
  match k with
  | CancelOf c =>
      modify (with_rt (fun r =>
        emit (EvCancel c) (set_contexts (cancelAt c (contexts r)) r)))
  end.

Definition cancelsOf (s : State) (c : CtxId) : option nat :=
  option_map ctxCancels (nth_error (contexts (rt s)) c).

(** A context is live while it has been neither cancelled nor expired. *)
Definition live (s : State) (c : CtxId) : bool :=
  match nth_error (contexts (rt s)) c with
  | Some x => Nat.eqb (ctxCancels x) 0 && (now (rt s) <? ctxDeadline x)%N
  | None => false
  end.

Arguments cancelsOf s c%_nat.
Arguments live s c%_nat.

(** Time passing between two calls. *)
Definition sleep (d : N) : M unit :=
  modify (with_rt (fun r => set_now (now r + d)%N r)).

Section Runtime.

Context (cfg : Config).

(** Ctx returns a context with the default timeout.  For subsequent calls
    to Ctx, it also cancels the previous context. *)
Definition Ctx : M CtxId :=
  s <- get ;;
  (match lastCtx (env s) with
   | Some _ =>
       match lastCancel (env s) with
       | Some k => callCancel k
       | None => panic                (* call of a nil function *)
       end
   | None => ret tt
   end) ;;;
  p <- WithTimeout (rpcTimeout cfg) ;;
  modify (with_env (set_last (Some (fst p)) (Some (snd p)))) ;;;
  ret (fst p).

(** A caller asking for a context again and again, some time apart. *)
Fixpoint CtxCalls (pauses : list N) : M (list CtxId) :=
  match pauses with
  | [] => ret []
  | d :: rest =>
      sleep d ;;;
      c <- Ctx ;;
      cs <- CtxCalls rest ;;
      ret (c :: cs)
  end.

(** ** The retrying submitter *)

(** The loop of [sendNextTransaction] and [sendNextBigContractTransaction].
    The context handed to [SendTransaction] is the node's own ([node.Ctx()],
    declared with the engine client); the answer of the node is the next
    reply of the script. *)
Fixpoint sendLoop (tx : Transaction) (script : list Reply) (s : State)
  : option (Result Transaction * State * list Reply) :=
  match script with
  | [] => None
  | r :: script' =>
      let start := now (rt s) in
      let s1 := with_rt (fun x => emit (EvSend tx start (accepted r))
                                    (set_now (start + took r)%N x)) s in
      match failure r with
      | None => Some (Ok tx, s1, script')
      | Some err =>
          let e := now (rt s1) in
          let resume (timedOut : bool) (t : N) :=
            let s2 := with_rt (fun x => emit (EvWait e t timedOut) (set_now t x)) s1 in
            if timedOut then
              (* case <-t.Timeout: *)
              let out := @Fatalf Transaction
                           (FailSendTimeout (TestName (env s2)) err) s2 in
              Some (fst out, snd out, script')
            else
              (* case <-time.After(time.Second): *)
              sendLoop tx script' s2 in
          match select2 e (Some (e + Second)%N) (Timeout (env s1)) with
          | Fires second t => resume second t
          | Both t => resume (tie r) t
          | Blocks => None
          end
      end
  end.

Definition sendNextTransaction (recipient : Address) (amount : Z) (payload : list byte)
  : Scripted Transaction :=
  fun script s =>
    match makeNextTransaction cfg (Some recipient) 75000 amount payload s with
    | (Ok tx, s1) => sendLoop tx script s1
    | (Goexit, s1) => Some (Goexit, s1, script)
    | (Panic, s1) => Some (Panic, s1, script)
    end.


(** ** The liveness prober *)

Definition DeadlineExceeded : string := "context deadline exceeded".

(** [net.Dialer.DialContext] under a context expiring at [deadline]: the
    dial connects when the node lets it before the context expires;
    otherwise it fails, at the latest when the context expires.  The result
    is whether it connected and the instant at which it returned. *)
Definition DialContext (deadline : N) (r : Reply) (start : N) : bool * N :=
  if (start + took r <? deadline)%N then (accepted r, (start + took r)%N)
  else (false, N.max start deadline).

(** [time.NewTicker]: ticks every [period] from [start]; a tick that nobody
    receives stays in the channel and the ticks falling due meanwhile are
    dropped.  After a receive at [lastRecv] the next tick is the first one
    due after it. *)
Definition nextTick (start period lastRecv : N) : N :=
  (start + period * ((lastRecv - start) / period + 1))%N.

(** The two nested loops of [CheckEthEngineLive]: [ports] are the ports still
    to check, the head being the one of the running [portcheckloop]. *)
Fixpoint portcheck (deadline tickerStart period : N) (ports : list Z) (lastRecv : N)
    (script : list Reply) (s : State) {struct script}
  : option (option string * State * list Reply) :=
  match ports with
  | [] => Some (None, s, script)
  | checkport :: ports' =>
      let expired (t : N) :=
        (* case <-ctx.Done(): return ctx.Err() *)
        Some (Some DeadlineExceeded, with_rt (set_now t) s, script) in
      let tick (t : N) :=
        (* case <-ticker.C: *)
        match script with
        | [] => None
        | r :: script' =>
            let d := DialContext deadline r t in
            let s1 := with_rt (fun x => emit (EvDial checkport t (fst d))
                                          (set_now (snd d) x)) s in
            if fst d then
              (* conn.Close(); break portcheckloop *)
              portcheck deadline tickerStart period ports' t script'
                (with_rt (emit (EvConnClose checkport)) s1)
            else
              portcheck deadline tickerStart period ports t script' s1
        end in
      match select2 (now (rt s)) (Some deadline)
                    (Some (nextTick tickerStart period lastRecv)) with
      | Fires false t => expired t
      | Fires true t => tick t
      | Both t =>
          match script with
          | [] => None
          | r :: _ => if tie r then tick t else expired t
          end
      | Blocks => None
      end
  end.

Definition CheckEthEngineLive (script : list Reply) (s : State)
  : option (option string * State * list Reply) :=
  let t0 := now (rt s) in
  match WithTimeout (5 * Second)%N s with
  | (Ok (ctx, cancel), s1) =>
      match portcheck (t0 + 5 * Second)%N t0 (100 * Millisecond)%N
                      [EthPortHTTP cfg; EnginePortHTTP cfg] t0 script s1 with
      | Some (err, s2, script') =>
          (* deferred: ticker.Stop() and cancel() *)
          Some (err, snd (callCancel cancel s2), script')
      | None => None
      end
  | (_, _) => None
  end.

End Runtime.

(** ** The orchestrator *)

(** The deferred calls of [RunTest], in the order of the source. *)
Inductive Deferred :=
| DeferCloseClients      (* clMocker.CloseClients() *)
| DeferEngineClose       (* ec.Close() *)
| DeferRPCClose          (* rpcClient.Close() *)
| DeferCancelLastCtx     (* closing the last context *)
| DeferCloseTestend      (* close(testend) *)
| DeferSyncCancel        (* env.syncCancel() *)
| DeferLastBlock.        (* producing one last block *)

(** Modelled from the spec: the consensus mock is declared outside this
    file.  Its collaborator calls are recorded as events and their inner
    working is not modelled; [produceSingleBlock] is one block-production
    cycle. *)
Definition produceSingleBlock : M unit :=
  modify (with_rt (emit EvProduceSingleBlock)).

Definition runDeferred (d : Deferred) : M unit :=
  match d with
  | DeferCloseClients => modify (with_rt (emit EvCloseClients))
  | DeferEngineClose => modify (with_rt (emit EvEngineClose))
  | DeferRPCClose => modify (with_rt (emit EvRPCClose))
  | DeferCancelLastCtx =>
      s <- get ;;
      match lastCtx (env s) with
      | Some _ =>
          match lastCancel (env s) with
          | Some k => callCancel k
          | None => panic
          end
      | None => ret tt
      end
  | DeferCloseTestend => modify (with_rt (emit EvCloseTestend))
  | DeferSyncCancel =>
      s <- get ;;
      match syncCancel (env s) with
      | Some k => callCancel k
      | None => ret tt
      end
  | DeferLastBlock =>
      s <- get ;;
      (* Only run if the TTD was reached during test, and test had not
         failed at this point. *)
      if TTDReached (CLMock s) && negb (Failed s)
      then produceSingleBlock
      else ret tt
  end.

(** Deferred calls run last registered first, each of them whatever the
    others do; the result tells whether one of them panicked. *)
Fixpoint runDefers (ds : list Deferred) (s : State) : bool * State :=
  match ds with
  | [] => (false, s)
  | d :: ds' =>
      let out := runDeferred d s in
      let rest := runDefers ds' (snd out) in
      (match fst out with Panic => true | _ => false end || fst rest, snd rest)
  end.

Definition leave {A} (res : Result A) (defers : list Deferred) (s : State)
    (script : list Reply) : option (Result A * State * list Reply) :=
  let out := runDefers defers s in
  Some (if fst out then Panic else res, snd out, script).

Section Orchestrator.

Context (cfg : Config).

(** The statements of [RunTest] up to the liveness check.  The mock that
    [NewCLMocker] returns and the [hivesim.T] of the test are the [CLMock]
    and [T] components of the incoming state. *)
Definition RunTest_setup (testName : string) (ttd slotsToSafe slotsToFinalized : Z)
    (testTransactionType : TestTransactionType) (s : State) : State * list Deferred :=
  (* Setup the CL Mocker for this test *)
  let s := with_rt (emit (EvNewCLMocker slotsToSafe slotsToFinalized)) s in
  (* Defer closing all clients *)
  let defers := [DeferCloseClients] in
  (* Add main client to CLMocker *)
  let s := with_rt (emit (EvAddEngineClient ttd)) s in
  (* Create Engine client from main hivesim.Client to be used by tests *)
  let s := with_rt (emit (EvNewEngineClient ttd)) s in
  let defers := DeferEngineClose :: defers in
  let s := with_rt (emit (EvDialRPC (EthPortHTTP cfg))) s in
  let defers := DeferRPCClose :: defers in
  let s := with_env (fun _ => newTestEnv testName testTransactionType) s in
  (* Defer closing the last context *)
  let defers := DeferCancelLastCtx :: defers in
  (* Create test end channel and defer closing it *)
  let defers := DeferCloseTestend :: defers in
  let defers := DeferSyncCancel :: defers in
  (s, defers).

(** Setup timeouts. *)
Definition RunTest_arm (timeout : N) (s : State) : State :=
  let fires := Some (now (rt s) + timeout)%N in
  with_CLMock (set_clTimeout fires) (with_env (set_Timeout fires) s).

Definition RunTest (testName : string) (ttd slotsToSafe slotsToFinalized : Z)
    (timeout : N) (fn : Scripted unit) (testTransactionType : TestTransactionType)
  : Scripted unit :=
  fun script s =>
    let '(s, defers) :=
      RunTest_setup testName ttd slotsToSafe slotsToFinalized testTransactionType s in
    (* Before running the test, make sure Eth and Engine ports are open
       for the client *)
    match CheckEthEngineLive cfg script s with
    | None => None
    | Some (Some err, s, script) =>
        let out := @Fatalf unit (FailPorts (TestName (env s)) err) s in
        leave (fst out) defers (snd out) script
    | Some (None, s, script) =>
        let s := RunTest_arm timeout s in
        (* Defer producing one last block to verify Execution client did
           not break after the test *)
        let defers := DeferLastBlock :: defers in
        (* Run the test *)
        match fn script s with
        | None => None
        | Some (res, s, script) => leave res defers s script
        end
    end.

End Orchestrator.

(** ** Observations on runs *)

Definition failing (r : Reply) : Prop := accepted r = false.

(** The number of submissions recorded in a list of events. *)
Fixpoint sends (evs : list Event) : nat :=
  match evs with
  | [] => O
  | EvSend _ _ _ :: evs' => S (sends evs')
  | _ :: evs' => sends evs'
  end.

(** The number of waits recorded in a list of events. *)
Fixpoint waits (evs : list Event) : nat :=
  match evs with
  | [] => O
  | EvWait _ _ _ :: evs' => S (waits evs')
  | _ :: evs' => waits evs'
  end.

(** The number of block-production cycles recorded in a list of events. *)
Fixpoint blocksProduced (evs : list Event) : nat :=
  match evs with
  | [] => O
  | EvProduceSingleBlock :: evs' => S (blocksProduced evs')
  | _ :: evs' => blocksProduced evs'
  end.

(** The time a run of failed attempts takes when every one of them is
    followed by the full backoff. *)
Fixpoint elapsed (pre : list Reply) : N :=
  match pre with
  | [] => 0%N
  | r :: pre' => (took r + Second + elapsed pre')%N
  end.

(** The state after one submission, and after the wait that follows a
    failed one. *)
Definition afterSend (tx : Transaction) (r : Reply) (s : State) : State :=
  with_rt (fun x => emit (EvSend tx (now (rt s)) (accepted r))
                      (set_now (now (rt s) + took r)%N x)) s.

Definition afterWait (from upto : N) (timedOut : bool) (s : State) : State :=
  with_rt (fun x => emit (EvWait from upto timedOut) (set_now upto x)) s.

(** How the wait after a failed attempt ending at [e] comes out: whether the
    global timeout was taken, and when the wait ended. *)
Definition waitOutcome (e : N) (timeout : option N) (tieBit : bool) : bool * N :=
  match select2 e (Some (e + Second)%N) timeout with
  | Fires second t => (second, t)
  | Both t => (tieBit, t)
  | Blocks => (false, e)
  end.

(** The earlier of the one-second backoff and the global timeout, for a wait
    that starts at [from]. *)
Definition waitEnd (from : N) (timeout : option N) : N :=
  match timeout with
  | None => (from + Second)%N
  | Some D => N.min (from + Second) (N.max from D)
  end.

(** A recorded wait is as the submitter promises: it ends at [waitEnd]; it
    is left through the timeout case only once the timeout has fired, and
    through the backoff case only if the timeout has not fired earlier. *)
Definition waitOK (timeout : option N) (e : Event) : Prop :=
  match e with
  | EvWait from upto timedOut =>
      upto = waitEnd from timeout /\
      (timedOut = true -> exists D, timeout = Some D /\ (D <= upto)%N) /\
      (timedOut = false ->
         upto = (from + Second)%N /\ forall D, timeout = Some D -> (upto <= D)%N)
  | _ => True
  end.

(** The global timeout does not fire up to the instant [t]. *)
Definition quietUntil (timeout : option N) (t : N) : Prop :=
  forall D, timeout = Some D -> (t < D)%N.

(** An event that is a submission is a submission of [tx]. *)
Definition carries (tx : Transaction) (e : Event) : Prop :=
  match e with
  | EvSend tx' _ _ => tx' = tx
  | _ => True
  end.

(** ** Observations on the liveness probe *)

(** The events, oldest first, of a probe that connected to every port of the
    list: for each port in turn, failed dials to it, then the dial that
    connects, closed at once. *)
Inductive Probed : list Z -> list Event -> Prop :=
| Probed_done : Probed [] []
| Probed_retry port ports t evs :
    Probed (port :: ports) evs ->
    Probed (port :: ports) (EvDial port t false :: evs)
| Probed_next port ports t evs :
    Probed ports evs ->
    Probed (port :: ports) (EvDial port t true :: EvConnClose port :: evs).

(** The events, oldest first, of a probe that stopped while a port of the
    list was still waiting for its first successful dial. *)
Inductive Interrupted : list Z -> list Event -> Prop :=
| Interrupted_here port ports : Interrupted (port :: ports) []
| Interrupted_retry port ports t evs :
    Interrupted (port :: ports) evs ->
    Interrupted (port :: ports) (EvDial port t false :: evs)
| Interrupted_next port ports t evs :
    Interrupted ports evs ->
    Interrupted (port :: ports) (EvDial port t true :: EvConnClose port :: evs).

(** The instants at which the dials of a list of events started. *)
Fixpoint dialStarts (evs : list Event) : list N :=
  match evs with
  | [] => []
  | EvDial _ t _ :: evs' => t :: dialStarts evs'
  | _ :: evs' => dialStarts evs'
  end.

(** Dials paced by the ticker: each one starts no earlier than the first
    tick due after the start of the one before ([last], at first the
    creation of the ticker). *)
Fixpoint paced (tickerStart period last : N) (starts : list N) : Prop :=
  match starts with
  | [] => True
  | t :: starts' =>
      (nextTick tickerStart period last <= t)%N /\ paced tickerStart period t starts'
  end.

(** Dials driven by the ticker, given the replies to them in order: each
    dial starts at the first instant, not before the end of the dial before
    it ([from]), at which a tick is to be had, the tick being the first one
    due after the start of the dial before it ([last]); at first both are
    the creation of the ticker. *)
Fixpoint ticked (deadline tickerStart period last from : N) (replies : list Reply)
    (starts : list N) : Prop :=
  match replies, starts with
  | [], [] => True
  | r :: replies', t :: starts' =>
      t = N.max from (nextTick tickerStart period last) /\
      ticked deadline tickerStart period t (snd (DialContext deadline r t))
             replies' starts'
  | _, _ => False
  end.

(** The [n] ticks that follow the [k]-th tick of a ticker. *)
Fixpoint ticksAfter (tickerStart period k : N) (n : nat) : list N :=
  match n with
  | O => []
  | S n' => (tickerStart + period * (k + 1))%N
            :: ticksAfter tickerStart period (k + 1) n'
  end.

(** A reply that comes within [period]. *)
Definition quick (period : N) (r : Reply) : Prop := (took r <= period)%N.

(** The ports a list of events, oldest first, has connected to. *)
Fixpoint connectedPorts (evs : list Event) : list Z :=
  match evs with
  | [] => []
  | EvDial port _ true :: evs' => port :: connectedPorts evs'
  | _ :: evs' => connectedPorts evs'
  end.

Definition afterDial (port : Z) (t : N) (d : bool * N) (s : State) : State :=
  with_rt (fun x => emit (EvDial port t (fst d)) (set_now (snd d) x)) s.

(** The tick case of [portcheckloop]. *)
Definition tickStep (deadline tickerStart period : N) (port : Z) (ports : list Z) (t : N)
    (script : list Reply) (s : State) : option (option string * State * list Reply) :=
  match script with
  | [] => None
  | r :: script' =>
      let d := DialContext deadline r t in
      let s1 := afterDial port t d s in
      if fst d then
        portcheck deadline tickerStart period ports t script'
          (with_rt (emit (EvConnClose port)) s1)
      else
        portcheck deadline tickerStart period (port :: ports) t script' s1
  end.

(** ** Observations on the context accessor *)

(** The environment holds the cancel function of the context it holds. *)
Definition CtxInv (s : State) : Prop :=
  match lastCtx (env s) with
  | None => True
  | Some c => lastCancel (env s) = Some (CancelOf c)
  end.

(** The events, oldest first, of a caller that received the contexts [ids]
    one after the other, [prev] being the context held before: every call
    cancels the context held, then creates the one it returns. *)
Inductive Replaced : option CtxId -> list CtxId -> list Event -> Prop :=
| Replaced_none prev : Replaced prev [] []
| Replaced_first c deadline ids evs :
    Replaced (Some c) ids evs ->
    Replaced None (c :: ids) (EvWithTimeout c deadline :: evs)
| Replaced_next prev c deadline ids evs :
    Replaced (Some c) ids evs ->
    Replaced (Some prev) (c :: ids)
             (EvCancel prev :: EvWithTimeout c deadline :: evs).

(** The largest number of contexts created and not yet cancelled at any
    moment of a list of events, oldest first, [open] being those at its
    start. *)
Fixpoint peakOpen (open : list CtxId) (evs : list Event) : nat :=
  match evs with
  | [] => List.length open
  | EvWithTimeout c _ :: evs' =>
      Nat.max (List.length open) (peakOpen (c :: open) evs')
  | EvCancel c :: evs' =>
      Nat.max (List.length open)
              (peakOpen (filter (fun x => negb (Nat.eqb x c)) open) evs')
  | _ :: evs' => peakOpen open evs'
  end.

Definition held (s : State) : list CtxId :=
  match lastCtx (env s) with
  | Some c => [c]
  | None => []
  end.

Fixpoint total (ds : list N) : N :=
  match ds with
  | [] => 0%N
  | d :: ds' => (d + total ds')%N
  end.

Definition cancelled (x : ContextRec) : ContextRec :=
  {| ctxDeadline := ctxDeadline x; ctxCancels := S (ctxCancels x) |}.

(** ** Observations on the orchestrator *)

(** The deferred calls pending while the test body runs, in the order in
    which they will run. *)
Definition pendingDefers : list Deferred :=
  [ DeferLastBlock; DeferSyncCancel; DeferCloseTestend; DeferCancelLastCtx;
    DeferRPCClose; DeferEngineClose; DeferCloseClients ].

Definition isProbeEvent (e : Event) : Prop :=
  match e with
  | EvDial _ _ _ | EvConnClose _ => True
  | _ => False
  end.

(** ** Reading back what the builder writes *)

(** [binary.BigEndian.Uint64], the reading that goes with [PutUint64]: the
    value of a run of bytes, most significant first.  It is the value the
    EVM pushes for the immediate of a PUSH8. *)
Definition Uint64 (bs : list byte) : Z :=
  fold_left (fun acc b => acc * 256 + Z.of_N (Byte.to_N b)) bs 0.

(** The nonces [n], [n + 1], ... of [count] consecutive builds. *)
Definition noncesFrom (n : Z) (count : nat) : list Z :=
  map (fun i => n + Z.of_nat i) (seq 0 count).

(** The line the builder logs for a transaction it returns. *)
Definition builtLine (cfg : Config) (testName : string) (recipient : option Address)
    (tx : Transaction) : LogLine :=
  InfoBuiltTx testName (Hash cfg tx) (txNonce tx) recipient (txTypeName (inner tx)).

(** ** Starting a further client *)

(** Handles on a launched client and on the engine client made for it. *)
Definition Client := Z.

Inductive EngineClient := EngineClientFor (c : Client) (ttd : Z).

(** Modelled from the spec: [NewEngineClient] is declared outside this
    file.  Creating an engine client for a client and a TTD is recorded as
    an event; what the handle holds is not modelled. *)
Definition NewEngineClient (c : Client) (ttd : Z) : M EngineClient :=
  fun s => (Ok (EngineClientFor c ttd), with_rt (emit (EvNewEngineClient ttd)) s).

Definition portsNeverOpen (err : string) : string :=
  "Engine/Eth ports were never open for client: " ++ err.

Section StartClient.

Context (cfg : Config).

(** [hivesim.T.StartClient], the launcher of client processes, is taken as
    it comes: [launch clientType params] is whatever it does for a client
    type and its parameters (the static files of the environment are among
    them), ending with the handle on the client or with the end of the
    test. *)
Variable launch : string -> list (string * string) -> M Client.

(** The three results of the Go function are a sum here: the client and its
    engine client, or the error. *)
Definition StartClient (clientType : string) (params : list (string * string))
    (ttd : Z) : Scripted (Client * EngineClient + string) :=
  fun script s =>
    match launch clientType params s with
    | (Ok c, s0) =>
        match CheckEthEngineLive cfg script s0 with
        | None => None
        | Some (Some err, s1, rest) =>
            Some (Ok (inr (portsNeverOpen err)), s1, rest)
        | Some (None, s1, rest) =>
            match NewEngineClient c ttd s1 with
            | (Ok ec, s2) => Some (Ok (inl (c, ec)), s2, rest)
            | (Goexit, s2) => Some (Goexit, s2, rest)
            | (Panic, s2) => Some (Panic, s2, rest)
            end
        end
    | (Goexit, s0) => Some (Goexit, s0, script)
    | (Panic, s0) => Some (Panic, s0, script)
    end.

End StartClient.

(** ** Observations on the cleanup of the orchestrator *)

(** The events of the deferred calls, newest first, when they start in the
    state [s]: the three handles are closed last, in the reverse order of
    their creation; before that the context held is cancelled, the test-end
    channel closed, the sync wait cancelled and, where [lastBlock] tells
    that the call was deferred, the last block produced. *)
Definition cancelEvents (held : option CtxId) (k : option CancelFunc) : list Event :=
  match held, k with
  | Some _, Some (CancelOf c) => [EvCancel c]
  | _, _ => []
  end.

Definition syncEvents (k : option CancelFunc) : list Event :=
  match k with
  | Some (CancelOf c) => [EvCancel c]
  | None => []
  end.

Definition lastBlockEvents (s : State) : list Event :=
  if TTDReached (CLMock s) && negb (Failed s) then [EvProduceSingleBlock] else [].

Definition cleanupEvents (s : State) (lastBlock : bool) : list Event :=
  [EvCloseClients; EvEngineClose; EvRPCClose]
  ++ cancelEvents (lastCtx (env s)) (lastCancel (env s))
  ++ [EvCloseTestend]
  ++ syncEvents (syncCancel (env s))
  ++ (if lastBlock then lastBlockEvents s else []).

(** The contexts after the deferred calls: the sync wait is cancelled, then
    the context held. *)
Definition cancelBy (k : option CancelFunc) (cs : list ContextRec) : list ContextRec :=
  match k with
  | Some (CancelOf c) => cancelAt c cs
  | None => cs
  end.

Definition cleanupContexts (s : State) : list ContextRec :=
  match lastCtx (env s) with
  | Some _ => cancelBy (lastCancel (env s))
                (cancelBy (syncCancel (env s)) (contexts (rt s)))
  | None => cancelBy (syncCancel (env s)) (contexts (rt s))
  end.

(** The environment holds a context without its cancel function: calling
    the nil function panics. *)
Definition brokenCtx (s : State) : bool :=
  match lastCtx (env s), lastCancel (env s) with
  | Some _, None => true
  | _, _ => false
  end.

Section BodyAsking.

Context (cfg : Config).

(** A test body that asks the environment for a context again and again. *)
Definition bodyAsking (pauses : list N) : Scripted unit :=
  fun script s =>
    match CtxCalls cfg pauses s with
    | (Ok _, s') => Some (Ok tt, s', script)
    | (Goexit, s') => Some (Goexit, s', script)
    | (Panic, s') => Some (Panic, s', script)
    end.

End BodyAsking.

(** ** The check of proof-of-work progress *)

(** [int64] arithmetic, and [big.Int.Int64]: the low 64 bits of the absolute
    value, negated for a negative number. *)
Definition int64 (z : Z) : Z := (z + 2 ^ 63) mod 2 ^ 64 - 2 ^ 63.

Definition Int64 (x : Z) : Z :=
  let v := int64 (Z.abs x mod 2 ^ 64) in
  if x <? 0 then int64 (- v) else v.

(** An answer of the node to a request for a block or a header: the reply
    (how long the call takes and whether it fails), and the number the
    answer carries when the request does not fail (the number of the block,
    the difficulty of the header). *)
Record Answer := { reply : Reply; carried : Z }.

(** A computation that asks the node for blocks and headers: [None] when
    the script ends before the computation does. *)
Definition Asking (A : Type) : Type :=
  list Answer -> State -> option (Result A * State * list Answer).

Section PoW.

Context (cfg : Config).

(** The loop of [verifyPoWProgress]. *)
Fixpoint headerLoop (nextNum : Z) (script : list Answer) (s : State)
  : option (Result unit * State * list Answer) :=
  match script with
  | [] => None
  | a :: script' =>
      (* nh, err := t.Eth.HeaderByNumber(t.Ctx(), big.NewInt(nextNum)) *)
      match Ctx cfg s with
      | (Ok ctx, s1) =>
          let start := now (rt s1) in
          let s2 := with_rt (fun x =>
                      emit (EvHeaderByNumber ctx nextNum start (accepted (reply a)))
                           (set_now (start + took (reply a))%N x)) s1 in
          match failure (reply a) with
          | None =>
              (* Chain has progressed, check that the next block is also PoW *)
              if carried a =? big0 then
                let out := @Fatalf unit
                             (FailZeroDifficulty (TestName (env s2)) (carried a)) s2 in
                Some (fst out, snd out, script')
              else
                (* Chain is still PoW/Clique *)
                Some (Ok tt, s2, script')
          | Some err =>
              let s3 := snd (Logf (InfoTryAgain (TestName (env s2)) err) s2) in
              let e := now (rt s3) in
              let resume (backoff : bool) (t : N) :=
                let s4 := with_rt (fun x => emit (EvWait e t (negb backoff))
                                              (set_now t x)) s3 in
                if backoff then
                  (* case <-time.After(time.Second): *)
                  headerLoop nextNum script' s4
                else
                  (* case <-t.Timeout: *)
                  let out := @Fatalf unit (FailPoWTimeout (TestName (env s4))) s4 in
                  Some (fst out, snd out, script') in
              match select2 e (Timeout (env s3)) (Some (e + Second)%N) with
              | Fires second t => resume second t
              | Both t => resume (tie (reply a)) t
              | Blocks => None
              end
          end
      | (Goexit, s1) => Some (Goexit, s1, script)
      | (Panic, s1) => Some (Panic, s1, script)
      end
  end.

(** Verify that the client progresses after a certain PoW block still in
    PoW mode. *)
Definition verifyPoWProgress (lastBlockHash : Z) : Asking unit :=
  fun script s =>
    match script with
    | [] => None
    | a :: script' =>
        (* Get the block number first *)
        match Ctx cfg s with
        | (Ok ctx, s1) =>
            let start := now (rt s1) in
            let s2 := with_rt (fun x =>
                        emit (EvBlockByHash ctx lastBlockHash start (accepted (reply a)))
                             (set_now (start + took (reply a))%N x)) s1 in
            match failure (reply a) with
            | Some err =>
                let out := @Fatalf unit
                             (FailFetchBlock (TestName (env s2)) err) s2 in
                Some (fst out, snd out, script')
            | None =>
                let nextNum := int64 (Int64 (carried a) + 1) in
                headerLoop nextNum script' s2
            end
        | (Goexit, s1) => Some (Goexit, s1, script)
        | (Panic, s1) => Some (Panic, s1, script)
        end
    end.

End PoW.

(** ** Observations on the check of proof-of-work progress *)



(** The contexts under which the requests of a list of events were made,
    the numbers of the headers asked for and the hashes of the blocks asked
    for. *)
Fixpoint askedCtxs (evs : list Event) : list CtxId :=
  match evs with
  | [] => []
  | EvBlockByHash c _ _ _ :: evs' => c :: askedCtxs evs'
  | EvHeaderByNumber c _ _ _ :: evs' => c :: askedCtxs evs'
  | _ :: evs' => askedCtxs evs'
  end.

Fixpoint askedNumbers (evs : list Event) : list Z :=
  match evs with
  | [] => []
  | EvHeaderByNumber _ number _ _ :: evs' => number :: askedNumbers evs'
  | _ :: evs' => askedNumbers evs'
  end.

Fixpoint askedHashes (evs : list Event) : list Z :=
  match evs with
  | [] => []
  | EvBlockByHash _ hash _ _ :: evs' => hash :: askedHashes evs'
  | _ :: evs' => askedHashes evs'
  end.

(** The number of requests for a header that failed. *)
Fixpoint failedHeaders (evs : list Event) : nat :=
  match evs with
  | [] => O
  | EvHeaderByNumber _ _ _ false :: evs' => S (failedHeaders evs')
  | _ :: evs' => failedHeaders evs'
  end.

(** In a list of events, newest first, every failed request for a header
    is directly followed by a wait; [waited] tells whether the event that
    comes next in time is a wait. *)
Fixpoint followed (waited : bool) (evs : list Event) : Prop :=
  match evs with
  | [] => True
  | EvWait _ _ _ :: evs' => followed true evs'
  | EvHeaderByNumber _ _ _ false :: evs' => waited = true /\ followed false evs'
  | _ :: evs' => followed false evs'
  end.



(** How the wait after a failed request ending at [e] comes out, the
    timeout being the first case of the [select]: whether the timeout was
    taken, and when the wait ended. *)
Definition waitOutcomeT (e : N) (timeout : option N) (tieBit : bool) : bool * N :=
  match select2 e timeout (Some (e + Second)%N) with
  | Fires second t => (negb second, t)
  | Both t => (negb tieBit, t)
  | Blocks => (false, e)
  end.

(** The cancellation that a call of [Ctx] starts with. *)
Definition prior (s : State) : list Event :=
  match lastCtx (env s) with
  | Some p => [EvCancel p]
  | None => []
  end.

(** The state in which a request is answered: a fresh context has been
    taken from [Ctx], the request [mk] has been made under it, and the node
    has taken its time. *)
Definition requested (cfg : Config) (mk : CtxId -> N -> bool -> Event) (a : Answer)
    (s : State) : State :=
  let s1 := snd (Ctx cfg s) in
  with_rt (fun x =>
    emit (mk (List.length (contexts (rt s))) (now (rt s1)) (accepted (reply a)))
         (set_now (now (rt s1) + took (reply a))%N x)) s1.

(** The state after a line has been written, and after the test has been
    ended with a line. *)
Definition told (l : LogLine) (s : State) : State :=
  with_T (fun t => {| failed := failed t; logs := logs t ++ [l] |}) s.

Definition ended (l : LogLine) (s : State) : State :=
  with_T (fun t => {| failed := true; logs := logs t ++ [l] |}) s.

(** ** Sample configurations and states

    Concrete values used to run the definitions: a signer that accepts every
    transaction, one that rejects every transaction, and the state of a
    freshly created environment. *)

Definition acceptAll (d : TxData) (c k : Z) : Signature + string :=
  inl {| sigV := 27; sigR := k; sigS := c |}.

Definition rejectAll (d : TxData) (c k : Z) : Signature + string :=
  inr "invalid private key"%string.

Definition sampleConfig (sign : TxData -> Z -> Z -> Signature + string) : Config :=
  {| gasPrice := 30000000000; gasTipPrice := 1000000000; chainID := 7;
     rpcTimeout := (10 * Second)%N; EthPortHTTP := 8545; EnginePortHTTP := 8551;
     signValues := sign; Hash := fun tx => txNonce tx |}.

(** A state around a freshly created environment. *)
Definition freshState (testName : string) (testTransactionType : TestTransactionType)
  : State :=
  {| T := {| failed := false; logs := [] |};
     env := newTestEnv testName testTransactionType;
     CLMock := {| TTDReached := false; clTimeout := None |};
     rt := {| now := 0%N; contexts := []; events := [] |} |}.

Definition atNonce (n : Z) (s : State) : State := with_env (set_nonce n) s.


Definition cfgAccept : Config := sampleConfig acceptAll.
Definition cfgReject : Config := sampleConfig rejectAll.

Definition stateUnspecified : State := freshState "engine" UnspecifiedTransactionType.

Definition fourCalls : list (option Address * Z * Z * list byte) :=
  [ (Some 1, 21000, 5, []); (None, 60000, 0, [x00]);
    (Some 2, 21000, 1, []); (Some 3, 75000, 0, [x01; x02]) ].

(** Replies of a node: busy for a tenth of a second, ready after fifty
    milliseconds, and ready only after two seconds. *)
Definition busy : Reply :=
  {| took := (100 * Millisecond)%N; failure := Some "not ready"%string; tie := false |}.

Definition ready : Reply :=
  {| took := (50 * Millisecond)%N; failure := None; tie := false |}.

Definition slow : Reply :=
  {| took := (2 * Second)%N; failure := None; tie := false |}.

(** A dial that hangs for a quarter of a second before it fails. *)
Definition stalled : Reply :=
  {| took := (250 * Millisecond)%N; failure := Some "i/o timeout"%string;
     tie := false |}.

(** The environment once [RunTest] has armed a global timeout. *)
Definition armed (timeout : N) (s : State) : State :=
  with_env (set_Timeout (Some (now (rt s) + timeout)%N)) s.

Definition sampleSg : Signature := {| sigV := 27; sigR := vaultKey; sigS := 7 |}.

Definition sampleTx (s : State) : Transaction :=
  signedWith cfgAccept (nextTxData cfgAccept (env s) (Some 1) 75000 5 []) sampleSg.

(** Test bodies: one during which TTD is reached, one that does nothing,
    and one during which TTD is reached before a transaction cannot be
    signed. *)
Definition bodyReachingTTD : Scripted unit :=
  fun script s => Some (Ok tt, with_CLMock (set_TTDReached true) s, script).

Definition bodyIdle : Scripted unit :=
  fun script s => Some (Ok tt, s, script).

Definition bodyFailingAfterTTD : Scripted unit :=
  fun script s =>
    match sendNextTransaction cfgReject 1 5 [] script
            (with_CLMock (set_TTDReached true) s) with
    | Some (Ok _, s', rest) => Some (Ok tt, s', rest)
    | Some (Goexit, s', rest) => Some (Goexit, s', rest)
    | Some (Panic, s', rest) => Some (Panic, s', rest)
    | None => None
    end.

Definition sampleRun (fn : Scripted unit) (script : list Reply)
  : option (Result unit * State * list Reply) :=
  RunTest cfgAccept "engine" 1000 8 16 (60 * Second)%N fn
          UnspecifiedTransactionType script stateUnspecified.
(** Answers of a node to the check of proof-of-work progress: a block with
    a number, a header with a difficulty, and a request that fails. *)
Definition blockNumbered (n : Z) : Answer := {| reply := ready; carried := n |}.

Definition headerWith (difficulty : Z) : Answer :=
  {| reply := ready; carried := difficulty |}.

Definition noAnswer : Answer := {| reply := busy; carried := 0 |}.


(** A launcher that hands out the client 5 without further ado. *)
Definition launchFive (clientType : string) (params : list (string * string))
  : M Client :=
  ret 5.

Definition stateArmed : State := armed (10 * Second) stateUnspecified.
(** * Properties of the transaction builder *)

Section BuilderFacts.

Context (cfg : Config).

(** One call of the builder, by the answer of the signer. *)
Lemma makeNextTransaction_run recipient gasLimit amount payload s :
  makeNextTransaction cfg recipient gasLimit amount payload s =
  let d := nextTxData cfg (env s) recipient gasLimit amount payload in
  match signValues cfg d (chainID cfg) vaultKey with
  | inl sg =>
      let tx := signedWith cfg d sg in
      (Ok tx,
       with_env (set_nonce (u64 (nonce (env s) + 1)))
         (with_T (fun t =>
            {| failed := failed t;
               logs := logs t ++ [InfoBuiltTx (TestName (env s)) (Hash cfg tx)
                                    (nonce (env s)) recipient (txTypeName d)] |}) s))
  | inr err =>
      (Goexit,
       with_T (fun t =>
         {| failed := true;
            logs := logs t ++ [FailSign (TestName (env s)) err] |}) s)
  end.
Proof.
  unfold makeNextTransaction, nextTxData, resolvesLegacy, bind, get, SignTx.
  destruct (testTransactionType (env s)).
  - rewrite Zmod_even.
    destruct (Z.even (nonce (env s))); cbn -[vaultKey u64];
      destruct (signValues cfg _ (chainID cfg) vaultKey); reflexivity.
  - cbn -[vaultKey u64];
      destruct (signValues cfg _ (chainID cfg) vaultKey); reflexivity.
  - cbn -[vaultKey u64];
      destruct (signValues cfg _ (chainID cfg) vaultKey); reflexivity.
Qed.

Lemma even_u64 z : Z.even (u64 z) = Z.even z.
Proof.
  unfold u64.
  rewrite (Z.div_mod z (2 ^ 64)) at 2 by lia.
  rewrite Z.even_add, Z.even_mul.
  change (Z.even (2 ^ 64)) with true. cbn [orb].
  destruct (Z.even (z mod 2 ^ 64)); reflexivity.
Qed.

Lemma u64_small z : 0 <= z < 2 ^ 64 -> u64 z = z.
Proof. intros H. unfold u64. apply Z.mod_small. exact H. Qed.

Lemma nextTxData_nonce t r g a p :
  txNonce (NewTx (nextTxData cfg t r g a p)) = nonce t.
Proof. unfold nextTxData, txNonce. destruct (resolvesLegacy t); reflexivity. Qed.

(** The builder never panics, and it returns a transaction exactly when the
    signer accepts the data. *)
Lemma makeNextTransaction_cases r g a p s :
  let out := makeNextTransaction cfg r g a p s in
  let d := nextTxData cfg (env s) r g a p in
  (exists sg, signValues cfg d (chainID cfg) vaultKey = inl sg /\
              fst out = Ok (signedWith cfg d sg) /\
              env (snd out) = set_nonce (u64 (nonce (env s) + 1)) (env s) /\
              failed (T (snd out)) = failed (T s))
  \/ (exists err, signValues cfg d (chainID cfg) vaultKey = inr err /\
                  fst out = Goexit /\ env (snd out) = env s /\
                  failed (T (snd out)) = true).
Proof.
  intros out d. subst out. rewrite makeNextTransaction_run. fold d.
  cbv zeta.
  destruct (signValues cfg d (chainID cfg) vaultKey) as [sg | err].
  - left. exists sg. repeat split.
  - right. exists err. repeat split.
Qed.

(** C1 (as amended).  When the signer accepts the transaction, the call
    returns a transaction carrying the nonce stored before the call and
    leaves the stored nonce one higher, in [uint64] arithmetic: exactly one
    more below the top of the range.  When the signer rejects it, the call
    ends the test before the increment: the stored nonce is unchanged and
    the test is marked failed. *)
Theorem makeNextTransaction_nonce r g a p s :
  let n := nonce (env s) in
  let out := makeNextTransaction cfg r g a p s in
  let d := nextTxData cfg (env s) r g a p in
  (forall sg, signValues cfg d (chainID cfg) vaultKey = inl sg ->
     exists tx, fst out = Ok tx /\ txNonce tx = n /\
                nonce (env (snd out)) = (n + 1) mod 2 ^ 64 /\
                (0 <= n < 2 ^ 64 - 1 -> nonce (env (snd out)) = n + 1))
  /\ (forall err, signValues cfg d (chainID cfg) vaultKey = inr err ->
        fst out = Goexit /\ nonce (env (snd out)) = n /\ Failed (snd out) = true).
Proof.
  intros n out d.
  destruct (makeNextTransaction_cases r g a p s)
    as [(sg & Hs & Ho & He & _) | (err & Hs & Ho & He & Hf)];
    fold out d in Hs, Ho, He |- *.
  - split.
    + intros sg' Hs'. exists (signedWith cfg d sg).
      split; [exact Ho|]. split.
      * exact (nextTxData_nonce (env s) r g a p).
      * rewrite He. cbn [nonce set_nonce]. fold n. split; [reflexivity|].
        intros Hn. apply u64_small. lia.
    + intros err Hs'. rewrite Hs in Hs'. discriminate.
  - split.
    + intros sg Hs'. rewrite Hs in Hs'. discriminate.
    + intros err' _. split; [exact Ho|]. split.
      * rewrite He. reflexivity.
      * exact Hf.
Qed.

(** The type of a built transaction is the one the policy resolves to. *)
Lemma makeNextTransaction_type r g a p s tx :
  fst (makeNextTransaction cfg r g a p s) = Ok tx ->
  txType tx = if resolvesLegacy (env s) then LegacyTxType else DynamicFeeTxType.
Proof.
  intros H.
  destruct (makeNextTransaction_cases r g a p s)
    as [(sg & _ & Ho & _) | (err & _ & Ho & _)];
    rewrite Ho in H; [|discriminate].
  injection H as <-. unfold signedWith, nextTxData, txType. cbn [inner].
  destruct (resolvesLegacy (env s)); reflexivity.
Qed.

Lemma makeNextTransaction_policy r g a p s :
  testTransactionType (env (snd (makeNextTransaction cfg r g a p s)))
  = testTransactionType (env s).
Proof.
  destruct (makeNextTransaction_cases r g a p s)
    as [(sg & _ & _ & He & _) | (err & _ & _ & He & _)];
    rewrite He; reflexivity.
Qed.

Lemma makeNextTransaction_next_parity r g a p s tx :
  fst (makeNextTransaction cfg r g a p s) = Ok tx ->
  Z.even (nonce (env (snd (makeNextTransaction cfg r g a p s))))
  = negb (Z.even (nonce (env s))).
Proof.
  intros H.
  destruct (makeNextTransaction_cases r g a p s)
    as [(sg & _ & _ & He & _) | (err & _ & Ho & _)].
  - rewrite He. cbn [nonce set_nonce]. rewrite even_u64.
    rewrite Z.even_add. destruct (Z.even (nonce (env s))); reflexivity.
  - rewrite Ho in H. discriminate.
Qed.

(** The types of consecutive builds under the Unspecified policy, from any
    starting nonce. *)
Lemma makeTransactions_types calls :
  forall s txs,
    testTransactionType (env s) = UnspecifiedTransactionType ->
    fst (makeTransactions cfg calls s) = Ok txs ->
    List.length txs = List.length calls /\
    forall i tx, nth_error txs i = Some tx ->
      txType tx = if Bool.eqb (Z.even (nonce (env s))) (Nat.even i)
                  then LegacyTxType else DynamicFeeTxType.
Proof.
  induction calls as [| [[[r g] a] p] rest IH]; intros s txs Hpol Hrun.
  - cbn in Hrun. injection Hrun as <-. split; [reflexivity|].
    intros [|i] tx H; discriminate.
  - cbn [makeTransactions] in Hrun. unfold bind at 1 in Hrun.
    pose proof (makeNextTransaction_type r g a p s) as Hty.
    pose proof (makeNextTransaction_next_parity r g a p s) as Hpar.
    pose proof (makeNextTransaction_policy r g a p s) as Hpol'.
    destruct (makeNextTransaction cfg r g a p s) as [[tx0| |] s1];
      cbn [fst snd] in *; try discriminate.
    unfold bind at 1 in Hrun.
    specialize (IH s1).
    destruct (makeTransactions cfg rest s1) as [[txs1| |] s2];
      cbn [fst snd] in *; try discriminate.
    unfold ret in Hrun. cbn [fst] in Hrun. injection Hrun as <-.
    rewrite Hpol in Hpol'.
    destruct (IH txs1 Hpol' eq_refl) as [Hlen Hnth].
    split; [cbn [List.length]; congruence|].
    intros [|i] tx Hi.
    + cbn in Hi. injection Hi as <-. rewrite (Hty tx0 eq_refl).
      unfold resolvesLegacy. rewrite Hpol. cbn [Nat.even].
      destruct (Z.even (nonce (env s))); reflexivity.
    + cbn [nth_error] in Hi. rewrite (Hnth i tx Hi).
      rewrite (Hpar tx0 eq_refl). rewrite Nat.even_succ, <- Nat.negb_even.
      destruct (Z.even (nonce (env s))), (Nat.even i); reflexivity.
Qed.

(** C2.  Under the Unspecified policy a transaction built at an even nonce
    is a legacy transaction and one built at an odd nonce is a dynamic-fee
    transaction; the transactions built one after the other from nonce 0
    therefore alternate, the first one being legacy. *)
Theorem unspecified_alternates :
  (forall r g a p s tx,
     testTransactionType (env s) = UnspecifiedTransactionType ->
     fst (makeNextTransaction cfg r g a p s) = Ok tx ->
     txType tx = if Z.even (nonce (env s)) then LegacyTxType else DynamicFeeTxType)
  /\ (forall calls s txs,
        testTransactionType (env s) = UnspecifiedTransactionType ->
        nonce (env s) = 0 ->
        fst (makeTransactions cfg calls s) = Ok txs ->
        List.length txs = List.length calls /\
        forall i tx, nth_error txs i = Some tx ->
          txType tx = if Nat.even i then LegacyTxType else DynamicFeeTxType).
Proof.
  split.
  - intros r g a p s tx Hpol H.
    rewrite (makeNextTransaction_type r g a p s tx H).
    unfold resolvesLegacy. rewrite Hpol. reflexivity.
  - intros calls s txs Hpol Hn H.
    destruct (makeTransactions_types calls s txs Hpol H) as [Hlen Hnth].
    split; [exact Hlen|].
    intros i tx Hi. rewrite (Hnth i tx Hi). rewrite Hn.
    cbn [Z.even]. destruct (Nat.even i); reflexivity.
Qed.

(** C3 (as amended).  For a gas limit above 21000 + 32000 the estimated cost
    of the computed body length stays below the gas limit; at or below it
    the length is 0; and a gas limit of 21000 + 32000 + 200 * k gives the
    length k - 1 when k >= 1 and 0 otherwise. *)
Theorem contractLength_fits gasLimit :
  0 <= gasLimit < 2 ^ 64 ->
  (21000 + 32000 < gasLimit ->
     21000 + 32000 + 200 * contractLengthFor gasLimit < gasLimit)
  /\ (gasLimit <= 21000 + 32000 -> contractLengthFor gasLimit = 0)
  /\ (forall k, gasLimit = 21000 + 32000 + 200 * k ->
        contractLengthFor gasLimit = if 1 <=? k then k - 1 else 0).
Proof.
  intros Hr.
  assert (Hbig : 21000 + 32000 < gasLimit ->
            contractLengthFor gasLimit =
            (if (gasLimit - 53000) / 200 >=? 1
             then (gasLimit - 53000) / 200 - 1 else (gasLimit - 53000) / 200)).
  { intros Hg. unfold contractLengthFor.
    destruct (Z.gtb_spec gasLimit (21000 + 32000)) as [_|]; [|lia].
    rewrite (u64_small (gasLimit - 21000)) by lia.
    replace (gasLimit - 21000 - 32000) with (gasLimit - 53000) by lia.
    rewrite (u64_small (gasLimit - 53000)) by lia.
    destruct (Z.geb_spec ((gasLimit - 53000) / 200) 1) as [Hq|Hq]; [|reflexivity].
    apply u64_small.
    assert ((gasLimit - 53000) / 200 <= gasLimit - 53000)
      by (apply Z.div_le_upper_bound; lia).
    lia. }
  assert (Hsmall : gasLimit <= 21000 + 32000 -> contractLengthFor gasLimit = 0).
  { intros Hg. unfold contractLengthFor.
    destruct (Z.gtb_spec gasLimit (21000 + 32000)); [lia|reflexivity]. }
  split; [|split].
  - intros Hg. rewrite (Hbig Hg).
    pose proof (Z.div_mod (gasLimit - 53000) 200 ltac:(lia)) as Hdm.
    pose proof (Z.mod_pos_bound (gasLimit - 53000) 200 ltac:(lia)) as Hm.
    destruct (Z.geb_spec ((gasLimit - 53000) / 200) 1); lia.
  - exact Hsmall.
  - intros k Hk.
    destruct (Z.leb_spec 1 k) as [Hk1|Hk1].
    + rewrite Hbig by lia.
      replace (gasLimit - 53000) with (k * 200) by lia.
      rewrite Z.div_mul by lia.
      destruct (Z.geb_spec k 1); [reflexivity|lia].
    + apply Hsmall. lia.
Qed.

(** The big contract creation is one call of the builder: no recipient, the
    given gas limit, value zero, and an init code that pushes the computed
    length as an 8-byte big-endian immediate. *)
Lemma makeNextBigContractTransaction_tx gasLimit s tx :
  fst (makeNextBigContractTransaction cfg gasLimit s) = Ok tx ->
  txTo tx = None /\ txGas tx = gasLimit /\ txValue tx = 0 /\
  txPayload tx = x67 :: PutUint64 (contractLengthFor gasLimit) ++ [x38; xf3].
Proof.
  unfold makeNextBigContractTransaction. intros H.
  destruct (makeNextTransaction_cases None gasLimit big0 (bigContractInitCode gasLimit) s)
    as [(sg & _ & Ho & _) | (err & _ & Ho & _)];
    rewrite Ho in H; [|discriminate].
  injection H as <-.
  unfold signedWith, nextTxData, txTo, txGas, txValue, txPayload. cbn [inner].
  destruct (resolvesLegacy (env s)); cbn; repeat split; reflexivity.
Qed.

(** C7.  At nonce 4, under the Unspecified or the LegacyTxOnly policy, the
    builder does not panic, and the transaction it returns for recipient R
    and value V is a legacy transaction with nonce 4, the configured gas
    price, recipient R and value V, carrying the signature the signer
    computed for it under the configured chain identifier and the vault
    key.  It returns one whenever the signer accepts. *)
Theorem legacy_at_nonce_4 R V gasLimit payload s :
  nonce (env s) = 4 ->
  testTransactionType (env s) = UnspecifiedTransactionType \/
  testTransactionType (env s) = LegacyTxOnly ->
  let out := makeNextTransaction cfg (Some R) gasLimit V payload s in
  let d := LegacyTxData {| ltNonce := 4; ltTo := Some R; ltValue := V;
                           ltGas := gasLimit; ltGasPrice := gasPrice cfg;
                           ltData := payload |} in
  fst out <> Panic /\
  (forall sg, signValues cfg d (chainID cfg) vaultKey = inl sg ->
     exists tx, fst out = Ok tx) /\
  (forall tx, fst out = Ok tx ->
     txType tx = LegacyTxType /\ txNonce tx = 4 /\
     txGasPrice tx = gasPrice cfg /\ txTo tx = Some R /\ txValue tx = V /\
     exists sg, signValues cfg d (chainID cfg) vaultKey = inl sg /\
       signed tx = Some {| sbChainID := chainID cfg; sbKey := vaultKey;
                           sbSig := sg |}).
Proof.
  intros Hn Hpol out d.
  assert (Hd : nextTxData cfg (env s) (Some R) gasLimit V payload = d).
  { unfold nextTxData, resolvesLegacy. rewrite Hn.
    destruct Hpol as [-> | ->]; reflexivity. }
  destruct (makeNextTransaction_cases (Some R) gasLimit V payload s)
    as [(sg & Hs & Ho & _) | (err & Hs & Ho & _)];
    fold out in Ho; rewrite Hd in Hs; try rewrite Hd in Ho.
  - split; [rewrite Ho; discriminate|]. split.
    + intros _ _. eexists. exact Ho.
    + intros tx Htx. rewrite Ho in Htx. injection Htx as <-.
      repeat split. exists sg. split; [exact Hs|reflexivity].
  - split; [rewrite Ho; discriminate|]. split.
    + intros sg Hs'. rewrite Hs in Hs'. discriminate.
    + intros tx Htx. rewrite Ho in Htx. discriminate.
Qed.

(** C10.  A built dynamic-fee transaction has the configured gas price as
    its fee cap and the configured tip price as its tip cap; the fee cap is
    the very value a built legacy transaction has as its gas price. *)
Theorem dynamic_fee_caps r g a p s tx :
  fst (makeNextTransaction cfg r g a p s) = Ok tx ->
  (txType tx = DynamicFeeTxType ->
     exists d, inner tx = DynamicFeeTxData d /\
               dfGasFeeCap d = gasPrice cfg /\ dfGasTipCap d = gasTipPrice cfg)
  /\ (txType tx = LegacyTxType ->
        exists l, inner tx = LegacyTxData l /\ ltGasPrice l = gasPrice cfg).
Proof.
  intros H.
  destruct (makeNextTransaction_cases r g a p s)
    as [(sg & _ & Ho & _) | (err & _ & Ho & _)];
    rewrite Ho in H; [|discriminate].
  injection H as <-. unfold signedWith, nextTxData, txType. cbn [inner].
  destruct (resolvesLegacy (env s)); split; intros Hty; try discriminate;
    eexists; repeat split.
Qed.

End BuilderFacts.

(** ** The builder on concrete inputs *)

Example build_at_0 :
  option_map txType
    (match fst (makeNextTransaction cfgAccept (Some 1) 21000 5 [] stateUnspecified) with
     | Ok tx => Some tx
     | _ => None
     end) = Some LegacyTxType.
Proof. reflexivity. Qed.

(** C1, as stated, fails when the signer rejects the transaction: the call
    ends the test and the stored nonce is what it was. *)
Lemma nonce_kept_when_signing_fails :
  let s := atNonce 7 stateUnspecified in
  let out := makeNextTransaction cfgReject (Some 1) 21000 5 [] s in
  fst out = Goexit /\
  nonce (env s) = 7 /\
  nonce (env (snd out)) = 7 /\
  nonce (env (snd out)) <> nonce (env s) + 1.
Proof.
  cbv zeta. repeat split; try reflexivity.
  intros H. vm_compute in H. discriminate H.
Qed.

Lemma makeNextTransaction_nonce_witness :
  (exists tx,
     fst (makeNextTransaction cfgAccept (Some 1) 21000 5 [] (atNonce 7 stateUnspecified))
       = Ok tx /\
     txNonce tx = 7 /\
     nonce (env (snd (makeNextTransaction cfgAccept (Some 1) 21000 5 []
                        (atNonce 7 stateUnspecified)))) = 8)
  /\ (fst (makeNextTransaction cfgReject (Some 1) 21000 5 [] (atNonce 7 stateUnspecified))
        = Goexit /\
      nonce (env (snd (makeNextTransaction cfgReject (Some 1) 21000 5 []
                         (atNonce 7 stateUnspecified)))) = 7).
Proof.
  split.
  - destruct (makeNextTransaction_nonce cfgAccept (Some 1) 21000 5 []
                (atNonce 7 stateUnspecified)) as [H _].
    destruct (H {| sigV := 27; sigR := vaultKey; sigS := 7 |} eq_refl)
      as (tx & H1 & H2 & _ & H4).
    exists tx. split; [exact H1|]. split; [exact H2|].
    apply H4. cbn. lia.
  - destruct (makeNextTransaction_nonce cfgReject (Some 1) 21000 5 []
                (atNonce 7 stateUnspecified)) as [_ H].
    destruct (H "invalid private key"%string eq_refl) as (H1 & H2 & _).
    split; [exact H1 | exact H2].
Defined.

Example four_builds :
  match fst (makeTransactions cfgAccept fourCalls stateUnspecified) with
  | Ok txs => map txType txs = [LegacyTxType; DynamicFeeTxType; LegacyTxType; DynamicFeeTxType]
              /\ map txNonce txs = [0; 1; 2; 3]
  | _ => False
  end.
Proof. vm_compute. split; reflexivity. Qed.

Lemma unspecified_alternates_witness :
  (exists tx,
     fst (makeNextTransaction cfgAccept None 60000 0 [] (atNonce 5 stateUnspecified)) = Ok tx
     /\ txType tx = DynamicFeeTxType)
  /\ (exists txs,
        fst (makeTransactions cfgAccept fourCalls stateUnspecified) = Ok txs /\
        List.length txs = 4%nat /\
        forall i tx, nth_error txs i = Some tx ->
          txType tx = if Nat.even i then LegacyTxType else DynamicFeeTxType).
Proof.
  destruct (unspecified_alternates cfgAccept) as [H1 H2].
  split.
  - eexists. split; [vm_compute; reflexivity|].
    exact (H1 None 60000 0 [] (atNonce 5 stateUnspecified) _ eq_refl eq_refl).
  - eexists. split; [vm_compute; reflexivity|].
    exact (H2 fourCalls stateUnspecified _ eq_refl eq_refl eq_refl).
Defined.

(** C3, as stated, fails at a gas limit that leaves no room for any body:
    the length is 0 and the estimated cost is not below the gas limit. *)
Lemma contractLength_not_below_small_gasLimit :
  0 <= 53000 < 2 ^ 64 /\
  contractLengthFor 53000 = 0 /\
  ~ (21000 + 32000 + 200 * contractLengthFor 53000 < 53000).
Proof.
  split; [lia|]. split; [reflexivity|].
  change (contractLengthFor 53000) with 0. lia.
Qed.

Example contractLength_samples :
  map contractLengthFor [0; 53000; 53001; 53199; 53200; 53399; 53400; 54017; 2 ^ 64 - 1]
  = [0; 0; 0; 0; 0; 0; 1; 4; 92233720368547492].
Proof. vm_compute. reflexivity. Qed.

Lemma contractLength_fits_witness :
  21000 + 32000 + 200 * contractLengthFor 54017 < 54017 /\
  contractLengthFor 1000 = 0 /\
  contractLengthFor 54000 = 4.
Proof.
  split; [|split].
  - destruct (contractLength_fits 54017) as (H & _ & _); [lia|]. apply H. lia.
  - destruct (contractLength_fits 1000) as (_ & H & _); [lia|]. apply H. lia.
  - destruct (contractLength_fits 54000) as (_ & _ & H); [lia|].
    exact (H 5 eq_refl).
Defined.

Lemma legacy_at_nonce_4_witness :
  exists tx,
    fst (makeNextTransaction cfgAccept (Some 9) 21000 5 [] (atNonce 4 stateUnspecified))
      = Ok tx /\
    txType tx = LegacyTxType /\ txNonce tx = 4 /\
    txGasPrice tx = 30000000000 /\ txTo tx = Some 9 /\ txValue tx = 5.
Proof.
  destruct (legacy_at_nonce_4 cfgAccept 9 5 21000 [] (atNonce 4 stateUnspecified)
              eq_refl (or_introl eq_refl)) as (_ & H1 & H2).
  destruct (H1 {| sigV := 27; sigR := vaultKey; sigS := 7 |} eq_refl) as [tx Htx].
  exists tx. split; [exact Htx|].
  destruct (H2 tx Htx) as (A & B & C & D & E & _).
  repeat split; assumption.
Defined.

Lemma dynamic_fee_caps_witness :
  (exists tx d,
     fst (makeNextTransaction cfgAccept (Some 9) 21000 5 [] (atNonce 1 stateUnspecified))
       = Ok tx /\
     inner tx = DynamicFeeTxData d /\
     dfGasFeeCap d = 30000000000 /\ dfGasTipCap d = 1000000000)
  /\ (exists tx l,
        fst (makeNextTransaction cfgAccept (Some 9) 21000 5 [] (atNonce 2 stateUnspecified))
          = Ok tx /\
        inner tx = LegacyTxData l /\ ltGasPrice l = 30000000000).
Proof.
  split.
  - eexists.
    destruct (dynamic_fee_caps cfgAccept (Some 9) 21000 5 [] (atNonce 1 stateUnspecified)
                _ eq_refl) as [H _].
    destruct (H eq_refl) as (d & Hd & Hf & Ht).
    exists d. split; [reflexivity|]. split; [exact Hd|]. split; assumption.
  - eexists.
    destruct (dynamic_fee_caps cfgAccept (Some 9) 21000 5 [] (atNonce 2 stateUnspecified)
                _ eq_refl) as [_ H].
    destruct (H eq_refl) as (l & Hl & Hp).
    exists l. split; [reflexivity|]. split; assumption.
Defined.

(** * Properties of the retrying submitter *)

Section SubmitterFacts.

Context (cfg : Config).

Lemma waitOutcome_ok e timeout tieBit :
  waitOK timeout (EvWait e (snd (waitOutcome e timeout tieBit))
                         (fst (waitOutcome e timeout tieBit))).
Proof.
  unfold waitOutcome, select2, waitOK, waitEnd, Second.
  destruct timeout as [D|]; cbn [fst snd].
  - destruct (N.ltb_spec (N.max e (e + 1000000000)) (N.max e D)) as [H|H];
      cbn [fst snd].
    + split; [lia|]. split; [discriminate|]. intros _. split; [lia|].
      intros D' [= <-]. lia.
    + destruct (N.ltb_spec (N.max e D) (N.max e (e + 1000000000))) as [H'|H'];
        cbn [fst snd].
      * split; [lia|]. split; [|discriminate]. intros _. exists D. split; [reflexivity|lia].
      * split; [lia|]. split.
        -- intros _. exists D. split; [reflexivity|lia].
        -- intros _. split; [lia|]. intros D' [= <-]. lia.
  - split; [lia|]. split; [discriminate|]. intros _. split; [lia|]. discriminate.
Qed.

Lemma waitOutcome_quiet e timeout tieBit :
  quietUntil timeout (e + Second) ->
  waitOutcome e timeout tieBit = (false, (e + Second)%N).
Proof.
  unfold quietUntil, waitOutcome, select2, Second. intros H.
  destruct timeout as [D|].
  - specialize (H D eq_refl).
    destruct (N.ltb_spec (N.max e (e + 1000000000)) (N.max e D)); [|lia].
    f_equal. lia.
  - f_equal. lia.
Qed.

(** One turn of the loop. *)
Lemma sendLoop_cons tx r script s :
  sendLoop tx (r :: script) s =
  let s1 := afterSend tx r s in
  match failure r with
  | None => Some (Ok tx, s1, script)
  | Some err =>
      let w := waitOutcome (now (rt s1)) (Timeout (env s1)) (tie r) in
      let s2 := afterWait (now (rt s1)) (snd w) (fst w) s1 in
      if fst w
      then Some (Goexit,
                 with_T (fun t =>
                   {| failed := true;
                      logs := logs t ++ [FailSendTimeout (TestName (env s)) err] |}) s2,
                 script)
      else sendLoop tx script s2
  end.
Proof.
  cbn [sendLoop]. fold (afterSend tx r s). cbv zeta.
  destruct (failure r) as [err|]; [|reflexivity].
  unfold waitOutcome.
  destruct (select2 (now (rt (afterSend tx r s)))
              (Some (now (rt (afterSend tx r s)) + Second)%N)
              (Timeout (env (afterSend tx r s)))) as [b t|t|] eqn:Hsel.
  - cbn [fst snd]. destruct b; reflexivity.
  - cbn [fst snd]. destruct (tie r); reflexivity.
  - unfold select2 in Hsel.
    destruct (Timeout (env (afterSend tx r s))); [|discriminate].
    destruct (_ <? _)%N; [discriminate|].
    destruct (_ <? _)%N; discriminate.
Qed.

Lemma failing_failure r : failing r <-> exists err, failure r = Some err.
Proof.
  unfold failing, accepted. destruct (failure r) as [e|]; split.
  - intros _. exists e. reflexivity.
  - reflexivity.
  - discriminate.
  - intros [e He]. discriminate.
Qed.

Lemma accepted_failure r : accepted r = true <-> failure r = None.
Proof.
  unfold accepted. destruct (failure r); split; intros H; congruence.
Qed.

(** What a run of the loop can be. *)
Lemma sendLoop_spec tx script :
  forall s,
    match sendLoop tx script s with
    | None => Forall failing script
    | Some (res, s', rest) =>
        exists pre r new,
          script = pre ++ r :: rest /\ Forall failing pre /\
          env s' = env s /\
          events (rt s') = new ++ events (rt s) /\
          Forall (waitOK (Timeout (env s))) new /\
          match res with
          | Ok tx' =>
              tx' = tx /\ accepted r = true /\ T s' = T s /\
              sends new = S (List.length pre)
          | Goexit =>
              exists err D,
                failure r = Some err /\ Timeout (env s) = Some D /\
                (D <= now (rt s'))%N /\ failed (T s') = true /\
                logs (T s') = logs (T s) ++ [FailSendTimeout (TestName (env s)) err] /\
                sends new = S (List.length pre)
          | Panic => False
          end
    end.
Proof.
  induction script as [|r script IH]; intros s.
  - cbn. constructor.
  - rewrite sendLoop_cons. cbv zeta.
    destruct (failure r) as [err|] eqn:Hf.
    + pose proof (waitOutcome_ok (now (rt (afterSend tx r s)))
                    (Timeout (env (afterSend tx r s))) (tie r)) as Hw.
      destruct (waitOutcome (now (rt (afterSend tx r s)))
                  (Timeout (env (afterSend tx r s))) (tie r)) as [b t].
      cbn [fst snd] in *. destruct b.
      * exists [], r, [EvWait (now (rt (afterSend tx r s))) t true;
                       EvSend tx (now (rt s)) (accepted r)].
        split; [reflexivity|]. split; [constructor|]. split; [reflexivity|].
        split; [reflexivity|]. split.
        { constructor; [exact Hw|]. constructor; [exact I|constructor]. }
        destruct Hw as (_ & Hto & _). destruct (Hto eq_refl) as (D & HD & HDt).
        exists err, D. repeat split; try assumption. 
      * specialize (IH (afterWait (now (rt (afterSend tx r s))) t false (afterSend tx r s))).
        destruct (sendLoop tx script _) as [[[res s'] rest]|].
        -- destruct IH as (pre & r' & new & Hs & Hpre & He & Hev & Hws & Hres).
           exists (r :: pre), r',
             (new ++ [EvWait (now (rt (afterSend tx r s))) t false;
                      EvSend tx (now (rt s)) (accepted r)]).
           split; [rewrite Hs; reflexivity|].
           split; [constructor; [apply failing_failure; eauto|exact Hpre]|].
           split; [exact He|].
           split; [rewrite Hev, <- app_assoc; reflexivity|].
           split.
           { apply Forall_app. split; [exact Hws|].
             constructor; [exact Hw|]. constructor; [exact I|constructor]. }
           assert (Hsends : forall k, sends new = k ->
                     sends (new ++ [EvWait (now (rt (afterSend tx r s))) t false;
                                    EvSend tx (now (rt s)) (accepted r)]) = S k).
           { intros k <-. clear. induction new as [|e new IHn]; [reflexivity|].
             destruct e; cbn [sends app] in *; rewrite ?IHn; reflexivity. }
           destruct res as [tx'| |].
           ++ destruct Hres as (-> & Hacc & HT & Hn).
              repeat split; try assumption. cbn [List.length]. apply Hsends, Hn.
           ++ destruct Hres as (err' & D & H1 & H2 & H3 & H4 & H5 & H6).
              exists err', D. repeat split; try assumption.
              cbn [List.length]. apply Hsends, H6.
           ++ exact Hres.
        -- constructor; [apply failing_failure; eauto|exact IH].
    + exists [], r, [EvSend tx (now (rt s)) (accepted r)].
      split; [reflexivity|]. split; [constructor|]. split; [reflexivity|].
      split; [reflexivity|]. split; [constructor; [exact I|constructor]|].
      repeat split. apply accepted_failure. exact Hf.
Qed.

(** The first accepted attempt ends the loop, as long as the global timeout
    stays quiet through the waits before it. *)
Lemma sendLoop_first_accepted tx pre :
  forall r rest s,
    Forall failing pre -> accepted r = true ->
    quietUntil (Timeout (env s)) (now (rt s) + elapsed pre) ->
    exists s', sendLoop tx (pre ++ r :: rest) s = Some (Ok tx, s', rest) /\
               now (rt s') = (now (rt s) + elapsed pre + took r)%N.
Proof.
  induction pre as [|p pre IH]; intros r rest s Hpre Hr Hq.
  - cbn [app]. rewrite sendLoop_cons. cbv zeta.
    apply accepted_failure in Hr. rewrite Hr.
    eexists. split; [reflexivity|]. cbn. lia.
  - cbn [app]. rewrite sendLoop_cons. cbv zeta.
    inversion Hpre as [|? ? Hp Hpre']; subst.
    apply failing_failure in Hp. destruct Hp as [err Hp]. rewrite Hp.
    rewrite waitOutcome_quiet.
    2:{ intros D HD. specialize (Hq D HD). cbn [elapsed] in Hq.
        cbn -[Second] in *. lia. }
    cbn [fst snd].
    destruct (IH r rest
                (afterWait (now (rt (afterSend tx p s)))
                   (now (rt (afterSend tx p s)) + Second) false (afterSend tx p s))
                Hpre' Hr) as (s' & Hrun & Hnow).
    { intros D HD. specialize (Hq D HD). cbn [elapsed] in Hq.
      cbn -[Second] in *. lia. }
    exists s'. split; [exact Hrun|]. rewrite Hnow. cbn -[Second]. cbn [elapsed]. lia.
Qed.

(** When every reply fails and the script lasts beyond the global timeout,
    the loop ends the test. *)
Lemma sendLoop_times_out tx script :
  forall r s D,
    Forall failing (r :: script) -> Timeout (env s) = Some D ->
    (D < now (rt s) + elapsed (r :: script))%N ->
    exists s' rest, sendLoop tx (r :: script) s = Some (Goexit, s', rest).
Proof.
  induction script as [|r' script IH]; intros r s D Hall HD Hlate;
    rewrite sendLoop_cons; cbv zeta;
    inversion Hall as [|? ? Hr Hall']; subst;
    apply failing_failure in Hr; destruct Hr as [err Hr]; rewrite Hr;
    pose proof (waitOutcome_ok (now (rt (afterSend tx r s)))
                  (Timeout (env (afterSend tx r s))) (tie r)) as Hw;
    destruct (waitOutcome (now (rt (afterSend tx r s)))
                (Timeout (env (afterSend tx r s))) (tie r)) as [b t];
    cbn [fst snd] in *; destruct b; try (do 2 eexists; reflexivity);
    destruct Hw as (_ & _ & Hback); destruct (Hback eq_refl) as [-> Hle];
    specialize (Hle D HD).
  - exfalso. cbn -[Second] in *. lia.
  - apply (IH r' _ D Hall'); [exact HD|].
    cbn -[Second] in *. lia.
Qed.

Lemma sendLoop_carries tx script :
  forall s res s' rest,
    sendLoop tx script s = Some (res, s', rest) ->
    exists new, events (rt s') = new ++ events (rt s) /\ Forall (carries tx) new.
Proof.
  induction script as [|r script IH]; intros s res s' rest H.
  - discriminate H.
  - rewrite sendLoop_cons in H. cbv zeta in H.
    destruct (failure r) as [err|].
    + destruct (fst (waitOutcome _ _ _)).
      * injection H as <- <- <-.
        eexists [_; _]. split; [reflexivity|].
        repeat constructor.
      * apply IH in H. destruct H as (new & Hev & Hc).
        eexists (new ++ [_; _]). split.
        -- rewrite Hev, <- app_assoc. reflexivity.
        -- apply Forall_app. split; [exact Hc|]. repeat constructor.
    + injection H as <- <- <-.
      eexists [_]. split; [reflexivity|]. repeat constructor.
Qed.

Lemma waits_app evs evs' : waits (evs ++ evs') = (waits evs + waits evs')%nat.
Proof.
  induction evs as [|e evs IH]; [reflexivity|].
  destruct e; cbn [waits app]; rewrite ?IH; reflexivity.
Qed.

(** The instants of a run of the loop: every failed attempt but the last is
    followed by the full backoff, and nothing follows the attempt that is
    accepted. *)
Lemma sendLoop_instants tx script :
  forall s res s' rest,
    sendLoop tx script s = Some (res, s', rest) ->
    exists pre r new,
      script = pre ++ r :: rest /\
      events (rt s') = new ++ events (rt s) /\
      match res with
      | Ok _ =>
          now (rt s') = (now (rt s) + elapsed pre + took r)%N /\
          hd_error new = Some (EvSend tx (now (rt s) + elapsed pre) true) /\
          waits new = List.length pre
      | Goexit =>
          hd_error new =
            Some (EvWait (now (rt s) + elapsed pre + took r) (now (rt s')) true) /\
          waits new = S (List.length pre)
      | Panic => True
      end.
Proof.
  induction script as [|r script IH]; intros s res s' rest H.
  - discriminate H.
  - rewrite sendLoop_cons in H. cbv zeta in H.
    destruct (failure r) as [err|] eqn:Hf.
    + pose proof (waitOutcome_ok (now (rt (afterSend tx r s)))
                    (Timeout (env (afterSend tx r s))) (tie r)) as Hw.
      destruct (waitOutcome (now (rt (afterSend tx r s)))
                  (Timeout (env (afterSend tx r s))) (tie r)) as [b t].
      cbn [fst snd] in *. destruct b.
      * injection H as <- <- <-.
        exists [], r, [EvWait (now (rt (afterSend tx r s))) t true;
                       EvSend tx (now (rt s)) (accepted r)].
        split; [reflexivity|]. split; [reflexivity|].
        split; [|reflexivity].
        cbn [hd_error elapsed]. rewrite N.add_0_r. reflexivity.
      * destruct Hw as (_ & _ & Hback). destruct (Hback eq_refl) as [Ht _].
        apply IH in H. destruct H as (pre & r' & new & Hs & Hev & Hres).
        exists (r :: pre), r',
          (new ++ [EvWait (now (rt (afterSend tx r s))) t false;
                   EvSend tx (now (rt s)) (accepted r)]).
        split; [rewrite Hs; reflexivity|].
        split; [rewrite Hev, <- app_assoc; reflexivity|].
        assert (Hnow : now (rt (afterWait (now (rt (afterSend tx r s))) t false
                                  (afterSend tx r s)))
                       = (now (rt s) + took r + Second)%N).
        { rewrite Ht. reflexivity. }
        rewrite Hnow in Hres. cbn [elapsed List.length].
        rewrite waits_app. cbn [waits].
        replace (now (rt s) + (took r + Second + elapsed pre))%N
          with (now (rt s) + took r + Second + elapsed pre)%N by lia.
        destruct res as [tx'| |]; [| |exact I].
        -- destruct Hres as (Hn & Hhd & Hw). split; [exact Hn|].
           split; [|rewrite Hw; lia].
           destruct new as [|e new]; [discriminate Hhd|exact Hhd].
        -- destruct Hres as (Hhd & Hw). split; [|rewrite Hw; lia].
           destruct new as [|e new]; [discriminate Hhd|exact Hhd].
    + injection H as <- <- <-.
      exists [], r, [EvSend tx (now (rt s)) (accepted r)].
      split; [reflexivity|]. split; [reflexivity|].
      cbn [elapsed hd_error waits List.length]. rewrite N.add_0_r.
      apply accepted_failure in Hf. rewrite Hf.
      repeat split.
Qed.

(** A script is cut in one way only into the replies used, the last of
    them, and the replies left. *)
Lemma cut_unique {A} (pre pre' : list A) r r' rest :
  pre ++ r :: rest = pre' ++ r' :: rest -> pre = pre' /\ r = r'.
Proof.
  intros H.
  change (r :: rest) with ([r] ++ rest) in H.
  change (r' :: rest) with ([r'] ++ rest) in H.
  rewrite !app_assoc in H. apply app_inv_tail in H.
  apply app_inj_tail in H. exact H.
Qed.

(** C4 (as amended).  Once the transaction is built, the submitter returns
    that transaction right after the first accepted attempt, whatever the
    number of failed attempts before it, provided the global timeout stays
    quiet through the waits in between.  Whenever it returns a transaction,
    it is the built one, returned by the first accepted attempt.  Whenever
    it ends the test, every attempt made has failed, the global timeout has
    fired, and the fatal line carries the error of the last attempt; and it
    does end the test when every reply fails for longer than the global
    timeout allows.  It never panics, and it runs out of script only if
    every reply fails.
    Every wait between attempts ends at the earlier of the one-second
    backoff and the global timeout; the timeout is looked at during these
    waits only, so that a retry starts no later than the instant it
    fires.
    The return is immediate: the accepted attempt is the last thing the
    submitter does, it returns at the instant that attempt ends, which is
    the start of the call plus, for every failed attempt, its duration and
    one full second, plus the duration of the accepted attempt; there is one
    wait per failed attempt and none after the accepted one.  When it ends
    the test, the last thing it did is the wait that the timeout cut
    short. *)
Theorem sendNextTransaction_retries recipient amount payload s tx s1 :
  makeNextTransaction cfg (Some recipient) 75000 amount payload s = (Ok tx, s1) ->
  forall script,
    let run := sendNextTransaction cfg recipient amount payload script s in
    (forall pre r rest,
       script = pre ++ r :: rest -> Forall failing pre -> accepted r = true ->
       quietUntil (Timeout (env s1)) (now (rt s1) + elapsed pre) ->
       exists s', run = Some (Ok tx, s', rest) /\
                  now (rt s') = (now (rt s1) + elapsed pre + took r)%N)
    /\ (forall D,
          script <> [] -> Forall failing script -> Timeout (env s1) = Some D ->
          (D < now (rt s1) + elapsed script)%N ->
          exists s' rest, run = Some (Goexit, s', rest))
    /\ match run with
       | None => Forall failing script
       | Some (res, s', rest) =>
           exists pre r new,
             script = pre ++ r :: rest /\ Forall failing pre /\
             env s' = env s1 /\
             events (rt s') = new ++ events (rt s1) /\
             Forall (waitOK (Timeout (env s1))) new /\
             match res with
             | Ok tx' =>
                 tx' = tx /\ accepted r = true /\ T s' = T s1 /\
                 sends new = S (List.length pre) /\
                 now (rt s') = (now (rt s1) + elapsed pre + took r)%N /\
                 hd_error new = Some (EvSend tx (now (rt s1) + elapsed pre) true) /\
                 waits new = List.length pre
             | Goexit =>
                 exists err D,
                   failure r = Some err /\ Timeout (env s1) = Some D /\
                   (D <= now (rt s'))%N /\ Failed s' = true /\
                   logs (T s') =
                     logs (T s1) ++ [FailSendTimeout (TestName (env s1)) err] /\
                   sends new = S (List.length pre) /\
                   hd_error new =
                     Some (EvWait (now (rt s1) + elapsed pre + took r)
                                  (now (rt s')) true) /\
                   waits new = S (List.length pre)
             | Panic => False
             end
       end.
Proof.
  intros Hb script run. subst run. unfold sendNextTransaction. rewrite Hb.
  split.
  - intros pre r rest -> Hpre Hr Hq.
    exact (sendLoop_first_accepted tx pre r rest s1 Hpre Hr Hq).
  - split.
    + intros D Hne Hall HD Hlate. destruct script as [|r script]; [contradiction|].
      exact (sendLoop_times_out tx script r s1 D Hall HD Hlate).
    + pose proof (sendLoop_spec tx script s1) as Hspec.
      destruct (sendLoop tx script s1) as [[[res s'] rest]|] eqn:Hrun;
        [|exact Hspec].
      destruct Hspec as (pre & r & new & Hs & Hpre & He & Hev & Hws & Hres).
      destruct (sendLoop_instants tx script s1 res s' rest Hrun)
        as (pre' & r' & new' & Hs' & Hev' & Hres').
      assert (Hnew : new' = new).
      { rewrite Hev in Hev'. apply app_inv_tail in Hev'. symmetry. exact Hev'. }
      assert (Hcut : pre' = pre /\ r' = r).
      { rewrite Hs in Hs'. symmetry in Hs'. apply cut_unique in Hs'. exact Hs'. }
      destruct Hcut as [-> ->]. subst new'.
      exists pre, r, new.
      split; [exact Hs|]. split; [exact Hpre|]. split; [exact He|].
      split; [exact Hev|]. split; [exact Hws|].
      destruct res as [tx'| |].
      * destruct Hres as (R1 & R2 & R3 & R4). destruct Hres' as (I1 & I2 & I3).
        repeat split; assumption.
      * destruct Hres as (err & D & R1 & R2 & R3 & R4 & R5 & R6).
        destruct Hres' as (I1 & I2).
        exists err, D. repeat split; assumption.
      * exact Hres.
Qed.

(** C9.  The transaction that [sendNextTransaction] returns, and every
    transaction it submits, has the gas limit 75000, the recipient, the
    amount and the payload of the call. *)
Theorem sendNextTransaction_gas recipient amount payload script s res s' rest :
  sendNextTransaction cfg recipient amount payload script s = Some (res, s', rest) ->
  (forall tx, res = Ok tx ->
     txGas tx = 75000 /\ txTo tx = Some recipient /\ txValue tx = amount /\
     txPayload tx = payload)
  /\ exists new,
       events (rt s') = new ++ events (rt s) /\
       forall tx start acc, In (EvSend tx start acc) new -> txGas tx = 75000.
Proof.
  unfold sendNextTransaction. intros H.
  destruct (makeNextTransaction_cases cfg (Some recipient) 75000 amount payload s)
    as [(sg & _ & Ho & He & _) | (err & _ & Ho & He & _)].
  - destruct (makeNextTransaction cfg (Some recipient) 75000 amount payload s)
      as [r0 s1] eqn:Hm. cbn [fst snd] in Ho, He. subst r0.
    assert (Hfields : forall tx, tx = signedWith cfg
                (nextTxData cfg (env s) (Some recipient) 75000 amount payload) sg ->
              txGas tx = 75000 /\ txTo tx = Some recipient /\ txValue tx = amount /\
              txPayload tx = payload).
    { intros tx ->. unfold signedWith, nextTxData, txGas, txTo, txValue, txPayload.
      cbn [inner]. destruct (resolvesLegacy (env s)); repeat split. }
    assert (Hev : events (rt s1) = events (rt s)).
    { rewrite makeNextTransaction_run in Hm. cbv zeta in Hm.
      destruct (signValues cfg _ (chainID cfg) vaultKey); [|discriminate].
      injection Hm as _ <-. reflexivity. }
    pose proof (sendLoop_spec (signedWith cfg
      (nextTxData cfg (env s) (Some recipient) 75000 amount payload) sg) script s1)
      as Hspec.
    rewrite H in Hspec.
    destruct Hspec as (pre & r & new0 & _ & _ & _ & _ & _ & Hres).
    destruct (sendLoop_carries _ _ _ _ _ _ H) as (new & Hnew & Hc).
    split.
    + intros tx ->. destruct Hres as (-> & _). apply Hfields. reflexivity.
    + exists new. split; [rewrite Hnew, Hev; reflexivity|].
      intros tx start acc Hin. rewrite Forall_forall in Hc.
      specialize (Hc _ Hin). cbn in Hc. apply Hfields. exact Hc.
  - destruct (makeNextTransaction cfg (Some recipient) 75000 amount payload s)
      as [r0 s1] eqn:Hm. cbn [fst snd] in Ho, He. subst r0.
    injection H as <- <- <-. split; [discriminate|].
    exists []. split.
    + rewrite makeNextTransaction_run in Hm. cbv zeta in Hm.
      destruct (signValues cfg _ (chainID cfg) vaultKey); [discriminate|].
      injection Hm as <-. reflexivity.
    + intros tx start acc [].
Qed.

End SubmitterFacts.

(** ** The submitter on concrete inputs *)

Example two_failures_then_accepted :
  match sendNextTransaction cfgAccept 1 5 [] [busy; busy; ready; busy]
          (armed (10 * Second) stateUnspecified) with
  | Some (Ok tx, s', rest) =>
      txNonce tx = 0 /\ rest = [busy] /\ sends (events (rt s')) = 3%nat /\
      now (rt s') = (2250 * Millisecond)%N
  | _ => False
  end.
Proof. vm_compute. repeat split. Qed.

Example timeout_during_backoff :
  match sendNextTransaction cfgAccept 1 5 [] [busy; busy; ready]
          (armed (1 * Second) stateUnspecified) with
  | Some (Goexit, s', rest) =>
      rest = [busy; ready] /\ Failed s' = true /\ now (rt s') = (1 * Second)%N /\
      logs (T s') = [InfoBuiltTx "engine" 0 0 (Some 1) "Legacy";
                     FailSendTimeout "engine" "not ready"]
  | _ => False
  end.
Proof. vm_compute. repeat split. Qed.

(** C4, as stated, fails for an attempt in flight when the global timeout
    fires: the timeout fires half a second into the test, the first attempt
    is accepted after two seconds, and the transaction is returned. *)
Lemma accepted_after_timeout_fired :
  let s := armed (500 * Millisecond) stateUnspecified in
  exists tx s',
    sendNextTransaction cfgAccept 1 5 [] [slow] s = Some (Ok tx, s', []) /\
    Timeout (env s') = Some (500 * Millisecond)%N /\
    now (rt s') = (2 * Second)%N /\
    (500 * Millisecond < now (rt s'))%N.
Proof.
  cbv zeta. do 2 eexists. split; [vm_compute; reflexivity|].
  repeat split.
Qed.

Lemma sendNextTransaction_retries_witness :
  (let s := armed (10 * Second) stateUnspecified in
   exists s',
     sendNextTransaction cfgAccept 1 5 [] [busy; busy; ready; busy] s
     = Some (Ok (sampleTx s), s', [busy]) /\
     now (rt s') = (2250 * Millisecond)%N)
  /\ (let s := armed (1 * Second) stateUnspecified in
      exists s' rest,
        sendNextTransaction cfgAccept 1 5 [] [busy; busy] s
        = Some (Goexit, s', rest)).
Proof.
  split; cbv zeta.
  - destruct (sendNextTransaction_retries cfgAccept 1 5 []
                (armed (10 * Second) stateUnspecified)
                (sampleTx (armed (10 * Second) stateUnspecified))
                (snd (makeNextTransaction cfgAccept (Some 1) 75000 5 []
                        (armed (10 * Second) stateUnspecified)))
                eq_refl [busy; busy; ready; busy]) as [H _].
    destruct (H [busy; busy] ready [busy] eq_refl) as (s' & Hrun & Hnow).
    + repeat constructor.
    + reflexivity.
    + intros D HD. vm_compute in HD. injection HD as <-. reflexivity.
    + exists s'. split; [exact Hrun|exact Hnow].
  - destruct (sendNextTransaction_retries cfgAccept 1 5 []
                (armed (1 * Second) stateUnspecified)
                (sampleTx (armed (1 * Second) stateUnspecified))
                (snd (makeNextTransaction cfgAccept (Some 1) 75000 5 []
                        (armed (1 * Second) stateUnspecified)))
                eq_refl [busy; busy]) as (_ & H & _).
    apply (H (1 * Second)%N).
    + discriminate.
    + repeat constructor.
    + reflexivity.
    + reflexivity.
Defined.

Lemma sendNextTransaction_gas_witness :
  exists tx s',
    sendNextTransaction cfgAccept 1 5 [] [busy; ready]
      (armed (10 * Second) stateUnspecified) = Some (Ok tx, s', []) /\
    txGas tx = 75000.
Proof.
  do 2 eexists.
  assert (Hrun : sendNextTransaction cfgAccept 1 5 [] [busy; ready]
                   (armed (10 * Second) stateUnspecified)
                 = Some (Ok _, _, [])) by (vm_compute; reflexivity).
  split; [exact Hrun|].
  destruct (sendNextTransaction_gas cfgAccept 1 5 [] [busy; ready]
              (armed (10 * Second) stateUnspecified) _ _ _ Hrun) as [H _].
  destruct (H _ eq_refl) as [Hgas _]. exact Hgas.
Defined.

(** * Properties of the liveness prober *)

Section ProberFacts.

Variables deadline tickerStart period : N.

Lemma portcheck_nil L script s :
  portcheck deadline tickerStart period [] L script s = Some (None, s, script).
Proof. destruct script; reflexivity. Qed.

(** One turn of [portcheckloop]. *)
Lemma portcheck_cons port ports L script s :
  portcheck deadline tickerStart period (port :: ports) L script s =
  match select2 (now (rt s)) (Some deadline)
                (Some (nextTick tickerStart period L)) with
  | Fires false t => Some (Some DeadlineExceeded, with_rt (set_now t) s, script)
  | Fires true t => tickStep deadline tickerStart period port ports t script s
  | Both t =>
      match script with
      | [] => None
      | r :: _ =>
          if tie r then tickStep deadline tickerStart period port ports t script s
          else Some (Some DeadlineExceeded, with_rt (set_now t) s, script)
      end
  | Blocks => None
  end.
Proof. destruct script; reflexivity. Qed.

Lemma select2_instant now a b :
  match select2 now (Some a) (Some b) with
  | Fires false t => t = N.max now a /\ (N.max now a < N.max now b)%N
  | Fires true t => t = N.max now b /\ (N.max now b < N.max now a)%N
  | Both t => t = N.max now a /\ N.max now a = N.max now b
  | Blocks => False
  end.
Proof.
  unfold select2.
  destruct (N.ltb_spec (N.max now a) (N.max now b)); [split; [reflexivity|assumption]|].
  destruct (N.ltb_spec (N.max now b) (N.max now a)); [split; [reflexivity|assumption]|].
  split; [reflexivity|lia].
Qed.

Lemma DialContext_connected r t :
  fst (DialContext deadline r t) = true ->
  (snd (DialContext deadline r t) < deadline)%N /\ accepted r = true.
Proof.
  unfold DialContext.
  destruct (N.ltb_spec (t + took r) deadline) as [Hlt|Hge]; cbn [fst snd]; [|discriminate].
  intros Ha. split; assumption.
Qed.

Lemma DialContext_returns r t :
  (t <= snd (DialContext deadline r t))%N /\
  ((t <= deadline)%N -> (snd (DialContext deadline r t) <= deadline)%N).
Proof.
  unfold DialContext.
  destruct (N.ltb_spec (t + took r) deadline); cbn [fst snd]; lia.
Qed.

Lemma dialStarts_app evs evs' :
  dialStarts (evs ++ evs') = dialStarts evs ++ dialStarts evs'.
Proof.
  induction evs as [|e evs IH]; [reflexivity|].
  destruct e; cbn [dialStarts app]; rewrite ?IH; reflexivity.
Qed.

(** What a run of the probe loops can be. *)
Lemma portcheck_spec script :
  forall ports L s err s' rest,
    portcheck deadline tickerStart period ports L script s = Some (err, s', rest) ->
    exists new,
      events (rt s') = new ++ events (rt s) /\
      env s' = env s /\ T s' = T s /\ CLMock s' = CLMock s /\
      contexts (rt s') = contexts (rt s) /\
      paced tickerStart period L (dialStarts (rev new)) /\
      match err with
      | None =>
          Probed ports (rev new) /\
          (ports <> [] -> (now (rt s') < deadline)%N) /\
          (ports = [] -> s' = s)
      | Some e =>
          e = DeadlineExceeded /\ Interrupted ports (rev new) /\
          (deadline <= now (rt s'))%N
      end.
Proof.
  induction script as [|r script IH]; intros ports L s err s' rest H.
  - destruct ports as [|port ports].
    + rewrite portcheck_nil in H. injection H as <- <- <-.
      exists []. repeat split; try constructor. intros []; reflexivity.
    + rewrite portcheck_cons in H.
      pose proof (select2_instant (now (rt s)) deadline
                    (nextTick tickerStart period L)) as Hsel.
      destruct (select2 _ _ _) as [[|] t|t|]; try discriminate.
      injection H as <- <- <-. destruct Hsel as [-> _].
      exists []. repeat split; try constructor. cbn. lia.
  - destruct ports as [|port ports].
    + rewrite portcheck_nil in H. injection H as <- <- <-.
      exists []. repeat split; try constructor. intros []; reflexivity.
    + rewrite portcheck_cons in H.
      pose proof (select2_instant (now (rt s)) deadline
                    (nextTick tickerStart period L)) as Hsel.
      assert (Hexp : forall t, t = N.max (now (rt s)) deadline ->
                Some (Some DeadlineExceeded, with_rt (set_now t) s, r :: script)
                = Some (err, s', rest) ->
                exists new,
                  events (rt s') = new ++ events (rt s) /\
                  env s' = env s /\ T s' = T s /\ CLMock s' = CLMock s /\
                  contexts (rt s') = contexts (rt s) /\
                  paced tickerStart period L (dialStarts (rev new)) /\
                  match err with
                  | None =>
                      Probed (port :: ports) (rev new) /\
                      (port :: ports <> [] -> (now (rt s') < deadline)%N) /\
                      (port :: ports = [] -> s' = s)
                  | Some e =>
                      e = DeadlineExceeded /\ Interrupted (port :: ports) (rev new) /\
                      (deadline <= now (rt s'))%N
                  end).
      { intros t -> Heq. injection Heq as <- <- <-.
        exists []. repeat split; try constructor. cbn. lia. }
      assert (Htick : forall t,
                (nextTick tickerStart period L <= t)%N ->
                tickStep deadline tickerStart period port ports t (r :: script) s
                = Some (err, s', rest) ->
                exists new,
                  events (rt s') = new ++ events (rt s) /\
                  env s' = env s /\ T s' = T s /\ CLMock s' = CLMock s /\
                  contexts (rt s') = contexts (rt s) /\
                  paced tickerStart period L (dialStarts (rev new)) /\
                  match err with
                  | None =>
                      Probed (port :: ports) (rev new) /\
                      (port :: ports <> [] -> (now (rt s') < deadline)%N) /\
                      (port :: ports = [] -> s' = s)
                  | Some e =>
                      e = DeadlineExceeded /\ Interrupted (port :: ports) (rev new) /\
                      (deadline <= now (rt s'))%N
                  end).
      { intros t Ht Hrun. cbn [tickStep] in Hrun. cbv zeta in Hrun.
        pose proof (DialContext_connected r t) as Hconn.
        destruct (fst (DialContext deadline r t)) eqn:Hd.
        - apply IH in Hrun.
          destruct Hrun as (new & Hev & He & HT & HC & Hcx & Hp & Hres).
          exists (new ++ [EvConnClose port; EvDial port t true]).
          split; [rewrite Hev, <- app_assoc; unfold afterDial; rewrite Hd; reflexivity|].
          split; [exact He|]. split; [exact HT|]. split; [exact HC|].
          split; [exact Hcx|].
          rewrite rev_app_distr. cbn [rev app].
          split; [cbn [dialStarts]; split; [exact Ht|exact Hp]|].
          destruct err as [e|].
          + destruct Hres as (-> & Hi & Hn).
            split; [reflexivity|]. split; [constructor; exact Hi|exact Hn].
          + destruct Hres as (Hpr & Hn & Hs).
            split; [constructor; exact Hpr|]. split; [|discriminate].
            intros _. destruct ports as [|q ports].
            * rewrite (Hs eq_refl). cbn. unfold afterDial. cbn.
              apply (Hconn eq_refl).
            * apply Hn. discriminate.
        - apply IH in Hrun.
          destruct Hrun as (new & Hev & He & HT & HC & Hcx & Hp & Hres).
          exists (new ++ [EvDial port t false]).
          split; [rewrite Hev, <- app_assoc; unfold afterDial; rewrite Hd; reflexivity|].
          split; [exact He|]. split; [exact HT|]. split; [exact HC|].
          split; [exact Hcx|].
          rewrite rev_app_distr. cbn [rev app].
          split; [cbn [dialStarts]; split; [exact Ht|exact Hp]|].
          destruct err as [e|].
          + destruct Hres as (-> & Hi & Hn).
            split; [reflexivity|]. split; [constructor; exact Hi|exact Hn].
          + destruct Hres as (Hpr & Hn & Hs).
            split; [constructor; exact Hpr|]. split; [|discriminate].
            intros _. apply Hn. discriminate. }
      destruct (select2 _ _ _) as [[|] t|t|]; try discriminate.
      * destruct Hsel as [-> _].
        apply (Htick (N.max (now (rt s)) (nextTick tickerStart period L)));
          [lia|exact H].
      * destruct Hsel as [-> _]. apply (Hexp _ eq_refl H).
      * destruct Hsel as [-> Heq]. destruct (tie r).
        -- apply (Htick (N.max (now (rt s)) deadline)); [lia|exact H].
        -- apply (Hexp _ eq_refl H).
Qed.

(** The instants of the dials of a run: every dial takes the tick that the
    ticker holds for it. *)
Lemma portcheck_ticked script :
  forall ports L s err s' rest,
    portcheck deadline tickerStart period ports L script s = Some (err, s', rest) ->
    exists used new,
      script = used ++ rest /\
      events (rt s') = new ++ events (rt s) /\
      ticked deadline tickerStart period L (now (rt s)) used (dialStarts (rev new)).
Proof.
  induction script as [|r script IH]; intros ports L s err s' rest H.
  - destruct ports as [|port ports].
    + rewrite portcheck_nil in H. injection H as <- <- <-.
      exists [], []. repeat split.
    + rewrite portcheck_cons in H.
      destruct (select2 _ _ _) as [[|] t|t|]; try discriminate.
      injection H as <- <- <-. exists [], []. repeat split.
  - destruct ports as [|port ports].
    + rewrite portcheck_nil in H. injection H as <- <- <-.
      exists [], []. repeat split.
    + rewrite portcheck_cons in H.
      pose proof (select2_instant (now (rt s)) deadline
                    (nextTick tickerStart period L)) as Hsel.
      assert (Hexp : forall t,
                Some (Some DeadlineExceeded, with_rt (set_now t) s, r :: script)
                = Some (err, s', rest) ->
                exists used new,
                  r :: script = used ++ rest /\
                  events (rt s') = new ++ events (rt s) /\
                  ticked deadline tickerStart period L (now (rt s)) used
                         (dialStarts (rev new))).
      { intros t Heq. injection Heq as <- <- <-. exists [], []. repeat split. }
      assert (Htick : forall t,
                t = N.max (now (rt s)) (nextTick tickerStart period L) ->
                tickStep deadline tickerStart period port ports t (r :: script) s
                = Some (err, s', rest) ->
                exists used new,
                  r :: script = used ++ rest /\
                  events (rt s') = new ++ events (rt s) /\
                  ticked deadline tickerStart period L (now (rt s)) used
                         (dialStarts (rev new))).
      { intros t Ht Hrun. cbn [tickStep] in Hrun. cbv zeta in Hrun.
        destruct (fst (DialContext deadline r t)) eqn:Hd.
        - apply IH in Hrun. destruct Hrun as (used & new & Hs & Hev & Htk).
          exists (r :: used), (new ++ [EvConnClose port; EvDial port t true]).
          split; [rewrite Hs; reflexivity|].
          split; [rewrite Hev, <- app_assoc; unfold afterDial; rewrite Hd;
                  reflexivity|].
          rewrite rev_app_distr. cbn [rev app dialStarts ticked].
          split; [exact Ht|exact Htk].
        - apply IH in Hrun. destruct Hrun as (used & new & Hs & Hev & Htk).
          exists (r :: used), (new ++ [EvDial port t false]).
          split; [rewrite Hs; reflexivity|].
          split; [rewrite Hev, <- app_assoc; unfold afterDial; rewrite Hd;
                  reflexivity|].
          rewrite rev_app_distr. cbn [rev app dialStarts ticked].
          split; [exact Ht|exact Htk]. }
      destruct (select2 _ _ _) as [[|] t|t|]; try discriminate.
      * destruct Hsel as [-> _]. apply (Htick _ eq_refl H).
      * apply (Hexp _ H).
      * destruct Hsel as [-> Heq]. destruct (tie r).
        -- apply (Htick (N.max (now (rt s)) deadline)); [exact Heq|exact H].
        -- apply (Hexp _ H).
Qed.

(** *** The probe always returns *)

Hypothesis period_pos : period <> 0%N.

Lemma nextTick_on_grid k :
  nextTick tickerStart period (tickerStart + period * k) =
  (tickerStart + period * (k + 1))%N.
Proof.
  unfold nextTick.
  replace (tickerStart + period * k - tickerStart)%N with (k * period)%N by lia.
  rewrite N.div_mul by exact period_pos. reflexivity.
Qed.

Lemma DialContext_within r t :
  (snd (DialContext deadline r t) <= t + took r)%N.
Proof.
  unfold DialContext.
  destruct (N.ltb_spec (t + took r) deadline); cbn [fst snd]; lia.
Qed.

(** Dials that all return within a period take one tick after
    the other: they are exactly one period apart. *)
Lemma ticked_quick replies :
  forall starts k from,
    Forall (quick period) replies ->
    (from <= tickerStart + period * (k + 1))%N ->
    ticked deadline tickerStart period (tickerStart + period * k) from replies starts ->
    starts = ticksAfter tickerStart period k (List.length replies).
Proof.
  induction replies as [|r replies IH]; intros starts k from Hq Hfrom Htk.
  - destruct starts; [reflexivity|destruct Htk].
  - destruct starts as [|t starts]; [destruct Htk|].
    cbn [ticked] in Htk. destruct Htk as [Ht Htk].
    rewrite nextTick_on_grid in Ht.
    rewrite N.max_r in Ht by exact Hfrom.
    subst t. cbn [List.length ticksAfter]. f_equal.
    inversion Hq as [|? ? Hr Hq']; subst.
    apply (IH starts (k + 1)%N
             (snd (DialContext deadline r (tickerStart + period * (k + 1)))) Hq');
      [|exact Htk].
    pose proof (DialContext_within r (tickerStart + period * (k + 1))) as Hw.
    unfold quick in Hr. lia.
Qed.

Lemma slot_next L t :
  (nextTick tickerStart period L <= t)%N ->
  ((L - tickerStart) / period + 1 <= (t - tickerStart) / period)%N.
Proof.
  unfold nextTick. intros H.
  apply N.div_le_lower_bound; [exact period_pos|]. lia.
Qed.

Lemma slot_le t :
  (t <= deadline)%N ->
  ((t - tickerStart) / period <= (deadline - tickerStart) / period)%N.
Proof.
  intros H. apply N.Div0.div_le_mono. lia.
Qed.

Lemma last_slot L :
  (tickerStart <= deadline)%N ->
  ((deadline - tickerStart) / period <= (L - tickerStart) / period)%N ->
  (deadline < nextTick tickerStart period L)%N.
Proof.
  unfold nextTick. intros H0 H.
  pose proof (N.mul_succ_div_gt (deadline - tickerStart) period period_pos) as Hgt.
  assert (period * N.succ ((deadline - tickerStart) / period)
          <= period * ((L - tickerStart) / period + 1))%N
    by (apply N.mul_le_mono_l; lia).
  lia.
Qed.

Lemma portcheck_total script :
  forall ports L s,
    (tickerStart <= L)%N -> (L <= now (rt s))%N -> (now (rt s) <= deadline)%N ->
    ((deadline - tickerStart) / period - (L - tickerStart) / period
     <= N.of_nat (List.length script))%N ->
    portcheck deadline tickerStart period ports L script s <> None.
Proof.
  induction script as [|r script IH]; intros ports L s H0 H1 H2 Hm.
  - destruct ports as [|port ports]; [rewrite portcheck_nil; discriminate|].
    rewrite portcheck_cons.
    pose proof (select2_instant (now (rt s)) deadline
                  (nextTick tickerStart period L)) as Hsel.
    assert (Hlast : (deadline < nextTick tickerStart period L)%N).
    { apply last_slot; [lia|]. cbn [List.length] in Hm. lia. }
    destruct (select2 _ _ _) as [[|] t|t|]; try discriminate; lia.
  - destruct ports as [|port ports]; [rewrite portcheck_nil; discriminate|].
    rewrite portcheck_cons.
    pose proof (select2_instant (now (rt s)) deadline
                  (nextTick tickerStart period L)) as Hsel.
    assert (Htick : forall t,
              (nextTick tickerStart period L <= t)%N -> (t <= deadline)%N ->
              (now (rt s) <= t)%N ->
              tickStep deadline tickerStart period port ports t (r :: script) s <> None).
    { intros t Ht Htd Hnt. cbn [tickStep]. cbv zeta.
      pose proof (DialContext_returns r t) as [Hr1 Hr2].
      pose proof (slot_next L t Ht) as Hs1.
      pose proof (slot_le t Htd) as Hs2.
      assert (Hnext : (tickerStart <= t)%N) by lia.
      assert (Hm' : ((deadline - tickerStart) / period - (t - tickerStart) / period
                     <= N.of_nat (List.length script))%N).
      { cbn [List.length] in Hm. lia. }
      destruct (fst (DialContext deadline r t)); apply IH; cbn; try lia;
        try (apply Hr2; lia). }
    destruct (select2 _ _ _) as [[|] t|t|]; try discriminate.
    + destruct Hsel as [-> Hlt]. apply Htick; lia.
    + destruct Hsel as [-> Heq]. destruct (tie r); [|discriminate].
      apply Htick; lia.
    + destruct Hsel.
Qed.

End ProberFacts.

Section ProberTheorem.

Context (cfg : Config).

(** The probe never lacks replies when it is given fifty of them. *)
Lemma CheckEthEngineLive_total script s :
  (50 <= List.length script)%nat -> CheckEthEngineLive cfg script s <> None.
Proof.
  intros Hlen. unfold CheckEthEngineLive. cbn [WithTimeout].
  set (t0 := now (rt s)). set (deadline := (t0 + 5 * Second)%N).
  set (ports := [EthPortHTTP cfg; EnginePortHTTP cfg]).
  set (s1 := with_rt _ s).
  pose proof (portcheck_total deadline t0 (100 * Millisecond)%N
                ltac:(discriminate) script ports t0 s1) as Htot.
  destruct (portcheck deadline t0 (100 * Millisecond) ports t0 script s1)
    as [[[err s2] rest]|]; [discriminate|].
  assert (Hnow : now (rt s1) = t0) by reflexivity.
  exfalso. apply Htot.
  - apply N.le_refl.
  - rewrite Hnow. apply N.le_refl.
  - rewrite Hnow. unfold deadline. apply N.le_add_r.
  - unfold deadline. rewrite N.add_comm, N.add_sub, N.sub_diag.
    change (5 * Second / (100 * Millisecond))%N with 50%N.
    change (0 / (100 * Millisecond))%N with 0%N. lia.
  - reflexivity.
Qed.

(** What the probe has done when it returns. *)
Lemma CheckEthEngineLive_returns script s err s' rest :
  let t0 := now (rt s) in
  let deadline := (t0 + 5 * Second)%N in
  let ports := [EthPortHTTP cfg; EnginePortHTTP cfg] in
  let ctx := List.length (contexts (rt s)) in
  CheckEthEngineLive cfg script s = Some (err, s', rest) ->
  exists new,
    events (rt s') =
      EvCancel ctx :: new ++ EvWithTimeout ctx deadline :: events (rt s) /\
    paced t0 (100 * Millisecond) t0 (dialStarts (rev new)) /\
    match err with
    | None => Probed ports (rev new) /\ (now (rt s') < deadline)%N
    | Some e =>
        e = DeadlineExceeded /\ Interrupted ports (rev new) /\
        (deadline <= now (rt s'))%N
    end.
Proof.
  intros t0 deadline ports ctx. unfold CheckEthEngineLive. cbn [WithTimeout].
  fold t0. fold deadline. fold ports. fold ctx.
  set (s1 := with_rt _ s). intros H.
  destruct (portcheck deadline t0 (100 * Millisecond) ports t0 script s1)
    as [[[err2 s2] rest2]|] eqn:Hpc; [|discriminate].
  injection H as <- <- <-.
  apply portcheck_spec in Hpc.
  destruct Hpc as (new & Hev & _ & _ & _ & _ & Hp & Hres).
  exists new.
  split; [cbn; rewrite Hev; reflexivity|]. split; [exact Hp|].
  destruct err2 as [e|].
  - exact Hres.
  - destruct Hres as (Hpr & Hn & _). split; [exact Hpr|].
    apply Hn. discriminate.
Qed.

(** The instants of the dials of the probe. *)
Lemma CheckEthEngineLive_ticked script s err s' rest new :
  let t0 := now (rt s) in
  let deadline := (t0 + 5 * Second)%N in
  let ctx := List.length (contexts (rt s)) in
  CheckEthEngineLive cfg script s = Some (err, s', rest) ->
  events (rt s') =
    EvCancel ctx :: new ++ EvWithTimeout ctx deadline :: events (rt s) ->
  exists used,
    script = used ++ rest /\
    ticked deadline t0 (100 * Millisecond) t0 t0 used (dialStarts (rev new)) /\
    (Forall (quick (100 * Millisecond)) used ->
     dialStarts (rev new) = ticksAfter t0 (100 * Millisecond) 0 (List.length used)).
Proof.
  intros t0 deadline ctx. unfold CheckEthEngineLive. cbn [WithTimeout].
  fold t0. fold deadline. fold ctx.
  set (s1 := with_rt _ s). intros H Hevs.
  destruct (portcheck deadline t0 (100 * Millisecond)
              [EthPortHTTP cfg; EnginePortHTTP cfg] t0 script s1)
    as [[[err2 s2] rest2]|] eqn:Hpc; [|discriminate].
  injection H as <- <- <-.
  apply portcheck_ticked in Hpc.
  destruct Hpc as (used & new' & Hs & Hev & Htk).
  assert (Hnew : new' = new).
  { cbn in Hevs. rewrite Hev in Hevs. injection Hevs as Hevs.
    change (events (rt s1)) with ([EvWithTimeout ctx deadline] ++ events (rt s)) in Hevs.
    change (EvWithTimeout ctx deadline :: events (rt s))
      with ([EvWithTimeout ctx deadline] ++ events (rt s)) in Hevs.
    rewrite !app_assoc in Hevs. apply app_inv_tail in Hevs.
    apply app_inv_tail in Hevs. exact Hevs. }
  subst new'. exists used. split; [exact Hs|].
  change (now (rt s1)) with t0 in Htk. split; [exact Htk|].
  intros Hq.
  apply (ticked_quick deadline t0 (100 * Millisecond)%N ltac:(discriminate)
           used (dialStarts (rev new)) 0%N t0 Hq).
  - lia.
  - rewrite N.mul_0_r, N.add_0_r. exact Htk.
Qed.

(** C5 (as amended).  The probe returns nil only when, for the two ports in
    the order of its list, it has dialled the port until one dial connected,
    closed that connection at once and only then moved on, all of it before
    the one deadline (five seconds after the call) of the one context
    created for both ports.  It returns the error of the expired context
    only when that deadline has passed while a port was still waiting for
    its first successful dial.  With fifty replies at hand the probe always
    returns.
    The dials are driven by one ticker with a period of 100 ms, shared by
    the ports: each dial uses up one reply and starts at the first tick due
    after the start of the dial before it (the first one 100 ms after the
    call), or at the end of the dial before it when that tick came due
    while the dial was running.  The dials are therefore exactly 100 ms
    apart as long as every dial returns within 100 ms; a dial that takes
    longer delays the next one. *)
Theorem CheckEthEngineLive_probe script s :
  let t0 := now (rt s) in
  let deadline := (t0 + 5 * Second)%N in
  let ports := [EthPortHTTP cfg; EnginePortHTTP cfg] in
  let ctx := List.length (contexts (rt s)) in
  ((50 <= List.length script)%nat -> CheckEthEngineLive cfg script s <> None)
  /\ forall err s' rest,
       CheckEthEngineLive cfg script s = Some (err, s', rest) ->
       exists new,
         events (rt s') =
           EvCancel ctx :: new ++ EvWithTimeout ctx deadline :: events (rt s) /\
         paced t0 (100 * Millisecond) t0 (dialStarts (rev new)) /\
         match err with
         | None => Probed ports (rev new) /\ (now (rt s') < deadline)%N
         | Some e =>
             e = DeadlineExceeded /\ Interrupted ports (rev new) /\
             (deadline <= now (rt s'))%N
         end /\
         exists used,
           script = used ++ rest /\
           ticked deadline t0 (100 * Millisecond) t0 t0 used (dialStarts (rev new)) /\
           (Forall (quick (100 * Millisecond)) used ->
            dialStarts (rev new) =
              ticksAfter t0 (100 * Millisecond) 0 (List.length used)).
Proof.
  intros t0 deadline ports ctx. split.
  - exact (CheckEthEngineLive_total script s).
  - intros err s' rest H.
    destruct (CheckEthEngineLive_returns script s err s' rest H)
      as (new & Hev & Hp & Hres).
    exists new. split; [exact Hev|]. split; [exact Hp|]. split; [exact Hres|].
    exact (CheckEthEngineLive_ticked script s err s' rest new H Hev).
Qed.

End ProberTheorem.

(** ** The prober on concrete inputs *)

(** The first port answers the first dial; the second port refuses one dial
    and answers the next: three ticks, three dials, in the order of the
    ports. *)
Example probe_two_ports :
  match CheckEthEngineLive cfgAccept [ready; busy; ready] stateUnspecified with
  | Some (None, s', []) =>
      rev (events (rt s')) =
        [ EvWithTimeout 0%nat (5 * Second)%N;
          EvDial 8545 (100 * Millisecond)%N true; EvConnClose 8545;
          EvDial 8551 (200 * Millisecond)%N false;
          EvDial 8551 (300 * Millisecond)%N true; EvConnClose 8551;
          EvCancel 0%nat ] /\
      now (rt s') = (350 * Millisecond)%N
  | _ => False
  end.
Proof. vm_compute. split; reflexivity. Qed.

(** A node that never answers: the probe gives up at the deadline. *)
Example probe_times_out :
  match CheckEthEngineLive cfgAccept (repeat busy 60) stateUnspecified with
  | Some (Some e, s', rest) =>
      e = DeadlineExceeded /\ now (rt s') = (5 * Second)%N /\
      List.length rest = 11%nat /\
      connectedPorts (rev (events (rt s'))) = []
  | _ => False
  end.
Proof. vm_compute. repeat split. Qed.

(** C5, as stated, fails for a dial that takes longer than a tick: the
    first dial hangs for a quarter of a second, the second one follows as
    soon as it has failed, and the third one takes the next tick, 50 ms
    later. *)
Lemma dials_not_evenly_spaced :
  exists s',
    CheckEthEngineLive cfgAccept [stalled; ready; ready] stateUnspecified
    = Some (None, s', []) /\
    dialStarts (rev (events (rt s'))) =
      [(100 * Millisecond)%N; (350 * Millisecond)%N; (400 * Millisecond)%N].
Proof.
  eexists. split; [vm_compute; reflexivity|]. vm_compute. reflexivity.
Qed.

Lemma CheckEthEngineLive_probe_witness :
  CheckEthEngineLive cfgAccept (repeat busy 50) stateUnspecified <> None /\
  exists s' new,
    CheckEthEngineLive cfgAccept [ready; busy; ready] stateUnspecified
    = Some (None, s', []) /\
    events (rt s') = EvCancel 0%nat :: new ++ [EvWithTimeout 0%nat (5 * Second)%N] /\
    Probed [8545; 8551] (rev new) /\
    dialStarts (rev new) =
      [(100 * Millisecond)%N; (200 * Millisecond)%N; (300 * Millisecond)%N].
Proof.
  split.
  - apply (CheckEthEngineLive_probe cfgAccept (repeat busy 50) stateUnspecified).
    exact (le_n 50).
  - eexists.
    assert (Hrun : CheckEthEngineLive cfgAccept [ready; busy; ready] stateUnspecified
                   = Some (None, _, [])) by (vm_compute; reflexivity).
    destruct (CheckEthEngineLive_probe cfgAccept [ready; busy; ready] stateUnspecified)
      as [_ H].
    destruct (H _ _ _ Hrun) as (new & Hev & _ & (Hp & _) & used & Hs & _ & Hq).
    exists new. split; [exact Hrun|]. split; [exact Hev|]. split; [exact Hp|].
    rewrite app_nil_r in Hs. subst used. apply Hq.
    repeat (constructor; [discriminate|]). constructor.
Defined.

(** * Properties of the context accessor *)

Section CtxFacts.

Context (cfg : Config).

Lemma cancelAt_length c : forall cs, List.length (cancelAt c cs) = List.length cs.
Proof.
  induction c as [|c IH]; intros [|x cs]; cbn; try reflexivity.
  rewrite IH. reflexivity.
Qed.

Lemma cancelAt_same c : forall cs x,
  nth_error cs c = Some x -> nth_error (cancelAt c cs) c = Some (cancelled x).
Proof.
  induction c as [|c IH]; intros [|y cs] x H; cbn in *; try discriminate.
  - injection H as <-. reflexivity.
  - apply IH. exact H.
Qed.

Lemma cancelAt_other c : forall cs c',
  c <> c' -> nth_error (cancelAt c cs) c' = nth_error cs c'.
Proof.
  induction c as [|c IH]; intros [|y cs] [|c'] H; cbn; try reflexivity.
  - contradiction.
  - apply IH. congruence.
Qed.

(** One call of [Ctx]. *)
Lemma Ctx_step s :
  CtxInv s ->
  let c := List.length (contexts (rt s)) in
  let deadline := (now (rt s) + rpcTimeout cfg)%N in
  let fresh := {| ctxDeadline := deadline; ctxCancels := 0 |} in
  exists s',
    Ctx cfg s = (Ok c, s') /\
    env s' = set_last (Some c) (Some (CancelOf c)) (env s) /\
    now (rt s') = now (rt s) /\
    match lastCtx (env s) with
    | Some prev =>
        contexts (rt s') = cancelAt prev (contexts (rt s)) ++ [fresh] /\
        events (rt s') = EvWithTimeout c deadline :: EvCancel prev :: events (rt s)
    | None =>
        contexts (rt s') = contexts (rt s) ++ [fresh] /\
        events (rt s') = EvWithTimeout c deadline :: events (rt s)
    end.
Proof.
  unfold CtxInv, Ctx, bind, get. intros Hinv.
  destruct (lastCtx (env s)) as [prev|].
  - rewrite Hinv. cbn. rewrite cancelAt_length.
    eexists. repeat split.
  - cbn. eexists. repeat split.
Qed.

Lemma Replaced_peak prev ids evs :
  Replaced prev ids evs ->
  (peakOpen (match prev with Some c => [c] | None => [] end) evs <= 1)%nat.
Proof.
  induction 1 as [prev | c deadline ids evs _ IH | prev c deadline ids evs _ IH].
  - destruct prev; cbn; lia.
  - cbn [peakOpen List.length] in *. apply Nat.max_lub; [lia|exact IH].
  - cbn [peakOpen List.length filter] in *. rewrite Nat.eqb_refl.
    cbn [negb List.length peakOpen].
    apply Nat.max_lub; [lia|]. apply Nat.max_lub; [lia|exact IH].
Qed.

(** What a run of calls can be. *)
Lemma CtxCalls_spec pauses :
  forall s,
    CtxInv s ->
    let first := List.length (contexts (rt s)) in
    let n := List.length pauses in
    exists s' new,
      CtxCalls cfg pauses s = (Ok (seq first n), s') /\
      events (rt s') = new ++ events (rt s) /\
      Replaced (lastCtx (env s)) (seq first n) (rev new) /\
      CtxInv s' /\
      (pauses = [] -> s' = s) /\
      (pauses <> [] -> lastCtx (env s') = Some (first + n - 1)%nat) /\
      (forall c x, nth_error (contexts (rt s)) c = Some x ->
         lastCtx (env s) <> Some c \/ pauses = [] ->
         nth_error (contexts (rt s')) c = Some x) /\
      (forall c x, nth_error (contexts (rt s)) c = Some x ->
         lastCtx (env s) = Some c -> pauses <> [] ->
         nth_error (contexts (rt s')) c = Some (cancelled x)) /\
      (forall i, (i < n)%nat ->
         nth_error (contexts (rt s')) (first + i) =
         Some {| ctxDeadline :=
                   (now (rt s) + total (firstn (S i) pauses) + rpcTimeout cfg)%N;
                 ctxCancels := if (S i <? n)%nat then 1 else 0 |}).
Proof.
  induction pauses as [|d rest IH]; intros s Hinv first n.
  - exists s, []. cbn. repeat split.
    + constructor.
    + exact Hinv.
    + intros H. contradiction.
    + intros c x H _. exact H.
    + intros c x _ _ H. contradiction.
    + intros i Hi. inversion Hi.
  - set (s0 := snd (sleep d s)).
    assert (Hinv0 : CtxInv s0) by exact Hinv.
    destruct (Ctx_step s0 Hinv0) as (s1 & Hctx & Henv1 & Hnow1 & Hstore1).
    change (List.length (contexts (rt s0))) with first in Hctx, Henv1, Hstore1.
    change (lastCtx (env s0)) with (lastCtx (env s)) in Hstore1.
    change (contexts (rt s0)) with (contexts (rt s)) in Hstore1.
    change (events (rt s0)) with (events (rt s)) in Hstore1.
    change (now (rt s0)) with (now (rt s) + d)%N in Hstore1, Hnow1.
    assert (Hinv1 : CtxInv s1).
    { unfold CtxInv. rewrite Henv1. reflexivity. }
    assert (Hlast1 : lastCtx (env s1) = Some first) by (rewrite Henv1; reflexivity).
    set (fresh := {| ctxDeadline := (now (rt s) + d + rpcTimeout cfg)%N;
                     ctxCancels := 0 |}) in *.
    assert (Hlen1 : List.length (contexts (rt s1)) = S first).
    { destruct (lastCtx (env s)); destruct Hstore1 as [-> _];
        rewrite length_app, ?cancelAt_length; cbn; unfold first; lia. }
    assert (Hold1 : forall c x, nth_error (contexts (rt s)) c = Some x ->
              nth_error (contexts (rt s1)) c
              = Some (match lastCtx (env s) with
                      | Some prev => if Nat.eqb prev c then cancelled x else x
                      | None => x
                      end)).
    { intros c x Hc.
      assert (Hlt : (c < first)%nat) by (apply nth_error_Some; congruence).
      destruct (lastCtx (env s)) as [prev|]; destruct Hstore1 as [-> _].
      - rewrite nth_error_app1 by (rewrite cancelAt_length; exact Hlt).
        destruct (Nat.eqb_spec prev c) as [->|Hne].
        + apply cancelAt_same. exact Hc.
        + rewrite cancelAt_other by exact Hne. exact Hc.
      - rewrite nth_error_app1 by exact Hlt. exact Hc. }
    assert (Hnew1 : nth_error (contexts (rt s1)) first = Some fresh).
    { destruct (lastCtx (env s)); destruct Hstore1 as [-> _];
        rewrite nth_error_app2; rewrite ?cancelAt_length; unfold first;
        try lia; rewrite Nat.sub_diag; reflexivity. }
    destruct (IH s1 Hinv1)
      as (s' & new & Hrun & Hev & Hrep & Hinv' & Hsame & Hheld & Hkeep & Hbump & Hfresh).
    rewrite Hlen1 in Hrun, Hrep, Hfresh, Hheld. rewrite Hlast1 in Hrep, Hkeep, Hbump.
    exists s'.
    exists (new ++ match lastCtx (env s) with
                   | Some prev => [EvWithTimeout first (now (rt s) + d + rpcTimeout cfg)%N;
                                   EvCancel prev]
                   | None => [EvWithTimeout first (now (rt s) + d + rpcTimeout cfg)%N]
                   end).
    split.
    { assert (Hsleep : sleep d s = (Ok tt, s0)) by reflexivity.
      cbn [CtxCalls]. unfold bind at 1. rewrite Hsleep. cbv beta iota.
      unfold bind at 1. rewrite Hctx. cbv beta iota.
      unfold bind at 1. rewrite Hrun. subst n. reflexivity. }
    split.
    { rewrite Hev. rewrite <- app_assoc.
      destruct (lastCtx (env s)); destruct Hstore1 as [_ ->]; reflexivity. }
    split.
    { rewrite rev_app_distr. subst n. cbn [List.length seq].
      destruct (lastCtx (env s)); cbn [rev app]; constructor; exact Hrep. }
    split; [exact Hinv'|].
    split; [discriminate|].
    split.
    { intros _. subst n. cbn [List.length].
      destruct rest as [|d' rest'].
      - rewrite (Hsame eq_refl), Hlast1. cbn [List.length]. f_equal. lia.
      - rewrite Hheld by discriminate. f_equal. cbn [List.length]. lia. }
    split.
    { intros c x Hc [Hne|Hnil]; [|discriminate].
      assert (Hlt : (c < first)%nat) by (apply nth_error_Some; congruence).
      apply Hkeep.
      - rewrite (Hold1 c x Hc).
        destruct (lastCtx (env s)) as [prev|] eqn:Hl; [|reflexivity].
        destruct (Nat.eqb_spec prev c) as [->|_]; [exfalso; apply Hne; reflexivity|reflexivity].
      - left. intros [= E]. lia. }
    split.
    { intros c x Hc Hprev _.
      assert (Hlt : (c < first)%nat) by (apply nth_error_Some; congruence).
      apply Hkeep.
      - rewrite (Hold1 c x Hc). rewrite Hprev. rewrite Nat.eqb_refl. reflexivity.
      - left. intros [= E]. lia. }
    intros [|i] Hi.
    + rewrite Nat.add_0_r. cbn [firstn total].
      destruct rest as [|d' rest'].
      * rewrite (Hkeep first fresh Hnew1 (or_intror eq_refl)).
        subst fresh n. cbn. f_equal. f_equal. lia.
      * rewrite (Hbump first fresh Hnew1 eq_refl ltac:(discriminate)).
        subst fresh n. cbn. unfold cancelled. cbn. f_equal. f_equal. lia.
    + replace (first + S i)%nat with (S first + i)%nat by lia.
      subst n. cbn [List.length] in Hi.
      rewrite (Hfresh i ltac:(lia)). rewrite Hnow1.
      f_equal.
      change (firstn (S (S i)) (d :: rest)) with (d :: firstn (S i) rest).
      cbn [total].
      change (S (S i) <? List.length (d :: rest))%nat
        with (S i <? List.length rest)%nat.
      f_equal. lia.
Qed.

(** C6.  A caller asking the environment for a context again and again
    receives pairwise distinct contexts.  Each call first cancels the
    context handed out by the call before it, then creates the one it
    returns, so that no two contexts are ever open together.  After the
    calls every context but the last one has been cancelled exactly once
    and the last one not at all; each context expires [rpcTimeout] after
    its own creation, whatever happened to the one before.  In particular,
    for two calls in a row: the first context is cancelled once, by the
    second call, and the second one is untouched.  The deferred call of
    [RunTest] that closes the last context cancels that one and no other:
    after it every context has been cancelled exactly once. *)
Theorem Ctx_replaces_previous pauses s :
  CtxInv s ->
  let first := List.length (contexts (rt s)) in
  let n := List.length pauses in
  exists s' new,
    CtxCalls cfg pauses s = (Ok (seq first n), s') /\
    NoDup (seq first n) /\
    events (rt s') = new ++ events (rt s) /\
    Replaced (lastCtx (env s)) (seq first n) (rev new) /\
    (peakOpen (held s) (rev new) <= 1)%nat /\
    (forall i, (i < n)%nat ->
       nth_error (contexts (rt s')) (first + i) =
       Some {| ctxDeadline :=
                 (now (rt s) + total (firstn (S i) pauses) + rpcTimeout cfg)%N;
               ctxCancels := if (S i <? n)%nat then 1 else 0 |}) /\
    (forall i j, (i < n)%nat -> (j < n)%nat ->
       live s' (first + i)%nat = true -> live s' (first + j)%nat = true -> i = j) /\
    (forall i, (i < n)%nat ->
       cancelsOf (snd (runDeferred DeferCancelLastCtx s')) (first + i) = Some 1%nat).
Proof.
  intros Hinv first n.
  destruct (CtxCalls_spec pauses s Hinv)
    as (s' & new & Hrun & Hev & Hrep & Hinv' & _ & Hheld & _ & _ & Hfresh).
  fold first n in Hrun, Hrep, Hfresh, Hheld.
  exists s', new.
  split; [exact Hrun|]. split; [apply seq_NoDup|]. split; [exact Hev|].
  split; [exact Hrep|]. split; [exact (Replaced_peak _ _ _ Hrep)|].
  split; [exact Hfresh|].
  assert (Hlast : forall i, (i < n)%nat -> live s' (first + i)%nat = true -> S i = n).
  { intros i Hi Hl. unfold live in Hl. rewrite (Hfresh i Hi) in Hl.
    cbn [ctxCancels] in Hl.
    destruct (Nat.ltb_spec (S i) n) as [Hlt|Hge]; [discriminate Hl|lia]. }
  split.
  { intros i j Hi Hj Hli Hlj.
    pose proof (Hlast i Hi Hli). pose proof (Hlast j Hj Hlj). lia. }
  intros i Hi.
  assert (Hne : pauses <> []) by (intros ->; inversion Hi).
  specialize (Hheld Hne).
  unfold CtxInv in Hinv'. rewrite Hheld in Hinv'.
  unfold runDeferred, bind, get. rewrite Hheld, Hinv'.
  unfold cancelsOf. cbn [callCancel modify snd with_rt rt contexts set_contexts emit].
  pose proof (Hfresh i Hi) as Hrec.
  destruct (Nat.eq_dec (first + n - 1) (first + i)) as [E|E].
  - destruct (Nat.ltb_spec (S i) n) as [Hlt|Hge]; [lia|].
    rewrite E. rewrite (cancelAt_same _ _ _ Hrec). reflexivity.
  - destruct (Nat.ltb_spec (S i) n) as [Hlt|Hge]; [|lia].
    rewrite cancelAt_other by exact E. rewrite Hrec. reflexivity.
Qed.

End CtxFacts.

(** ** The context accessor on concrete inputs *)

(** Two calls in a row, one second into the test and two seconds later. *)
Example ctx_twice :
  let out := CtxCalls cfgAccept [(1 * Second)%N; (2 * Second)%N] stateUnspecified in
  fst out = Ok [0%nat; 1%nat] /\
  rev (events (rt (snd out))) =
    [EvWithTimeout 0 (11 * Second); EvCancel 0; EvWithTimeout 1 (13 * Second)] /\
  contexts (rt (snd out)) =
    [ {| ctxDeadline := (11 * Second)%N; ctxCancels := 1 |};
      {| ctxDeadline := (13 * Second)%N; ctxCancels := 0 |} ] /\
  live (snd out) 0 = false /\ live (snd out) 1 = true.
Proof. vm_compute. repeat split. Qed.

Lemma Ctx_replaces_previous_witness :
  exists s',
    CtxCalls cfgAccept [(1 * Second)%N; (2 * Second)%N; 0%N] stateUnspecified
    = (Ok [0%nat; 1%nat; 2%nat], s') /\
    nth_error (contexts (rt s')) 0 =
      Some {| ctxDeadline := (11 * Second)%N; ctxCancels := 1 |} /\
    nth_error (contexts (rt s')) 2 =
      Some {| ctxDeadline := (13 * Second)%N; ctxCancels := 0 |}.
Proof.
  destruct (Ctx_replaces_previous cfgAccept
              [(1 * Second)%N; (2 * Second)%N; 0%N] stateUnspecified I)
    as (s' & new & Hrun & _ & _ & _ & _ & Hfresh & _ & _).
  exists s'. split; [exact Hrun|]. split.
  - exact (Hfresh 0%nat (Nat.lt_0_succ 2)).
  - exact (Hfresh 2%nat (Nat.lt_succ_diag_r 2)).
Defined.

(** * Properties of the orchestrator *)

Section OrchestratorFacts.

Context (cfg : Config).

(** The events in front of a known tail. *)
Ltac front_events :=
  first [ instantiate (1 := []); reflexivity
        | instantiate (1 := [_]); reflexivity
        | instantiate (1 := [_; _]); reflexivity
        | instantiate (1 := [_; _; _]); reflexivity
        | instantiate (1 := [_; _; _; _]); reflexivity
        | instantiate (1 := [_; _; _; _; _]); reflexivity
        | instantiate (1 := [_; _; _; _; _; _]); reflexivity
        | instantiate (1 := [_; _; _; _; _; _; _]); reflexivity
        | instantiate (1 := [_; _; _; _; _; _; _; _]); reflexivity ].

Lemma blocksProduced_app evs evs' :
  blocksProduced (evs ++ evs') = (blocksProduced evs + blocksProduced evs')%nat.
Proof.
  induction evs as [|e evs IH]; [reflexivity|].
  destruct e; cbn [blocksProduced app]; rewrite IH; reflexivity.
Qed.

Lemma blocksProduced_probe evs :
  Forall isProbeEvent evs -> blocksProduced evs = 0%nat.
Proof.
  induction 1 as [|e evs He _ IH]; [reflexivity|].
  destruct e; cbn in He; try contradiction; exact IH.
Qed.

Lemma Interrupted_probe ports evs :
  Interrupted ports evs -> Forall isProbeEvent evs.
Proof. induction 1; repeat constructor; assumption. Qed.

Lemma Probed_probe ports evs :
  Probed ports evs -> Forall isProbeEvent evs.
Proof. induction 1; repeat constructor; assumption. Qed.

(** The deferred calls that end a test add one block-production cycle
    exactly when TTD was reached and the test has not failed. *)
Lemma runDefers_pending s :
  exists cleanup,
    events (rt (snd (runDefers pendingDefers s))) = cleanup ++ events (rt s) /\
    blocksProduced cleanup =
      (if TTDReached (CLMock s) && negb (Failed s) then 1 else 0)%nat /\
    T (snd (runDefers pendingDefers s)) = T s.
Proof.
  unfold pendingDefers, runDefers, runDeferred, bind, get, produceSingleBlock,
    modify, ret, panic, Failed.
  destruct (TTDReached (CLMock s) && negb (failed (T s))); cbn;
    destruct (syncCancel (env s)) as [[k]|]; cbn;
    destruct (lastCtx (env s)) as [c|]; cbn;
    try (destruct (lastCancel (env s)) as [[k']|]; cbn);
    eexists; (split; [front_events|split; reflexivity]).
Qed.

Lemma RunTest_setup_defers testName ttd slotsToSafe slotsToFinalized policy s :
  snd (RunTest_setup cfg testName ttd slotsToSafe slotsToFinalized policy s)
  = tl pendingDefers.
Proof. reflexivity. Qed.

(** The deferred calls pending while the ports are probed add no
    block-production cycle. *)
Lemma runDefers_early s :
  exists cleanup,
    events (rt (snd (runDefers (tl pendingDefers) s))) = cleanup ++ events (rt s) /\
    blocksProduced cleanup = 0%nat /\
    T (snd (runDefers (tl pendingDefers) s)) = T s.
Proof.
  unfold pendingDefers, tl, runDefers, runDeferred, bind, get, modify, ret, panic.
  destruct (syncCancel (env s)) as [[k]|]; cbn;
    destruct (lastCtx (env s)) as [c|]; cbn;
    try (destruct (lastCancel (env s)) as [[k']|]; cbn);
    eexists; (split; [front_events|split; reflexivity]).
Qed.

(** C8.  Once the ports are open and the test body has ended in the state
    [sb], [RunTest] runs its deferred calls, and among what they do there is
    exactly one block-production cycle if TTD was reached and the test is
    not marked failed in [sb], and none otherwise.  When the ports never
    open, the test body does not run and no block is produced. *)
Theorem RunTest_last_block testName ttd slotsToSafe slotsToFinalized timeout fn
    policy script s :
  let s0 := fst (RunTest_setup cfg testName ttd slotsToSafe slotsToFinalized policy s) in
  let run := RunTest cfg testName ttd slotsToSafe slotsToFinalized timeout fn
               policy script s in
  (forall s1 script1 res sb rest,
     CheckEthEngineLive cfg script s0 = Some (None, s1, script1) ->
     fn script1 (RunTest_arm timeout s1) = Some (res, sb, rest) ->
     exists res' sf cleanup,
       run = Some (res', sf, rest) /\
       events (rt sf) = cleanup ++ events (rt sb) /\
       blocksProduced cleanup =
         (if TTDReached (CLMock sb) && negb (Failed sb) then 1 else 0)%nat)
  /\ (forall e s1 script1,
        CheckEthEngineLive cfg script s0 = Some (Some e, s1, script1) ->
        exists res' sf,
          run = Some (res', sf, script1) /\ res' <> Ok tt /\
          Failed sf = true /\
          blocksProduced (events (rt sf)) = blocksProduced (events (rt s))).
Proof.
  intros s0 run. subst run. unfold RunTest.
  rewrite (surjective_pairing (RunTest_setup cfg testName ttd slotsToSafe
                                 slotsToFinalized policy s)).
  rewrite RunTest_setup_defers. fold s0.
  split.
  - intros s1 script1 res sb rest Hlive Hfn.
    rewrite Hlive, Hfn. unfold leave.
    destruct (runDefers_pending sb) as (cleanup & Hev & Hcount & _).
    do 3 eexists. split; [reflexivity|]. split; [exact Hev|exact Hcount].
  - intros e s1 script1 Hlive. rewrite Hlive. unfold leave.
    set (sx := snd (Fatalf (FailPorts (TestName (env s1)) e) s1)).
    destruct (runDefers_early sx) as (cleanup & Hev & Hcount & HT).
    do 2 eexists. split; [reflexivity|].
    split; [destruct (fst (runDefers (tl pendingDefers) sx)); discriminate|].
    split.
    + unfold Failed. rewrite HT. reflexivity.
    + rewrite Hev, blocksProduced_app, Hcount.
      destruct (CheckEthEngineLive_returns cfg script s0 _ _ _ Hlive)
        as (new & Hnew & _ & _ & Hint & _).
      change (events (rt sx)) with (events (rt s1)). rewrite Hnew.
      cbn [blocksProduced]. rewrite blocksProduced_app.
      rewrite (blocksProduced_probe new).
      * reflexivity.
      * rewrite <- (rev_involutive new). apply Forall_rev.
        exact (Interrupted_probe _ _ Hint).
Qed.

End OrchestratorFacts.

(** ** The orchestrator on concrete inputs *)

Example run_reaching_ttd :
  match sampleRun bodyReachingTTD [ready; ready] with
  | Some (Ok tt, sf, []) =>
      firstn 8 (events (rt sf)) =
        [ EvCloseClients; EvEngineClose; EvRPCClose; EvCloseTestend;
          EvProduceSingleBlock; EvCancel 0; EvConnClose 8551;
          EvDial 8551 (200 * Millisecond) true ] /\
      blocksProduced (events (rt sf)) = 1%nat
  | _ => False
  end.
Proof. vm_compute. split; reflexivity. Qed.

Example run_without_ttd :
  match sampleRun bodyIdle [ready; ready] with
  | Some (Ok tt, sf, []) => blocksProduced (events (rt sf)) = 0%nat
  | _ => False
  end.
Proof. vm_compute. reflexivity. Qed.

Example run_failed_after_ttd :
  match sampleRun bodyFailingAfterTTD [ready; ready] with
  | Some (Goexit, sf, []) =>
      TTDReached (CLMock sf) = true /\ Failed sf = true /\
      blocksProduced (events (rt sf)) = 0%nat
  | _ => False
  end.
Proof. vm_compute. repeat split. Qed.

Example run_ports_never_open :
  match sampleRun bodyReachingTTD (repeat busy 60) with
  | Some (Goexit, sf, _) =>
      Failed sf = true /\ TTDReached (CLMock sf) = false /\
      blocksProduced (events (rt sf)) = 0%nat /\
      logs (T sf) = [FailPorts "engine" DeadlineExceeded]
  | _ => False
  end.
Proof. vm_compute. repeat split. Qed.

Lemma RunTest_last_block_witness :
  (exists res sf sb cleanup,
     sampleRun bodyReachingTTD [ready; ready] = Some (res, sf, []) /\
     TTDReached (CLMock sb) = true /\ Failed sb = false /\
     events (rt sf) = cleanup ++ events (rt sb) /\
     blocksProduced cleanup = 1%nat)
  /\ (exists res sf rest,
        sampleRun bodyReachingTTD (repeat busy 60) = Some (res, sf, rest) /\
        blocksProduced (events (rt sf)) = 0%nat).
Proof.
  split.
  - assert (Hlive : CheckEthEngineLive cfgAccept [ready; ready]
                      (fst (RunTest_setup cfgAccept "engine" 1000 8 16
                              UnspecifiedTransactionType stateUnspecified))
                    = Some (None, _, [])) by (vm_compute; reflexivity).
    destruct (RunTest_last_block cfgAccept "engine" 1000 8 16 (60 * Second)%N
                bodyReachingTTD UnspecifiedTransactionType [ready; ready]
                stateUnspecified) as [H _].
    destruct (H _ _ _ _ _ Hlive eq_refl) as (res & sf & cleanup & Hrun & Hev & Hcount).
    exists res, sf. eexists. exists cleanup.
    split; [exact Hrun|]. split; [|split; [|split; [exact Hev|exact Hcount]]];
      reflexivity.
  - assert (Hlive : CheckEthEngineLive cfgAccept (repeat busy 60)
                      (fst (RunTest_setup cfgAccept "engine" 1000 8 16
                              UnspecifiedTransactionType stateUnspecified))
                    = Some (Some _, _, _)) by (vm_compute; reflexivity).
    destruct (RunTest_last_block cfgAccept "engine" 1000 8 16 (60 * Second)%N
                bodyReachingTTD UnspecifiedTransactionType (repeat busy 60)
                stateUnspecified) as [_ H].
    destruct (H _ _ _ Hlive) as (res & sf & Hrun & _ & _ & Hcount).
    exists res, sf. eexists. split; [exact Hrun|exact Hcount].
Defined.

(** * More on the transaction builder *)

Section BuilderMore.

Context (cfg : Config).

(** X3.  The builder never panics.  A transaction it returns carries the
    nonce stored before the call and the recipient, gas limit, amount and
    payload of the call, whatever its type, and its signature is the one
    the signer computed for exactly this data under the configured chain
    identifier and the vault key. *)
Theorem makeNextTransaction_fields r g a p s :
  let out := makeNextTransaction cfg r g a p s in
  fst out <> Panic /\
  forall tx, fst out = Ok tx ->
    txNonce tx = nonce (env s) /\ txTo tx = r /\ txGas tx = g /\
    txValue tx = a /\ txPayload tx = p /\
    (txType tx = LegacyTxType \/ txType tx = DynamicFeeTxType) /\
    exists sg, signValues cfg (inner tx) (chainID cfg) vaultKey = inl sg /\
               signed tx = Some {| sbChainID := chainID cfg; sbKey := vaultKey;
                                   sbSig := sg |}.
Proof.
  intros out. subst out.
  destruct (makeNextTransaction_cases cfg r g a p s)
    as [(sg & Hs & Ho & _) | (err & _ & Ho & _)]; rewrite Ho.
  - split; [discriminate|]. intros tx [= <-].
    unfold signedWith, nextTxData, txNonce, txTo, txGas, txValue, txPayload, txType
      in *.
    cbn [inner signed].
    destruct (resolvesLegacy (env s)); cbn [inner];
      repeat (split; [first [reflexivity | left; reflexivity | right; reflexivity]|]);
      exists sg; (split; [exact Hs|reflexivity]).
  - split; [discriminate|]. intros tx H. discriminate H.
Qed.

(** X4.  A call of the builder changes nothing but the stored nonce and the
    log: the clock, the contexts, the events, the mock and every other
    field of the environment are as before.  It appends exactly one line to
    the log: for a returned transaction the line with its hash, its nonce,
    the recipient and the name of its type, and the failure flag stays as it
    was; for a rejected one the line of the signing failure. *)
Theorem makeNextTransaction_frame r g a p s :
  let out := makeNextTransaction cfg r g a p s in
  let s' := snd out in
  rt s' = rt s /\ CLMock s' = CLMock s /\
  env s' = set_nonce (nonce (env s')) (env s) /\
  match fst out with
  | Ok tx =>
      logs (T s') = logs (T s) ++ [builtLine cfg (TestName (env s)) r tx] /\
      failed (T s') = failed (T s) /\
      txTypeName (inner tx) =
        (if txType tx =? LegacyTxType then "Legacy"%string
         else "DynamicFeeTx"%string)
  | _ =>
      exists err, logs (T s') = logs (T s) ++ [FailSign (TestName (env s)) err] /\
                  failed (T s') = true
  end.
Proof.
  intros out s'. subst out s'. rewrite makeNextTransaction_run. cbv zeta.
  destruct (signValues cfg _ (chainID cfg) vaultKey) as [sg|err]; cbn [fst snd].
  - repeat split.
    + unfold builtLine, signedWith, nextTxData, txNonce. cbn.
      destruct (resolvesLegacy (env s)); reflexivity.
    + unfold signedWith, nextTxData, txType. cbn [inner].
      destruct (resolvesLegacy (env s)); reflexivity.
  - repeat split.
    + cbn. destruct (env s); reflexivity.
    + exists err. split; reflexivity.
Qed.

Lemma noncesFrom_S n k : noncesFrom n (S k) = n :: noncesFrom (n + 1) k.
Proof.
  unfold noncesFrom. cbn [seq map]. f_equal; [lia|].
  rewrite <- seq_shift, map_map. apply map_ext. intros i. lia.
Qed.

Lemma noncesFrom_ge n k x : In x (noncesFrom n k) -> n <= x.
Proof.
  unfold noncesFrom. rewrite in_map_iff. intros (i & <- & _). lia.
Qed.

Lemma noncesFrom_NoDup k : forall n, NoDup (noncesFrom n k).
Proof.
  induction k as [|k IH]; intros n.
  - constructor.
  - rewrite noncesFrom_S. constructor; [|apply IH].
    intros Hin. apply noncesFrom_ge in Hin. lia.
Qed.

(** One step of [makeTransactions]. *)
Lemma makeTransactions_cons r g a p rest s txs s' :
  makeTransactions cfg ((r, g, a, p) :: rest) s = (Ok txs, s') ->
  exists tx0 s1 txs1,
    makeNextTransaction cfg r g a p s = (Ok tx0, s1) /\
    makeTransactions cfg rest s1 = (Ok txs1, s') /\
    txs = tx0 :: txs1.
Proof.
  cbn [makeTransactions]. unfold bind at 1.
  destruct (makeNextTransaction cfg r g a p s) as [[tx0| |] s1] eqn:H1;
    try discriminate.
  unfold bind at 1.
  destruct (makeTransactions cfg rest s1) as [[txs1| |] s2] eqn:H2;
    try discriminate.
  unfold ret. intros [= <- <-]. exists tx0, s1, txs1.
  split; [reflexivity|]. split; [exact H2|reflexivity].
Qed.

(** X1.  Transactions built one after the other carry consecutive nonces,
    starting at the stored one; as long as the counter does not wrap, no
    nonce is used twice, and afterwards the stored nonce has advanced by the
    number of transactions built. *)
Theorem makeTransactions_nonces calls s txs s' :
  0 <= nonce (env s) < 2 ^ 64 ->
  nonce (env s) + Z.of_nat (List.length calls) <= 2 ^ 64 ->
  makeTransactions cfg calls s = (Ok txs, s') ->
  map txNonce txs = noncesFrom (nonce (env s)) (List.length calls) /\
  NoDup (map txNonce txs) /\
  nonce (env s') = u64 (nonce (env s) + Z.of_nat (List.length calls)).
Proof.
  assert (Hmain : forall s txs s',
            0 <= nonce (env s) < 2 ^ 64 ->
            nonce (env s) + Z.of_nat (List.length calls) <= 2 ^ 64 ->
            makeTransactions cfg calls s = (Ok txs, s') ->
            map txNonce txs = noncesFrom (nonce (env s)) (List.length calls) /\
            nonce (env s') = u64 (nonce (env s) + Z.of_nat (List.length calls))).
  { clear s txs s'.
    induction calls as [|[[[r g] a] p] rest IH]; intros s txs s' H0 Hfit Hrun.
    - cbn in Hrun. injection Hrun as <- <-. split; [reflexivity|].
      cbn [List.length Z.of_nat]. rewrite Z.add_0_r. symmetry.
      apply u64_small. exact H0.
    - apply makeTransactions_cons in Hrun.
      destruct Hrun as (tx0 & s1 & txs1 & Hone & Hrest & ->).
      destruct (makeNextTransaction_cases cfg r g a p s)
        as [(sg & _ & Ho & He & _) | (err & _ & Ho & _)];
        rewrite Hone in *; cbn [fst snd] in *; [|discriminate].
      injection Ho as ->.
      assert (Hn1 : nonce (env s1) = u64 (nonce (env s) + 1))
        by (rewrite He; reflexivity).
      cbn [List.length] in Hfit. rewrite Nat2Z.inj_succ in Hfit.
      assert (Hrange : 0 <= nonce (env s1) < 2 ^ 64)
        by (rewrite Hn1; apply Z.mod_pos_bound; lia).
      assert (Hfit1 : nonce (env s1) + Z.of_nat (List.length rest) <= 2 ^ 64).
      { destruct rest as [|c rest']; [cbn; lia|].
        rewrite Hn1, u64_small by (cbn [List.length] in *; lia). lia. }
      destruct (IH s1 txs1 s' Hrange Hfit1 Hrest) as [Hmap Hfin].
      split.
      + cbn [map List.length]. rewrite noncesFrom_S. f_equal.
        * apply (nextTxData_nonce cfg (env s) r g a p).
        * rewrite Hmap. destruct rest as [|c rest']; [reflexivity|].
          rewrite Hn1, u64_small by (cbn [List.length] in *; lia). reflexivity.
      + rewrite Hfin, Hn1. unfold u64. cbn [List.length].
        rewrite Nat2Z.inj_succ, Z.add_mod_idemp_l by lia. f_equal. lia. }
  intros H0 Hfit Hrun.
  destruct (Hmain s txs s' H0 Hfit Hrun) as [Hmap Hn].
  split; [exact Hmap|]. split; [rewrite Hmap; apply noncesFrom_NoDup|exact Hn].
Qed.

(** X2.  Under the LegacyTxOnly policy every transaction built is a legacy
    transaction, and under the DynamicFeeTxOnly policy every one is a
    dynamic-fee transaction, whatever the nonces. *)
Theorem fixed_policy_types calls :
  forall s txs,
    fst (makeTransactions cfg calls s) = Ok txs ->
    (testTransactionType (env s) = LegacyTxOnly ->
       Forall (fun tx => txType tx = LegacyTxType) txs) /\
    (testTransactionType (env s) = DynamicFeeTxOnly ->
       Forall (fun tx => txType tx = DynamicFeeTxType) txs).
Proof.
  induction calls as [|[[[r g] a] p] rest IH]; intros s txs Hrun.
  - cbn in Hrun. injection Hrun as <-. split; constructor.
  - destruct (makeTransactions cfg ((r, g, a, p) :: rest) s) as [res s'] eqn:Hm.
    cbn [fst] in Hrun. subst res.
    apply makeTransactions_cons in Hm.
    destruct Hm as (tx0 & s1 & txs1 & Hone & Hrest & ->).
    pose proof (makeNextTransaction_type cfg r g a p s tx0) as Hty.
    pose proof (makeNextTransaction_policy cfg r g a p s) as Hpol.
    rewrite Hone in Hty, Hpol. cbn [fst snd] in Hty, Hpol.
    specialize (Hty eq_refl). unfold resolvesLegacy in Hty.
    destruct (IH s1 txs1) as [IHl IHd]; [rewrite Hrest; reflexivity|].
    rewrite Hpol in IHl, IHd.
    split; intros Hp; rewrite Hp in Hty; constructor; auto.
Qed.

End BuilderMore.

(** * More on the big contract creation *)

Lemma byte_of_Z_value z : Z.of_N (Byte.to_N (byte_of_Z z)) = z mod 256.
Proof.
  unfold byte_of_Z.
  pose proof (Z.mod_pos_bound z 256 ltac:(lia)) as Hb.
  destruct (Byte.of_N (Z.to_N (z mod 256))) as [b|] eqn:E.
  - apply Byte.to_of_N in E. rewrite E. apply Z2N.id. lia.
  - apply Byte.of_N_None_iff in E. lia.
Qed.

Lemma Uint64_PutUint64_mod v : Uint64 (PutUint64 v) = v mod 2 ^ 64.
Proof.
  unfold Uint64, PutUint64. cbn [fold_left].
  rewrite !byte_of_Z_value, !Z.shiftr_div_pow2 by lia.
  change (2 ^ 56) with 72057594037927936.
  change (2 ^ 48) with 281474976710656.
  change (2 ^ 40) with 1099511627776.
  change (2 ^ 32) with 4294967296.
  change (2 ^ 24) with 16777216.
  change (2 ^ 16) with 65536.
  change (2 ^ 8) with 256.
  change (2 ^ 64) with 18446744073709551616.
  Z.div_mod_to_equations. lia.
Qed.

(** X8.  Reading back the eight bytes that [PutUint64] writes gives the
    value written, reduced to 64 bits: every [uint64] survives the round
    trip. *)
Theorem Uint64_PutUint64 v :
  List.length (PutUint64 v) = 8%nat /\
  Uint64 (PutUint64 v) = v mod 2 ^ 64 /\
  (0 <= v < 2 ^ 64 -> Uint64 (PutUint64 v) = v).
Proof.
  split; [reflexivity|]. split; [apply Uint64_PutUint64_mod|].
  intros Hv. rewrite Uint64_PutUint64_mod. apply Z.mod_small. exact Hv.
Qed.

(** The computed length, by the size of the gas limit. *)
Lemma contractLengthFor_above gasLimit :
  21000 + 32000 < gasLimit < 2 ^ 64 ->
  contractLengthFor gasLimit = Z.max 0 ((gasLimit - 53000) / 200 - 1).
Proof.
  intros Hg. unfold contractLengthFor.
  destruct (Z.gtb_spec gasLimit (21000 + 32000)) as [_|]; [|lia].
  rewrite (u64_small (gasLimit - 21000)) by lia.
  replace (gasLimit - 21000 - 32000) with (gasLimit - 53000) by lia.
  rewrite (u64_small (gasLimit - 53000)) by lia.
  assert (0 <= (gasLimit - 53000) / 200 <= gasLimit - 53000).
  { split; [apply Z.div_pos; lia|apply Z.div_le_upper_bound; lia]. }
  destruct (Z.geb_spec ((gasLimit - 53000) / 200) 1) as [Hq|Hq].
  - rewrite u64_small by lia. lia.
  - lia.
Qed.

Lemma contractLengthFor_below gasLimit :
  gasLimit <= 21000 + 32000 -> contractLengthFor gasLimit = 0.
Proof.
  intros Hg. unfold contractLengthFor.
  destruct (Z.gtb_spec gasLimit (21000 + 32000)); [lia|reflexivity].
Qed.

(** X5.  The computed body length is a [uint64], and it is as long as the
    safety margin allows: from a gas limit of 21000 + 32000 + 200 on, a
    body one byte longer still costs no more than the gas limit, while a
    body two bytes longer would cost more. *)
Theorem contractLength_tight gasLimit :
  0 <= gasLimit < 2 ^ 64 ->
  0 <= contractLengthFor gasLimit < 2 ^ 64 /\
  (21000 + 32000 < gasLimit ->
     gasLimit < 21000 + 32000 + 200 * (contractLengthFor gasLimit + 2)) /\
  (21000 + 32000 + 200 <= gasLimit ->
     21000 + 32000 + 200 * (contractLengthFor gasLimit + 1) <= gasLimit).
Proof.
  intros Hr.
  destruct (Z_le_gt_dec gasLimit (21000 + 32000)) as [Hs|Hb].
  - rewrite (contractLengthFor_below gasLimit Hs). repeat split; lia.
  - rewrite (contractLengthFor_above gasLimit) by lia.
    pose proof (Z.div_mod (gasLimit - 53000) 200 ltac:(lia)) as Hdm.
    pose proof (Z.mod_pos_bound (gasLimit - 53000) 200 ltac:(lia)) as Hm.
    repeat split; lia.
Qed.

(** X6.  A larger gas limit never gives a shorter body. *)
Theorem contractLength_monotone g1 g2 :
  0 <= g1 -> g1 <= g2 -> g2 < 2 ^ 64 ->
  contractLengthFor g1 <= contractLengthFor g2.
Proof.
  intros H0 H12 H2.
  destruct (Z_le_gt_dec g1 (21000 + 32000)) as [Hs|Hb].
  - rewrite (contractLengthFor_below g1 Hs).
    destruct (Z_le_gt_dec g2 (21000 + 32000)) as [Hs2|Hb2].
    + rewrite (contractLengthFor_below g2 Hs2). lia.
    + rewrite (contractLengthFor_above g2) by lia. lia.
  - rewrite (contractLengthFor_above g1), (contractLengthFor_above g2) by lia.
    assert ((g1 - 53000) / 200 <= (g2 - 53000) / 200)
      by (apply Z.div_le_mono; lia).
    lia.
Qed.

Section ContractMore.

Context (cfg : Config).

(** X7.  The transaction built for a big contract has no recipient, the
    value zero, the given gas limit and the stored nonce; its init code is
    eleven bytes long: PUSH8, an 8-byte immediate whose big-endian value is
    the computed length, CODESIZE and RETURN. *)
Theorem makeNextBigContractTransaction_initCode gasLimit s tx :
  0 <= gasLimit < 2 ^ 64 ->
  fst (makeNextBigContractTransaction cfg gasLimit s) = Ok tx ->
  txTo tx = None /\ txValue tx = 0 /\ txGas tx = gasLimit /\
  txNonce tx = nonce (env s) /\
  List.length (txPayload tx) = 11%nat /\
  exists imm,
    txPayload tx = x67 :: imm ++ [x38; xf3] /\
    List.length imm = 8%nat /\
    Uint64 imm = contractLengthFor gasLimit.
Proof.
  unfold makeNextBigContractTransaction. intros Hg H.
  destruct (makeNextTransaction_cases cfg None gasLimit big0
              (bigContractInitCode gasLimit) s)
    as [(sg & _ & Ho & _) | (err & _ & Ho & _)];
    rewrite Ho in H; [|discriminate].
  injection H as <-.
  assert (Hfields :
    txTo (signedWith cfg (nextTxData cfg (env s) None gasLimit big0
                            (bigContractInitCode gasLimit)) sg) = None /\
    txValue (signedWith cfg (nextTxData cfg (env s) None gasLimit big0
                               (bigContractInitCode gasLimit)) sg) = 0 /\
    txGas (signedWith cfg (nextTxData cfg (env s) None gasLimit big0
                             (bigContractInitCode gasLimit)) sg) = gasLimit /\
    txPayload (signedWith cfg (nextTxData cfg (env s) None gasLimit big0
                                 (bigContractInitCode gasLimit)) sg)
      = bigContractInitCode gasLimit).
  { unfold signedWith, nextTxData, txTo, txValue, txGas, txPayload. cbn [inner].
    destruct (resolvesLegacy (env s)); repeat split. }
  destruct Hfields as (Hto & Hval & Hgas & Hpay).
  split; [exact Hto|]. split; [exact Hval|]. split; [exact Hgas|].
  split; [exact (nextTxData_nonce cfg (env s) None gasLimit big0 _)|].
  rewrite Hpay. split; [reflexivity|].
  exists (PutUint64 (contractLengthFor gasLimit)).
  split; [reflexivity|]. split; [reflexivity|].
  rewrite Uint64_PutUint64_mod. apply Z.mod_small.
  destruct (Z_le_gt_dec gasLimit (21000 + 32000)) as [Hs|Hb].
  - rewrite (contractLengthFor_below gasLimit Hs). lia.
  - rewrite (contractLengthFor_above gasLimit) by lia.
    assert (0 <= (gasLimit - 53000) / 200 <= gasLimit - 53000).
    { split; [apply Z.div_pos; lia|apply Z.div_le_upper_bound; lia]. }
    lia.
Qed.

End ContractMore.

(** * More on the retrying submitter *)

Section SubmitterMore.

Context (cfg : Config).

Lemma makeNextTransaction_rt r g a p s :
  rt (snd (makeNextTransaction cfg r g a p s)) = rt s.
Proof.
  rewrite makeNextTransaction_run. cbv zeta.
  destruct (signValues cfg _ (chainID cfg) vaultKey); reflexivity.
Qed.

(** Building a transaction and submitting it until it is accepted: the
    common shape of [sendNextTransaction] and
    [sendNextBigContractTransaction]. *)
Lemma build_then_send R G A P script s res s' rest :
  match makeNextTransaction cfg R G A P s with
  | (Ok tx, s1) => sendLoop tx script s1
  | (Goexit, s1) => Some (Goexit, s1, script)
  | (Panic, s1) => Some (Panic, s1, script)
  end = Some (res, s', rest) ->
  res <> Panic /\
  testTransactionType (env s') = testTransactionType (env s) /\
  Timeout (env s') = Timeout (env s) /\
  exists new,
    events (rt s') = new ++ events (rt s) /\
    match sends new with
    | O =>
        res = Goexit /\ rest = script /\ new = [] /\
        nonce (env s') = nonce (env s) /\ Failed s' = true
    | S k =>
        nonce (env s') = u64 (nonce (env s) + 1) /\
        List.length script = (List.length rest + S k)%nat /\
        (res = Goexit -> Failed s' = true) /\
        exists tx,
          Forall (carries tx) new /\
          (forall tx', res = Ok tx' -> tx' = tx) /\
          txNonce tx = nonce (env s) /\ txTo tx = R /\ txGas tx = G /\
          txValue tx = A /\ txPayload tx = P
    end.
Proof.
  intros H.
  pose proof (makeNextTransaction_rt R G A P s) as Hrt.
  destruct (makeNextTransaction_cases cfg R G A P s)
    as [(sg & _ & Ho & He & _) | (err & _ & Ho & He & Hf)];
    destruct (makeNextTransaction cfg R G A P s) as [r0 s1];
    cbn [fst snd] in Ho, He, Hrt; subst r0.
  - set (tx := signedWith cfg (nextTxData cfg (env s) R G A P) sg) in *.
    pose proof (sendLoop_spec tx script s1) as Hspec. rewrite H in Hspec.
    destruct Hspec as (pre & r & new & Hscript & _ & Henv & Hev & _ & Hres).
    destruct (sendLoop_carries tx script s1 res s' rest H) as (new' & Hev' & Hc).
    assert (new' = new) by (rewrite Hev in Hev'; apply app_inv_tail in Hev'; auto).
    subst new'.
    assert (Hsends : sends new = S (List.length pre)).
    { destruct res as [tx'| |]; [| |contradiction].
      - apply Hres.
      - destruct Hres as (e & D & _ & _ & _ & _ & _ & Hn). exact Hn. }
    split; [destruct res; [discriminate|discriminate|contradiction]|].
    split; [rewrite Henv, He; reflexivity|].
    split; [rewrite Henv, He; reflexivity|].
    exists new. split; [rewrite Hev, Hrt; reflexivity|].
    rewrite Hsends.
    split; [rewrite Henv, He; reflexivity|].
    split; [rewrite Hscript, length_app; cbn [List.length]; lia|].
    split.
    { intros ->. destruct Hres as (e & D & _ & _ & _ & Hfl & _). exact Hfl. }
    exists tx. split; [exact Hc|].
    split; [intros tx' ->; apply Hres|].
    split; [exact (nextTxData_nonce cfg (env s) R G A P)|].
    unfold tx, signedWith, nextTxData, txTo, txGas, txValue, txPayload. cbn [inner].
    destruct (resolvesLegacy (env s)); repeat split.
  - injection H as <- <- <-.
    split; [discriminate|].
    split; [rewrite He; reflexivity|]. split; [rewrite He; reflexivity|].
    exists []. split; [rewrite Hrt; reflexivity|]. cbn [sends].
    repeat split; try (rewrite He; reflexivity). exact Hf.
Qed.

(** X9.  One call of [sendNextTransaction] uses up one nonce, however many
    attempts it takes and whether it ends with an accepted transaction or
    with the timeout: every attempt submits the same transaction, built
    once with the nonce stored before the call, and each attempt consumes
    one answer of the node.  When the transaction cannot be signed nothing
    is submitted, the stored nonce stays as it was and the test is marked
    failed.  The policy and the global timeout are left untouched. *)
Theorem sendNextTransaction_one_nonce recipient amount payload script s res s' rest :
  sendNextTransaction cfg recipient amount payload script s = Some (res, s', rest) ->
  res <> Panic /\
  testTransactionType (env s') = testTransactionType (env s) /\
  Timeout (env s') = Timeout (env s) /\
  exists new,
    events (rt s') = new ++ events (rt s) /\
    match sends new with
    | O =>
        res = Goexit /\ rest = script /\ new = [] /\
        nonce (env s') = nonce (env s) /\ Failed s' = true
    | S k =>
        nonce (env s') = u64 (nonce (env s) + 1) /\
        List.length script = (List.length rest + S k)%nat /\
        exists tx,
          Forall (carries tx) new /\ txNonce tx = nonce (env s)
    end.
Proof.
  unfold sendNextTransaction. intros H.
  destruct (build_then_send _ _ _ _ _ _ _ _ _ H)
    as (Hp & Hpol & Hto & new & Hev & Hcases).
  split; [exact Hp|]. split; [exact Hpol|]. split; [exact Hto|].
  exists new. split; [exact Hev|].
  destruct (sends new) as [|k]; [exact Hcases|].
  destruct Hcases as (Hn & Hlen & _ & tx & Hc & _ & Htx & _).
  split; [exact Hn|]. split; [exact Hlen|]. exists tx. split; assumption.
Qed.


End SubmitterMore.

(** * More on the liveness prober *)

Section ProberBounds.

Variables deadline tickerStart period : N.

Hypothesis period_nonzero : period <> 0%N.

(** The ticks still due before the deadline, after a receive at [L]. *)
Let ticksLeft (L : N) : N :=
  ((deadline - tickerStart) / period - (L - tickerStart) / period)%N.

Lemma dialStarts_length_app evs evs' :
  List.length (dialStarts (evs ++ evs')) =
  (List.length (dialStarts evs) + List.length (dialStarts evs'))%nat.
Proof. rewrite dialStarts_app, length_app. reflexivity. Qed.

(** The loops return by the deadline, use one reply per dial and make no
    more dials than there are ticks left. *)
Lemma portcheck_bounded script :
  forall ports L s err s' rest,
    (tickerStart <= L)%N -> (L <= now (rt s))%N -> (now (rt s) <= deadline)%N ->
    portcheck deadline tickerStart period ports L script s = Some (err, s', rest) ->
    (now (rt s) <= now (rt s'))%N /\ (now (rt s') <= deadline)%N /\
    exists new,
      events (rt s') = new ++ events (rt s) /\
      List.length script = (List.length rest + List.length (dialStarts new))%nat /\
      (N.of_nat (List.length (dialStarts new)) <= ticksLeft L)%N.
Proof.
  induction script as [|r script IH]; intros ports L s err s' rest H0 H1 H2 H.
  - destruct ports as [|port ports].
    + rewrite portcheck_nil in H. injection H as <- <- <-.
      split; [lia|]. split; [exact H2|]. exists []. split; [reflexivity|]. split; [cbn; lia|]. apply N.le_0_l.
    + rewrite portcheck_cons in H.
      pose proof (select2_instant (now (rt s)) deadline
                    (nextTick tickerStart period L)) as Hsel.
      destruct (select2 _ _ _) as [[|] t|t|]; try discriminate.
      injection H as <- <- <-. destruct Hsel as [-> _].
      cbn. split; [lia|]. split; [lia|]. exists []. split; [reflexivity|]. split; [cbn; lia|]. apply N.le_0_l.
  - destruct ports as [|port ports].
    + rewrite portcheck_nil in H. injection H as <- <- <-.
      split; [lia|]. split; [exact H2|]. exists []. split; [reflexivity|]. split; [cbn; lia|]. apply N.le_0_l.
    + rewrite portcheck_cons in H.
      pose proof (select2_instant (now (rt s)) deadline
                    (nextTick tickerStart period L)) as Hsel.
      assert (Hexp : forall t, t = N.max (now (rt s)) deadline ->
                Some (Some DeadlineExceeded, with_rt (set_now t) s, r :: script)
                = Some (err, s', rest) ->
                (now (rt s) <= now (rt s'))%N /\ (now (rt s') <= deadline)%N /\
                exists new,
                  events (rt s') = new ++ events (rt s) /\
                  List.length (r :: script)
                  = (List.length rest + List.length (dialStarts new))%nat /\
                  (N.of_nat (List.length (dialStarts new)) <= ticksLeft L)%N).
      { intros t -> Heq. injection Heq as <- <- <-.
        cbn. split; [lia|]. split; [lia|]. exists []. split; [reflexivity|]. split; [cbn; lia|]. apply N.le_0_l. }
      assert (Htick : forall t,
                (nextTick tickerStart period L <= t)%N -> (t <= deadline)%N ->
                (now (rt s) <= t)%N ->
                tickStep deadline tickerStart period port ports t (r :: script) s
                = Some (err, s', rest) ->
                (now (rt s) <= now (rt s'))%N /\ (now (rt s') <= deadline)%N /\
                exists new,
                  events (rt s') = new ++ events (rt s) /\
                  List.length (r :: script)
                  = (List.length rest + List.length (dialStarts new))%nat /\
                  (N.of_nat (List.length (dialStarts new)) <= ticksLeft L)%N).
      { intros t Ht Htd Hnt Hrun. cbn [tickStep] in Hrun. cbv zeta in Hrun.
        pose proof (DialContext_returns deadline r t) as [Hr1 Hr2].
        pose proof (slot_next tickerStart period period_nonzero L t Ht) as Hs1.
        pose proof (slot_le deadline tickerStart period period_nonzero t Htd) as Hs2.
        destruct (fst (DialContext deadline r t)) eqn:Hd;
          apply IH in Hrun; try (cbn; lia);
          destruct Hrun as (Hmono & Hend & new & Hev & Hlen & Hcount).
        - split; [cbn in Hmono; lia|]. split; [exact Hend|].
          exists (new ++ [EvConnClose port; EvDial port t true]).
          split; [rewrite Hev, <- app_assoc; unfold afterDial; rewrite Hd;
                  reflexivity|].
          rewrite dialStarts_length_app. cbn [dialStarts List.length].
          split; [lia|]. unfold ticksLeft in *. lia.
        - split; [cbn in Hmono; lia|]. split; [exact Hend|].
          exists (new ++ [EvDial port t false]).
          split; [rewrite Hev, <- app_assoc; unfold afterDial; rewrite Hd;
                  reflexivity|].
          rewrite dialStarts_length_app. cbn [dialStarts List.length].
          split; [lia|]. unfold ticksLeft in *. lia. }
      destruct (select2 _ _ _) as [[|] t|t|]; try discriminate.
      * destruct Hsel as [-> Hlt].
        apply (Htick (N.max (now (rt s)) (nextTick tickerStart period L)));
          [lia|lia|lia|exact H].
      * destruct Hsel as [-> _]. apply (Hexp _ eq_refl H).
      * destruct Hsel as [-> Heq]. destruct (tie r).
        -- apply (Htick (N.max (now (rt s)) deadline)); [lia|lia|lia|exact H].
        -- apply (Hexp _ eq_refl H).
Qed.

End ProberBounds.

Section ProberMore.

Context (cfg : Config).

Lemma cancelAt_last cs : forall x,
  cancelAt (List.length cs) (cs ++ [x]) = cs ++ [cancelled x].
Proof.
  induction cs as [|y cs IH]; intros x; [reflexivity|].
  cbn [List.length app cancelAt]. rewrite IH. reflexivity.
Qed.

(** What the probe leaves behind, and how long it takes. *)
Lemma CheckEthEngineLive_effect script s err s' rest :
  CheckEthEngineLive cfg script s = Some (err, s', rest) ->
  let deadline := (now (rt s) + 5 * Second)%N in
  env s' = env s /\ T s' = T s /\ CLMock s' = CLMock s /\
  contexts (rt s') =
    contexts (rt s) ++ [{| ctxDeadline := deadline; ctxCancels := 1 |}] /\
  (now (rt s) <= now (rt s'))%N /\ (now (rt s') <= deadline)%N /\
  (err <> None -> now (rt s') = deadline) /\
  exists new,
    events (rt s') =
      EvCancel (List.length (contexts (rt s))) :: new ++
      EvWithTimeout (List.length (contexts (rt s))) deadline :: events (rt s) /\
    List.length script = (List.length rest + List.length (dialStarts new))%nat /\
    (List.length (dialStarts new) <= 50)%nat.
Proof.
  unfold CheckEthEngineLive. cbn [WithTimeout].
  set (t0 := now (rt s)). set (deadline := (t0 + 5 * Second)%N).
  set (ports := [EthPortHTTP cfg; EnginePortHTTP cfg]).
  set (s1 := with_rt _ s). intros H.
  destruct (portcheck deadline t0 (100 * Millisecond) ports t0 script s1)
    as [[[err2 s2] rest2]|] eqn:Hpc; [|discriminate].
  injection H as <- <- <-.
  assert (Hnow : now (rt s1) = t0) by reflexivity.
  destruct (portcheck_bounded deadline t0 (100 * Millisecond)%N
              ltac:(discriminate) script ports t0 s1 err2 s2 rest2)
    as (Hmono & Hend & new & Hev & Hlen & Hcount);
    [apply N.le_refl | rewrite Hnow; apply N.le_refl
     | rewrite Hnow; unfold deadline; apply N.le_add_r | exact Hpc |].
  apply portcheck_spec in Hpc.
  destruct Hpc as (new' & Hev' & Henv & HT & HC & Hcx & _ & Hres).
  assert (new' = new) by (rewrite Hev in Hev'; apply app_inv_tail in Hev'; auto).
  subst new'. cbv zeta.
  split; [exact Henv|]. split; [exact HT|]. split; [exact HC|].
  split.
  { cbn. rewrite Hcx. subst s1. cbn. apply cancelAt_last. }
  split; [exact Hmono|]. split; [exact Hend|].
  split.
  { intros Hne. destruct err2 as [e|]; [|contradiction].
    destruct Hres as (_ & _ & Hge). cbn. lia. }
  exists new. split; [cbn; rewrite Hev; reflexivity|]. split; [exact Hlen|].
  unfold deadline in Hcount.
  rewrite N.add_comm, N.add_sub, N.sub_diag in Hcount.
  change (5 * Second / (100 * Millisecond))%N with 50%N in Hcount.
  change (0 / (100 * Millisecond))%N with 0%N in Hcount. lia.
Qed.

(** X11.  The probe is over five seconds after it started at the latest,
    and exactly then when it reports the expired deadline.  It never dials
    more than fifty times, and every dial uses up one answer of the
    node. *)
Theorem CheckEthEngineLive_bounded script s err s' rest :
  CheckEthEngineLive cfg script s = Some (err, s', rest) ->
  (now (rt s) <= now (rt s') <= now (rt s) + 5 * Second)%N /\
  (err <> None -> now (rt s') = (now (rt s) + 5 * Second)%N) /\
  exists new older,
    events (rt s') = new ++ older /\
    List.length script = (List.length rest + List.length (dialStarts new))%nat /\
    (List.length (dialStarts new) <= 50)%nat /\
    dialStarts older = dialStarts (events (rt s)).
Proof.
  intros H.
  destruct (CheckEthEngineLive_effect script s err s' rest H)
    as (_ & _ & _ & _ & Hmono & Hend & Herr & new & Hev & Hlen & Hcount).
  split; [split; assumption|]. split; [exact Herr|].
  exists (EvCancel (List.length (contexts (rt s))) :: new),
         (EvWithTimeout (List.length (contexts (rt s)))
            (now (rt s) + 5 * Second) :: events (rt s)).
  split; [rewrite Hev; reflexivity|].
  cbn [dialStarts]. repeat split; assumption.
Qed.

(** X12.  The probe keeps to itself.  The environment, the test and the
    mock are as before; the one context it created has been cancelled
    exactly once when it returns, on success and on timeout alike, and no
    context that existed before has been touched. *)
Theorem CheckEthEngineLive_frame script s err s' rest :
  CheckEthEngineLive cfg script s = Some (err, s', rest) ->
  env s' = env s /\ T s' = T s /\ CLMock s' = CLMock s /\
  contexts (rt s') =
    contexts (rt s) ++
    [{| ctxDeadline := (now (rt s) + 5 * Second)%N; ctxCancels := 1 |}].
Proof.
  intros H.
  destruct (CheckEthEngineLive_effect script s err s' rest H)
    as (He & HT & HC & Hcx & _).
  repeat split; assumption.
Qed.

End ProberMore.

Section StartClientFacts.

Context (cfg : Config).

Variable launch : string -> list (string * string) -> M Client.

(** X13.  [StartClient] reports ports that never open as an error value:
    it returns the message about the ports with the error of the expired
    deadline, five seconds after the launch; it has then done nothing but
    probe (no engine client is created) and it neither marks the test
    failed nor ends it.  It returns the client with an engine client only
    once both ports have answered, and the engine client is created after
    the probe. *)
Theorem StartClient_result clientType params ttd script s c s0 res s' rest :
  launch clientType params s = (Ok c, s0) ->
  StartClient cfg launch clientType params ttd script s = Some (res, s', rest) ->
  let ctx := List.length (contexts (rt s0)) in
  let deadline := (now (rt s0) + 5 * Second)%N in
  let ports := [EthPortHTTP cfg; EnginePortHTTP cfg] in
  T s' = T s0 /\ env s' = env s0 /\
  exists probe,
    (res = Ok (inl (c, EngineClientFor c ttd)) /\
     (now (rt s') < deadline)%N /\
     events (rt s') =
       EvNewEngineClient ttd :: EvCancel ctx :: probe ++
       EvWithTimeout ctx deadline :: events (rt s0) /\
     Probed ports (rev probe))
    \/
    (res = Ok (inr (portsNeverOpen DeadlineExceeded)) /\
     now (rt s') = deadline /\
     events (rt s') =
       EvCancel ctx :: probe ++ EvWithTimeout ctx deadline :: events (rt s0) /\
     Interrupted ports (rev probe)).
Proof.
  intros Hlaunch. unfold StartClient. rewrite Hlaunch.
  destruct (CheckEthEngineLive cfg script s0) as [[[err s1] rest1]|] eqn:Hlive;
    [|discriminate].
  destruct (CheckEthEngineLive_effect cfg script s0 err s1 rest1 Hlive)
    as (He & HT & _ & _ & _ & _ & Herr & _).
  destruct (CheckEthEngineLive_returns cfg script s0 err s1 rest1 Hlive)
    as (new & Hev & _ & Hres).
  destruct err as [e|].
  - intros [= <- <- <-]. cbv zeta. split; [exact HT|]. split; [exact He|].
    exists new. right. destruct Hres as (-> & Hint & _).
    split; [reflexivity|]. split; [apply Herr; discriminate|].
    split; [exact Hev|exact Hint].
  - cbn [NewEngineClient]. intros [= <- <- <-]. cbv zeta.
    split; [exact HT|]. split; [exact He|].
    exists new. left. destruct Hres as (Hprobed & Hlt).
    split; [reflexivity|]. split; [exact Hlt|].
    split; [cbn; rewrite Hev; reflexivity|exact Hprobed].
Qed.

End StartClientFacts.

(** * More on the orchestrator *)

Section OrchestratorMore.

Context (cfg : Config).

(** What the deferred calls do, starting in any state. *)
Lemma runDefers_effect s :
  let after := runDefers pendingDefers s in
  let early := runDefers (tl pendingDefers) s in
  events (rt (snd after)) = cleanupEvents s true ++ events (rt s) /\
  events (rt (snd early)) = cleanupEvents s false ++ events (rt s) /\
  fst after = brokenCtx s /\ fst early = brokenCtx s /\
  contexts (rt (snd after)) = cleanupContexts s /\
  contexts (rt (snd early)) = cleanupContexts s /\
  T (snd after) = T s /\ T (snd early) = T s /\
  env (snd after) = env s /\ env (snd early) = env s /\
  CLMock (snd after) = CLMock s /\ CLMock (snd early) = CLMock s /\
  now (rt (snd after)) = now (rt s) /\ now (rt (snd early)) = now (rt s).
Proof.
  unfold pendingDefers, tl, runDefers, runDeferred, bind, get, produceSingleBlock,
    modify, ret, panic, cleanupEvents, cancelEvents, syncEvents, lastBlockEvents,
    cleanupContexts, cancelBy, brokenCtx, Failed.
  destruct (TTDReached (CLMock s) && negb (failed (T s))); cbn;
    destruct (syncCancel (env s)) as [[k]|]; cbn;
    destruct (lastCtx (env s)) as [c|]; cbn;
    try (destruct (lastCancel (env s)) as [[k']|]; cbn);
    repeat split; reflexivity.
Qed.

(** X14.  Once the ports are open and the test body has ended in the state
    [sb], whichever way it ended, and no last block is due (TTD was not
    reached, or the test has failed), [RunTest] runs its deferred calls in
    the reverse order of their registration: the last-block call, which
    does nothing then, the cancellation of the sync wait, the closing of
    the test-end channel, the cancellation of the context held, and then
    the closing of the RPC client, of the engine client and of the clients
    of the mock.  They change neither the log nor the failure flag nor the
    environment nor the clock, and [RunTest] ends the way the body
    ended. *)
Theorem RunTest_cleanup testName ttd slotsToSafe slotsToFinalized timeout fn
    policy script s s1 script1 res sb rest :
  let s0 := fst (RunTest_setup cfg testName ttd slotsToSafe slotsToFinalized policy s) in
  CheckEthEngineLive cfg script s0 = Some (None, s1, script1) ->
  fn script1 (RunTest_arm timeout s1) = Some (res, sb, rest) ->
  brokenCtx sb = false ->
  TTDReached (CLMock sb) && negb (Failed sb) = false ->
  exists sf,
    RunTest cfg testName ttd slotsToSafe slotsToFinalized timeout fn policy script s
    = Some (res, sf, rest) /\
    events (rt sf) = cleanupEvents sb false ++ events (rt sb) /\
    contexts (rt sf) = cleanupContexts sb /\
    T sf = T sb /\ env sf = env sb /\ CLMock sf = CLMock sb /\
    now (rt sf) = now (rt sb).
Proof.
  intros s0 Hlive Hfn Hok Hdue. unfold RunTest.
  rewrite (surjective_pairing (RunTest_setup cfg testName ttd slotsToSafe
                                 slotsToFinalized policy s)).
  rewrite RunTest_setup_defers. fold s0. rewrite Hlive, Hfn. unfold leave.
  destruct (runDefers_effect sb)
    as (Hev & _ & Hp & _ & Hcx & _ & HT & _ & He & _ & HC & _ & Hn & _).
  cbv zeta in *.
  change (DeferLastBlock :: tl pendingDefers) with pendingDefers.
  rewrite Hp, Hok.
  assert (Hsame : cleanupEvents sb true = cleanupEvents sb false).
  { unfold cleanupEvents, lastBlockEvents. rewrite Hdue. reflexivity. }
  rewrite Hsame in Hev.
  eexists. split; [reflexivity|]. repeat split; assumption.
Qed.

(** X15.  When the ports never open, [RunTest] ends the test on the spot:
    it logs that the ports were never open, with the error of the expired
    deadline, marks the test failed and exits.  The test body is not run,
    the global timeout is never armed, no transaction has been built, and
    of the deferred calls those registered so far run: the test-end channel
    and the three handles are closed. *)
Theorem RunTest_ports_never_open testName ttd slotsToSafe slotsToFinalized timeout
    fn policy script s e s1 script1 :
  let s0 := fst (RunTest_setup cfg testName ttd slotsToSafe slotsToFinalized policy s) in
  CheckEthEngineLive cfg script s0 = Some (Some e, s1, script1) ->
  exists sf,
    RunTest cfg testName ttd slotsToSafe slotsToFinalized timeout fn policy script s
    = Some (Goexit, sf, script1) /\
    events (rt sf) =
      [EvCloseClients; EvEngineClose; EvRPCClose; EvCloseTestend] ++ events (rt s1) /\
    logs (T sf) = logs (T s) ++ [FailPorts testName DeadlineExceeded] /\
    Failed sf = true /\
    env sf = newTestEnv testName policy /\
    now (rt sf) = (now (rt s) + 5 * Second)%N.
Proof.
  intros s0 Hlive. unfold RunTest.
  rewrite (surjective_pairing (RunTest_setup cfg testName ttd slotsToSafe
                                 slotsToFinalized policy s)).
  rewrite RunTest_setup_defers. fold s0. rewrite Hlive. unfold leave.
  destruct (CheckEthEngineLive_effect cfg script s0 (Some e) s1 script1 Hlive)
    as (He & HT & _ & _ & _ & _ & Herr & _).
  destruct (CheckEthEngineLive_returns cfg script s0 (Some e) s1 script1 Hlive)
    as (new & _ & _ & -> & _).
  set (sx := snd (Fatalf (FailPorts (TestName (env s1)) DeadlineExceeded) s1)).
  assert (Hex : env sx = newTestEnv testName policy) by (cbn; rewrite He; reflexivity).
  destruct (runDefers_effect sx)
    as (_ & Hev & _ & Hp & _ & _ & _ & HT' & _ & He' & _ & _ & _ & Hn).
  cbv zeta in *.
  change (fst (Fatalf (FailPorts (TestName (env s1)) DeadlineExceeded) s1))
    with (@Goexit unit).
  fold sx. rewrite Hp.
  assert (Hb : brokenCtx sx = false) by (unfold brokenCtx; rewrite Hex; reflexivity).
  rewrite Hb.
  eexists. split; [reflexivity|].
  split.
  { rewrite Hev. unfold cleanupEvents. rewrite Hex. reflexivity. }
  split.
  { rewrite HT'. cbn. rewrite HT, He. reflexivity. }
  split; [unfold Failed; rewrite HT'; reflexivity|].
  split; [rewrite He'; exact Hex|].
  rewrite Hn. cbn. apply Herr. discriminate.
Qed.

(** X16.  The test body starts in a fresh environment: nonce 0, the policy
    of the test, no context held; the test and the mock are those given to
    [RunTest].  The global timeout, of the environment and of the mock
    alike, is armed once the ports have answered, so that it fires
    [timeout] after the end of the probe, which itself took less than five
    seconds. *)
Theorem RunTest_body_start testName ttd slotsToSafe slotsToFinalized timeout fn
    policy script s s1 script1 :
  let s0 := fst (RunTest_setup cfg testName ttd slotsToSafe slotsToFinalized policy s) in
  CheckEthEngineLive cfg script s0 = Some (None, s1, script1) ->
  let start := RunTest_arm timeout s1 in
  RunTest cfg testName ttd slotsToSafe slotsToFinalized timeout fn policy script s
  = match fn script1 start with
    | None => None
    | Some (res, sb, rest) => leave res pendingDefers sb rest
    end /\
  env start = set_Timeout (Some (now (rt start) + timeout)%N)
                (newTestEnv testName policy) /\
  CLMock start = set_clTimeout (Some (now (rt start) + timeout)%N) (CLMock s) /\
  T start = T s /\
  (now (rt s) <= now (rt start) < now (rt s) + 5 * Second)%N.
Proof.
  intros s0 Hlive start. unfold RunTest.
  rewrite (surjective_pairing (RunTest_setup cfg testName ttd slotsToSafe
                                 slotsToFinalized policy s)).
  rewrite RunTest_setup_defers. fold s0. rewrite Hlive. fold start.
  destruct (CheckEthEngineLive_effect cfg script s0 None s1 script1 Hlive)
    as (He & HT & HC & _ & Hmono & _).
  destruct (CheckEthEngineLive_returns cfg script s0 None s1 script1 Hlive)
    as (new & _ & _ & _ & Hlt).
  split; [reflexivity|].
  subst start. unfold RunTest_arm. cbn.
  rewrite He, HC, HT. repeat split; assumption.
Qed.

End OrchestratorMore.

(** * More on the context accessor *)

Section CtxMore.

Context (cfg : Config).

(** What a call of [Ctx] leaves alone, whether it panics or not. *)
Lemma Ctx_frame s :
  let s' := snd (Ctx cfg s) in
  T s' = T s /\ CLMock s' = CLMock s /\
  nonce (env s') = nonce (env s) /\
  testTransactionType (env s') = testTransactionType (env s) /\
  Timeout (env s') = Timeout (env s) /\
  syncCancel (env s') = syncCancel (env s) /\
  TestName (env s') = TestName (env s).
Proof.
  unfold Ctx, bind, get.
  destruct (lastCtx (env s)) as [c|]; [destruct (lastCancel (env s)) as [[k]|]|];
    cbn; repeat split; reflexivity.
Qed.

Lemma CtxCalls_frame pauses :
  forall s,
    CtxInv s ->
    let s' := snd (CtxCalls cfg pauses s) in
    T s' = T s /\ CLMock s' = CLMock s /\
    nonce (env s') = nonce (env s) /\
    testTransactionType (env s') = testTransactionType (env s) /\
    Timeout (env s') = Timeout (env s) /\
    syncCancel (env s') = syncCancel (env s) /\
    now (rt s') = (now (rt s) + total pauses)%N /\
    List.length (contexts (rt s')) =
      (List.length (contexts (rt s)) + List.length pauses)%nat.
Proof.
  induction pauses as [|d rest IH]; intros s Hinv.
  - cbn. repeat split; try reflexivity; lia.
  - set (s0 := snd (sleep d s)).
    assert (Hinv0 : CtxInv s0) by exact Hinv.
    destruct (Ctx_step cfg s0 Hinv0) as (s1 & Hctx & Henv1 & Hnow1 & Hstore1).
    pose proof (Ctx_frame s0) as Hfr. rewrite Hctx in Hfr. cbn [snd] in Hfr.
    destruct Hfr as (F1 & F2 & F3 & F4 & F5 & F6 & _).
    assert (Hinv1 : CtxInv s1) by (unfold CtxInv; rewrite Henv1; reflexivity).
    assert (Hlen1 : List.length (contexts (rt s1))
                    = S (List.length (contexts (rt s)))).
    { destruct (lastCtx (env s0)); destruct Hstore1 as [-> _];
        rewrite length_app, ?cancelAt_length; cbn; lia. }
    specialize (IH s1 Hinv1). cbv zeta in IH.
    assert (Hrun : snd (CtxCalls cfg (d :: rest) s) = snd (CtxCalls cfg rest s1)).
    { assert (Hsleep : sleep d s = (Ok tt, s0)) by reflexivity.
      cbn [CtxCalls]. unfold bind at 1. rewrite Hsleep. cbv beta iota.
      unfold bind at 1. rewrite Hctx. cbv beta iota.
      unfold bind at 1. destruct (CtxCalls cfg rest s1) as [[ids| |] s2]; reflexivity. }
    cbv zeta. rewrite Hrun.
    destruct IH as (I1 & I2 & I3 & I4 & I5 & I6 & I7 & I8).
    rewrite I1, I2, I3, I4, I5, I6, I7, I8, F1, F2, F3, F4, F5, F6, Hnow1, Hlen1.
    cbn. repeat split; try reflexivity; lia.
Qed.

(** X18.  Asking for contexts touches nothing but the context held.  A
    context that was there before and is not the one the environment holds
    keeps its record, cancel count included; the one held is cancelled
    exactly once, by the first call.  The test, the mock, the nonce, the
    policy and the global timeout are as before, and no time passes but
    the pauses of the caller. *)
Theorem Ctx_spares_others pauses s :
  CtxInv s ->
  let s' := snd (CtxCalls cfg pauses s) in
  (forall c x, nth_error (contexts (rt s)) c = Some x ->
     lastCtx (env s) <> Some c ->
     nth_error (contexts (rt s')) c = Some x) /\
  (forall c x, nth_error (contexts (rt s)) c = Some x ->
     lastCtx (env s) = Some c -> pauses <> [] ->
     nth_error (contexts (rt s')) c = Some (cancelled x)) /\
  T s' = T s /\ CLMock s' = CLMock s /\
  nonce (env s') = nonce (env s) /\
  testTransactionType (env s') = testTransactionType (env s) /\
  Timeout (env s') = Timeout (env s) /\
  now (rt s') = (now (rt s) + total pauses)%N.
Proof.
  intros Hinv s'.
  destruct (CtxCalls_spec cfg pauses s Hinv)
    as (s2 & new & Hrun & _ & _ & _ & _ & _ & Hkeep & Hbump & _).
  destruct (CtxCalls_frame pauses s Hinv) as (F1 & F2 & F3 & F4 & F5 & _ & F7 & _).
  subst s'. rewrite Hrun in *. cbn [snd] in *.
  split; [intros c x Hc Hne; apply (Hkeep c x Hc); left; exact Hne|].
  split; [exact Hbump|].
  repeat split; assumption.
Qed.

(** The contexts once a body that asked for contexts has ended and the
    deferred calls have run. *)
Lemma asked_contexts_cleaned pauses s :
  lastCtx (env s) = None -> syncCancel (env s) = None ->
  let first := List.length (contexts (rt s)) in
  let n := List.length pauses in
  exists s',
    CtxCalls cfg pauses s = (Ok (seq first n), s') /\
    brokenCtx s' = false /\
    List.length (cleanupContexts s') = (first + n)%nat /\
    (forall c x, nth_error (contexts (rt s)) c = Some x ->
       nth_error (cleanupContexts s') c = Some x) /\
    (forall i, (i < n)%nat ->
       option_map ctxCancels (nth_error (cleanupContexts s') (first + i))
       = Some 1%nat).
Proof.
  intros Hnone Hsync first n.
  assert (Hinv : CtxInv s) by (unfold CtxInv; rewrite Hnone; exact I).
  destruct (CtxCalls_spec cfg pauses s Hinv)
    as (s' & new & Hrun & _ & _ & Hinv' & Hsame & Hheld & Hkeep & _ & Hfresh).
  fold first n in Hrun, Hheld, Hfresh.
  destruct (CtxCalls_frame pauses s Hinv) as (_ & _ & _ & _ & _ & F6 & _ & F8).
  rewrite Hrun in F6, F8. cbn [snd] in F6, F8. fold first n in F8.
  rewrite Hsync in F6.
  exists s'. split; [exact Hrun|].
  destruct pauses as [|d rest].
  - rewrite (Hsame eq_refl) in *.
    unfold brokenCtx, cleanupContexts. rewrite Hnone, Hsync. cbn [cancelBy].
    split; [reflexivity|]. split; [subst n; cbn; lia|].
    split; [intros c x Hc; exact Hc|]. intros i Hi. inversion Hi.
  - specialize (Hheld ltac:(discriminate)).
    assert (Hn : n = S (List.length rest)) by reflexivity.
    unfold CtxInv in Hinv'. rewrite Hheld in Hinv'.
    unfold brokenCtx, cleanupContexts. rewrite Hheld, Hinv', F6. cbn [cancelBy].
    split; [reflexivity|]. split; [rewrite cancelAt_length; exact F8|].
    split.
    + intros c x Hc.
      assert (Hlt : (c < first)%nat) by (apply nth_error_Some; congruence).
      rewrite cancelAt_other by lia.
      apply (Hkeep c x Hc). left. rewrite Hnone. discriminate.
    + intros i Hi. pose proof (Hfresh i Hi) as Hrec.
      destruct (Nat.eq_dec (first + n - 1) (first + i)) as [E|E].
      * destruct (Nat.ltb_spec (S i) n) as [Hlt|Hge]; [lia|].
        rewrite E, (cancelAt_same _ _ _ Hrec). reflexivity.
      * destruct (Nat.ltb_spec (S i) n) as [Hlt|Hge]; [|lia].
        rewrite cancelAt_other by exact E. rewrite Hrec. reflexivity.
Qed.

(** X17.  No context outlives a test.  When [RunTest] has run a body that
    asked the environment for contexts, every context created during the
    run, the one of the probe and each one handed out by [Ctx], has been
    cancelled exactly once when [RunTest] ends, also when the ports never
    opened; the contexts that existed before the run are untouched, and
    [RunTest] does not panic. *)
Theorem RunTest_cancels_every_context testName ttd slotsToSafe slotsToFinalized
    timeout pauses policy script s res sf rest :
  RunTest cfg testName ttd slotsToSafe slotsToFinalized timeout
          (bodyAsking cfg pauses) policy script s = Some (res, sf, rest) ->
  let before := List.length (contexts (rt s)) in
  res <> Panic /\
  (before < List.length (contexts (rt sf)))%nat /\
  (forall c x, nth_error (contexts (rt s)) c = Some x ->
     nth_error (contexts (rt sf)) c = Some x) /\
  (forall c, (before <= c < List.length (contexts (rt sf)))%nat ->
     cancelsOf sf c = Some 1%nat).
Proof.
  unfold RunTest.
  rewrite (surjective_pairing (RunTest_setup cfg testName ttd slotsToSafe
                                 slotsToFinalized policy s)).
  rewrite RunTest_setup_defers.
  set (s0 := fst (RunTest_setup cfg testName ttd slotsToSafe slotsToFinalized
                    policy s)).
  assert (Hcx0 : contexts (rt s0) = contexts (rt s)) by reflexivity.
  assert (Henv0 : env s0 = newTestEnv testName policy) by reflexivity.
  destruct (CheckEthEngineLive cfg script s0) as [[[err s1] script1]|] eqn:Hlive;
    [|discriminate].
  destruct (CheckEthEngineLive_effect cfg script s0 err s1 script1 Hlive)
    as (He & _ & _ & Hcx & _).
  rewrite Hcx0 in Hcx. rewrite Henv0 in He.
  set (probe := {| ctxDeadline := (now (rt s0) + 5 * Second)%N; ctxCancels := 1 |})
    in Hcx.
  assert (Hold1 : forall c x, nth_error (contexts (rt s)) c = Some x ->
                    nth_error (contexts (rt s1)) c = Some x).
  { intros c x Hc. rewrite Hcx, nth_error_app1; [exact Hc|].
    apply nth_error_Some. congruence. }
  assert (Hprobe1 : nth_error (contexts (rt s1)) (List.length (contexts (rt s)))
                    = Some probe).
  { rewrite Hcx, nth_error_app2, Nat.sub_diag by lia. reflexivity. }
  assert (Hlen1 : List.length (contexts (rt s1))
                  = S (List.length (contexts (rt s)))).
  { rewrite Hcx, length_app. cbn. lia. }
  destruct err as [e|].
  - (* the ports never opened *)
    unfold leave. cbv zeta.
    set (sx := snd (@Fatalf unit (FailPorts (TestName (env s1)) e) s1)).
    assert (Hex : env sx = newTestEnv testName policy) by exact He.
    destruct (runDefers_effect sx)
      as (_ & _ & _ & Hp & _ & Hcxf & _).
    cbv zeta in Hp, Hcxf. rewrite Hp.
    assert (Hb : brokenCtx sx = false) by (unfold brokenCtx; rewrite Hex; reflexivity).
    rewrite Hb.
    assert (Hcxf' : contexts (rt (snd (runDefers (tl pendingDefers) sx)))
                    = contexts (rt s1)).
    { rewrite Hcxf. unfold cleanupContexts. rewrite Hex. reflexivity. }
    set (sfx := snd (runDefers (tl pendingDefers) sx)) in *.
    intros [= <- <- <-]. cbv zeta.
    unfold cancelsOf. rewrite Hcxf'.
    split; [discriminate|]. split; [lia|]. split; [exact Hold1|].
    intros c Hc. assert (c = List.length (contexts (rt s))) by lia. subst c.
    rewrite Hprobe1. reflexivity.
  - (* the body ran *)
    set (start := RunTest_arm timeout s1).
    assert (Hs1 : lastCtx (env start) = None) by (cbn; rewrite He; reflexivity).
    assert (Hs2 : syncCancel (env start) = None) by (cbn; rewrite He; reflexivity).
    destruct (asked_contexts_cleaned pauses start Hs1 Hs2)
      as (s' & Hrun & Hb & Hlen & Hkeep & Hnew).
    change (contexts (rt start)) with (contexts (rt s1)) in Hrun, Hlen, Hkeep, Hnew.
    unfold bodyAsking. rewrite Hrun. unfold leave.
    change (DeferLastBlock :: tl pendingDefers) with pendingDefers.
    destruct (runDefers_effect s') as (_ & _ & Hp & _ & Hcxf & _).
    cbv zeta in Hp, Hcxf. rewrite Hp, Hb.
    set (sfx := snd (runDefers pendingDefers s')) in *.
    intros [= <- <- <-]. cbv zeta. unfold cancelsOf. rewrite Hcxf, Hlen, Hlen1.
    split; [discriminate|]. split; [lia|].
    split; [intros c x Hc; apply Hkeep, Hold1, Hc|].
    intros c Hc.
    destruct (Nat.eq_dec c (List.length (contexts (rt s)))) as [->|Hne].
    + rewrite (Hkeep _ _ Hprobe1). reflexivity.
    + replace c with (List.length (contexts (rt s1))
                      + (c - S (List.length (contexts (rt s)))))%nat by lia.
      apply Hnew. lia.
Qed.

End CtxMore.

(** * The check of proof-of-work progress *)

Section PoWFacts.

Context (cfg : Config).

Lemma waitOutcomeT_ok e timeout tieBit :
  waitOK timeout (EvWait e (snd (waitOutcomeT e timeout tieBit))
                         (fst (waitOutcomeT e timeout tieBit))).
Proof.
  unfold waitOutcomeT, select2, waitOK, waitEnd, Second.
  destruct timeout as [D|]; cbn [fst snd negb].
  - destruct (N.ltb_spec (N.max e D) (N.max e (e + 1000000000))) as [H|H];
      cbn [fst snd negb].
    + split; [lia|]. split; [|discriminate]. intros _. exists D.
      split; [reflexivity|lia].
    + destruct (N.ltb_spec (N.max e (e + 1000000000)) (N.max e D)) as [H'|H'];
        cbn [fst snd negb].
      * split; [lia|]. split; [discriminate|]. intros _. split; [lia|].
        intros D' [= <-]. lia.
      * destruct tieBit; cbn [negb fst snd].
        -- split; [lia|]. split; [discriminate|]. intros _. split; [lia|].
           intros D' [= <-]. lia.
        -- split; [lia|]. split; [|discriminate]. intros _. exists D.
           split; [reflexivity|lia].
  - split; [lia|]. split; [discriminate|]. intros _. split; [lia|]. discriminate.
Qed.


(** A request under a consistent environment: [Ctx] hands out the next
    context of the store. *)
Lemma Ctx_returns s :
  CtxInv s -> Ctx cfg s = (Ok (List.length (contexts (rt s))), snd (Ctx cfg s)).
Proof.
  intros Hinv. destruct (Ctx_step cfg s Hinv) as (s1 & H & _). rewrite H. reflexivity.
Qed.

Lemma requested_facts mk a s :
  CtxInv s ->
  let c := List.length (contexts (rt s)) in
  let s2 := requested cfg mk a s in
  CtxInv s2 /\ held s2 = [c] /\
  List.length (contexts (rt s2)) = S c /\
  now (rt s2) = (now (rt s) + took (reply a))%N /\
  T s2 = T s /\ CLMock s2 = CLMock s /\
  Timeout (env s2) = Timeout (env s) /\ TestName (env s2) = TestName (env s) /\
  nonce (env s2) = nonce (env s) /\
  exists deadline,
    events (rt s2) =
      mk c (now (rt s)) (accepted (reply a)) :: EvWithTimeout c deadline ::
      prior s ++ events (rt s).
Proof.
  intros Hinv c s2. subst s2. unfold requested, prior.
  destruct (Ctx_step cfg s Hinv) as (s1 & H & Henv & Hnow & Hstore).
  pose proof (Ctx_frame cfg s) as Hfr. rewrite H in *. cbn [snd] in *.
  destruct Hfr as (F1 & F2 & F3 & F4 & F5 & F6 & F7).
  fold c in Henv, Hstore.
  split; [unfold CtxInv; cbn; rewrite Henv; reflexivity|].
  split; [unfold held; cbn; rewrite Henv; reflexivity|].
  split.
  { cbn. destruct (lastCtx (env s)); destruct Hstore as [-> _];
      rewrite length_app, ?cancelAt_length; cbn; unfold c; lia. }
  split; [cbn; rewrite Hnow; reflexivity|].
  split; [exact F1|]. split; [exact F2|]. split; [exact F5|].
  split; [exact F7|]. split; [exact F3|].
  eexists. cbn. rewrite Hnow.
  destruct (lastCtx (env s)); destruct Hstore as [_ ->]; reflexivity.
Qed.

(** One turn of the loop. *)
Lemma headerLoop_cons nextNum a script s :
  CtxInv s ->
  headerLoop cfg nextNum (a :: script) s =
  let name := TestName (env s) in
  let s2 := requested cfg (fun c => EvHeaderByNumber c nextNum) a s in
  match failure (reply a) with
  | None =>
      if carried a =? 0 then
        Some (Goexit, ended (FailZeroDifficulty name (carried a)) s2, script)
      else Some (Ok tt, s2, script)
  | Some err =>
      let s3 := told (InfoTryAgain name err) s2 in
      let w := waitOutcomeT (now (rt s2)) (Timeout (env s)) (tie (reply a)) in
      let s4 := afterWait (now (rt s2)) (snd w) (fst w) s3 in
      if fst w then Some (Goexit, ended (FailPoWTimeout name) s4, script)
      else headerLoop cfg nextNum script s4
  end.
Proof.
  intros Hinv.
  destruct (requested_facts (fun c => EvHeaderByNumber c nextNum) a s Hinv)
    as (_ & _ & _ & _ & _ & _ & Hto & Hname & _).
  cbn [headerLoop]. rewrite (Ctx_returns s Hinv). cbv zeta in *.
  fold (requested cfg (fun c => EvHeaderByNumber c nextNum) a s).
  set (s2 := requested cfg (fun c => EvHeaderByNumber c nextNum) a s) in *.
  destruct (failure (reply a)) as [err|].
  - unfold Logf, modify. cbn [snd].
    change (with_T _ s2) with (told (InfoTryAgain (TestName (env s2)) err) s2).
    rewrite Hname.
    set (s3 := told (InfoTryAgain (TestName (env s)) err) s2).
    change (now (rt s3)) with (now (rt s2)).
    change (Timeout (env s3)) with (Timeout (env s2)). rewrite Hto.
    unfold waitOutcomeT.
    destruct (select2 (now (rt s2)) (Timeout (env s))
                (Some (now (rt s2) + Second)%N)) as [b t|t|] eqn:Hsel.
    + cbn [fst snd]. destruct b; cbn [negb]; [reflexivity|].
      unfold Fatalf. cbn [fst snd]. unfold ended, afterWait.
      cbn [with_rt env]. change (env s3) with (env s2). rewrite Hname. reflexivity.
    + cbn [fst snd]. destruct (tie (reply a)); cbn [negb]; [reflexivity|].
      unfold Fatalf. cbn [fst snd]. unfold ended, afterWait.
      cbn [with_rt env]. change (env s3) with (env s2). rewrite Hname. reflexivity.
    + unfold select2 in Hsel. destruct (Timeout (env s)); [|discriminate].
      destruct (_ <? _)%N; [discriminate|].
      destruct (_ <? _)%N; discriminate.
  - unfold big0. destruct (carried a =? 0); [|reflexivity].
    unfold Fatalf. cbn [fst snd]. rewrite Hname. reflexivity.
Qed.

(** Projections of a state after the last steps of a turn. *)
Ltac after_turn :=
  unfold ended, told, afterWait;
  cbn [with_T with_rt with_env rt T env CLMock events now contexts emit set_now
       failed logs].





Lemma askedCtxs_app evs evs' :
  askedCtxs (evs ++ evs') = askedCtxs evs ++ askedCtxs evs'.
Proof.
  induction evs as [|e evs IH]; [reflexivity|].
  destruct e; cbn [askedCtxs app]; rewrite ?IH; reflexivity.
Qed.

Lemma askedNumbers_app evs evs' :
  askedNumbers (evs ++ evs') = askedNumbers evs ++ askedNumbers evs'.
Proof.
  induction evs as [|e evs IH]; [reflexivity|].
  destruct e; cbn [askedNumbers app]; rewrite ?IH; reflexivity.
Qed.

Lemma askedHashes_app evs evs' :
  askedHashes (evs ++ evs') = askedHashes evs ++ askedHashes evs'.
Proof.
  induction evs as [|e evs IH]; [reflexivity|].
  destruct e; cbn [askedHashes app]; rewrite ?IH; reflexivity.
Qed.

Lemma failedHeaders_app evs evs' :
  failedHeaders (evs ++ evs') = (failedHeaders evs + failedHeaders evs')%nat.
Proof.
  induction evs as [|e evs IH]; [reflexivity|].
  destruct e as [| | | | | | | | | | | | | | | |c n st [|]];
    cbn [failedHeaders app]; rewrite ?IH; reflexivity.
Qed.

Lemma followed_app evs evs' :
  forall b, followed b evs -> (forall b', followed b' evs') ->
            followed b (evs ++ evs').
Proof.
  induction evs as [|e evs IH]; intros b H H'; [apply H'|].
  destruct e as [| | | | | | | | | | | | | | | |c n st [|]];
    cbn [followed app] in *; try (apply IH; assumption).
  destruct H as [Hb H]. split; [exact Hb|]. apply IH; assumption.
Qed.

(** The cancellation at the start of a call of [Ctx] is no request and no
    wait. *)
Lemma prior_quiet s :
  askedCtxs (rev (prior s)) = [] /\ askedNumbers (rev (prior s)) = [] /\
  askedHashes (rev (prior s)) = [] /\ waits (prior s) = 0%nat /\
  failedHeaders (prior s) = 0%nat /\ (forall b, followed b (prior s)) /\
  forall timeout, Forall (waitOK timeout) (prior s).
Proof.
  unfold prior. destruct (lastCtx (env s)); cbn; repeat split;
    repeat constructor.
Qed.

Lemma peakOpen_call s c deadline tail :
  (peakOpen [c] tail <= 1)%nat ->
  (peakOpen (held s) (rev (prior s) ++ EvWithTimeout c deadline :: tail) <= 1)%nat.
Proof.
  intros Ht. unfold held, prior. destruct (lastCtx (env s)) as [p|].
  - cbn [rev app peakOpen List.length filter]. rewrite Nat.eqb_refl.
    cbn [negb List.length].
    apply Nat.max_lub; [lia|]. apply Nat.max_lub; [lia|exact Ht].
  - cbn [rev app peakOpen List.length]. apply Nat.max_lub; [lia|exact Ht].
Qed.

Lemma failure_accepted r err : failure r = Some err -> accepted r = false.
Proof. unfold accepted. intros ->. reflexivity. Qed.

(** What a run of the loop asks and when it waits. *)
Lemma headerLoop_trace nextNum script :
  forall s res s' rest,
    CtxInv s ->
    headerLoop cfg nextNum script s = Some (res, s', rest) ->
    let first := List.length (contexts (rt s)) in
    let used := (List.length script - List.length rest)%nat in
    (List.length rest < List.length script)%nat /\
    CtxInv s' /\
    held s' = [(first + used - 1)%nat] /\
    List.length (contexts (rt s')) = (first + used)%nat /\
    exists new,
      events (rt s') = new ++ events (rt s) /\
      Forall (waitOK (Timeout (env s))) new /\
      (peakOpen (held s) (rev new) <= 1)%nat /\
      askedCtxs (rev new) = seq first used /\
      askedNumbers (rev new) = repeat nextNum used /\
      askedHashes (rev new) = [] /\
      waits new = failedHeaders new /\
      forall b, followed b new.
Proof.
  induction script as [|a script IH]; intros s res s' rest Hinv H.
  - discriminate H.
  - rewrite (headerLoop_cons nextNum a script s Hinv) in H. cbv zeta in H.
    destruct (requested_facts (fun c => EvHeaderByNumber c nextNum) a s Hinv)
      as (Hinv2 & Hheld2 & Hlen2 & Hnow2 & HT2 & HC2 & Hto2 & Hname2 & Hnonce2
          & dl & Hev2).
    destruct (prior_quiet s) as (Pc & Pn & Ph & Pw & Pf & Pfol & Pok).
    cbv zeta in *.
    set (c := List.length (contexts (rt s))) in *.
    set (s2 := requested cfg (fun c => EvHeaderByNumber c nextNum) a s) in *.
    assert (Hlast :
              rest = script ->
              (List.length rest < List.length (a :: script))%nat /\
              (c + (List.length (a :: script) - List.length rest) - 1 = c)%nat /\
              (c + (List.length (a :: script) - List.length rest) = S c)%nat /\
              seq c (List.length (a :: script) - List.length rest) = [c] /\
              repeat nextNum (List.length (a :: script) - List.length rest)
              = [nextNum]).
    { intros ->. cbn [List.length].
      replace (S (List.length script) - List.length script)%nat with 1%nat by lia.
      repeat split; try reflexivity; lia. }
    destruct (failure (reply a)) as [err|] eqn:Hf.
    + pose proof (failure_accepted _ _ Hf) as Hacc.
      pose proof (waitOutcomeT_ok (now (rt s2)) (Timeout (env s)) (tie (reply a)))
        as Hw.
      destruct (waitOutcomeT (now (rt s2)) (Timeout (env s)) (tie (reply a)))
        as [b t].
      cbn [fst snd] in *. destruct b.
      * injection H as <- <- <-.
        destruct (Hlast eq_refl) as (L1 & L2 & L3 & L4 & L5).
        split; [exact L1|]. split; [exact Hinv2|].
        split; [rewrite L2; exact Hheld2|].
        split; [rewrite L3; exact Hlen2|].
        exists (EvWait (now (rt s2)) t true ::
                EvHeaderByNumber c nextNum (now (rt s)) (accepted (reply a)) ::
                EvWithTimeout c dl :: prior s).
        after_turn.
        split; [rewrite Hev2; reflexivity|].
        split; [constructor; [exact Hw|]; repeat (constructor; [exact I|]);
                apply Pok|].
        cbn [rev]. rewrite <- ?app_assoc. cbn [app].
        split; [apply peakOpen_call; cbn; lia|].
        rewrite askedCtxs_app, askedNumbers_app, askedHashes_app, Pc, Pn, Ph, L4, L5.
        rewrite Hacc. cbn [app askedCtxs askedNumbers askedHashes waits failedHeaders].
        rewrite Pw, Pf.
        do 4 (split; [reflexivity|]).
        intros b. cbn [followed]. split; [reflexivity|apply Pfol].
      * set (s4 := afterWait (now (rt s2)) t false
                     (told (InfoTryAgain (TestName (env s)) err) s2)) in *.
        assert (Hinv4 : CtxInv s4) by exact Hinv2.
        destruct (IH s4 res s' rest Hinv4 H)
          as (Hlt & Hinv' & Hheld' & Hlen' & new & Hev & Hws & Hpk & Hctxs & Hnums
              & Hhash & Hwaits & Hfol).
        change (contexts (rt s4)) with (contexts (rt s2)) in *.
        change (held s4) with (held s2) in Hpk.
        change (events (rt s4))
          with (EvWait (now (rt s2)) t false :: events (rt s2)) in Hev.
        change (env s4) with (env s2) in *.
        rewrite Hlen2 in *. rewrite Hheld2 in Hpk. rewrite Hto2 in *.
        assert (Hused : (List.length (a :: script) - List.length rest
                         = S (List.length script - List.length rest))%nat)
          by (cbn [List.length]; lia).
        rewrite Hused.
        split; [cbn [List.length]; lia|]. split; [exact Hinv'|].
        split; [rewrite Hheld'; f_equal; lia|].
        split; [rewrite Hlen'; lia|].
        exists (new ++ EvWait (now (rt s2)) t false ::
                EvHeaderByNumber c nextNum (now (rt s)) (accepted (reply a)) ::
                EvWithTimeout c dl :: prior s).
        split; [rewrite Hev, Hev2, <- app_assoc; reflexivity|].
        split.
        { apply Forall_app. split; [exact Hws|].
          constructor; [exact Hw|]. repeat (constructor; [exact I|]). apply Pok. }
        rewrite rev_app_distr. cbn [rev]. rewrite <- !app_assoc. cbn [app].
        split; [apply peakOpen_call; cbn [peakOpen]; exact Hpk|].
        rewrite askedCtxs_app, askedNumbers_app, askedHashes_app, Pc, Pn, Ph.
        cbn [app askedCtxs askedNumbers askedHashes seq repeat].
        rewrite Hctxs, Hnums, Hhash.
        split; [reflexivity|]. split; [reflexivity|]. split; [reflexivity|].
        rewrite waits_app, failedHeaders_app, Hacc.
        cbn [waits failedHeaders]. rewrite Pw, Pf, Hwaits.
        split; [reflexivity|].
        intros b. apply followed_app; [apply Hfol|].
        intros b'. cbn [followed]. split; [reflexivity|apply Pfol].
    + pose proof (proj2 (accepted_failure (reply a)) Hf) as Hacc.
      assert (Hdone : forall s'', events (rt s'') = events (rt s2) ->
                CtxInv s'' -> held s'' = held s2 ->
                contexts (rt s'') = contexts (rt s2) ->
                s' = s'' -> rest = script ->
                (List.length rest < List.length (a :: script))%nat /\
                CtxInv s' /\
                held s' = [(c + (List.length (a :: script) - List.length rest) - 1)%nat] /\
                List.length (contexts (rt s')) =
                  (c + (List.length (a :: script) - List.length rest))%nat /\
                exists new,
                  events (rt s') = new ++ events (rt s) /\
                  Forall (waitOK (Timeout (env s))) new /\
                  (peakOpen (held s) (rev new) <= 1)%nat /\
                  askedCtxs (rev new)
                  = seq c (List.length (a :: script) - List.length rest) /\
                  askedNumbers (rev new)
                  = repeat nextNum (List.length (a :: script) - List.length rest) /\
                  askedHashes (rev new) = [] /\
                  waits new = failedHeaders new /\
                  forall b, followed b new).
      { intros s'' Hev'' Hinv'' Hheld'' Hcx'' -> ->.
        destruct (Hlast eq_refl) as (L1 & L2 & L3 & L4 & L5).
        split; [exact L1|]. split; [exact Hinv''|].
        split; [rewrite L2, Hheld''; exact Hheld2|].
        split; [rewrite L3, Hcx''; exact Hlen2|].
        exists (EvHeaderByNumber c nextNum (now (rt s)) (accepted (reply a)) ::
                EvWithTimeout c dl :: prior s).
        split; [rewrite Hev'', Hev2; reflexivity|].
        split; [repeat (constructor; [exact I|]); apply Pok|].
        cbn [rev]. rewrite <- ?app_assoc. cbn [app].
        split; [apply peakOpen_call; cbn; lia|].
        rewrite askedCtxs_app, askedNumbers_app, askedHashes_app, Pc, Pn, Ph, L4, L5.
        rewrite Hacc. cbn [app askedCtxs askedNumbers askedHashes waits failedHeaders].
        rewrite Pw, Pf.
        do 4 (split; [reflexivity|]).
        intros b. cbn [followed]. apply Pfol. }
      destruct (carried a =? 0); injection H as <- <- <-.
      * apply (Hdone (ended (FailZeroDifficulty (TestName (env s)) (carried a)) s2));
          try reflexivity; exact Hinv2.
      * apply (Hdone s2); try reflexivity; exact Hinv2.
Qed.



(** The first request, and the loop after it. *)
Lemma verifyPoWProgress_cons lastBlockHash a script s :
  CtxInv s ->
  verifyPoWProgress cfg lastBlockHash (a :: script) s =
  let s2 := requested cfg (fun c => EvBlockByHash c lastBlockHash) a s in
  match failure (reply a) with
  | Some err =>
      Some (Goexit, ended (FailFetchBlock (TestName (env s)) err) s2, script)
  | None => headerLoop cfg (int64 (Int64 (carried a) + 1)) script s2
  end.
Proof.
  intros Hinv.
  destruct (requested_facts (fun c => EvBlockByHash c lastBlockHash) a s Hinv)
    as (_ & _ & _ & _ & _ & _ & _ & Hname & _).
  unfold verifyPoWProgress. rewrite (Ctx_returns s Hinv). cbv zeta in *.
  fold (requested cfg (fun c => EvBlockByHash c lastBlockHash) a s).
  destruct (failure (reply a)); [|reflexivity].
  unfold Fatalf. cbn [fst snd]. rewrite Hname. reflexivity.
Qed.

Lemma int64_small z : - 2 ^ 63 <= z < 2 ^ 63 -> int64 z = z.
Proof.
  intros Hz. unfold int64. rewrite Z.mod_small by lia. lia.
Qed.

Lemma Int64_small n : 0 <= n < 2 ^ 63 -> Int64 n = n.
Proof.
  intros Hn. unfold Int64.
  rewrite Z.abs_eq by lia. rewrite (Z.mod_small n) by lia. cbv zeta.
  rewrite (int64_small n) by lia.
  destruct (Z.ltb_spec n 0); [lia|reflexivity].
Qed.

Lemma int64_next n :
  0 <= n < 2 ^ 63 - 1 -> int64 (Int64 n + 1) = n + 1.
Proof.
  intros Hn. rewrite Int64_small by lia. apply int64_small. lia.
Qed.


(** X20.  What the check asks of the node and when it waits.  Every answer
    used is the answer to one request, and every request, the one for the
    block and each one for a header, is made under a context of its own,
    taken from [Ctx] right before it: the contexts are the next ones of the
    store in order, the one before is cancelled when the next is taken, and
    at no moment are two of them open.  The first request, made at the
    start of the check, is the only one for a block, with the hash given;
    every header request asks for the same number, the one after the
    number of the block found (in [int64] arithmetic).  There is exactly
    one wait for each failed header request, directly after it and none
    elsewhere (none after the request for the block), and it ends at the
    earlier of one second and the global timeout. *)
Theorem verifyPoWProgress_requests lastBlockHash script s res s' rest :
  CtxInv s ->
  verifyPoWProgress cfg lastBlockHash script s = Some (res, s', rest) ->
  let first := List.length (contexts (rt s)) in
  let used := (List.length script - List.length rest)%nat in
  (1 <= used)%nat /\
  List.length (contexts (rt s')) = (first + used)%nat /\
  held s' = [(first + used - 1)%nat] /\
  exists a new,
    hd_error script = Some a /\
    events (rt s') = new ++ events (rt s) /\
    askedCtxs (rev new) = seq first used /\
    (peakOpen (held s) (rev new) <= 1)%nat /\
    askedHashes (rev new) = [lastBlockHash] /\
    In (EvBlockByHash first lastBlockHash (now (rt s)) (accepted (reply a))) new /\
    askedNumbers (rev new) = repeat (int64 (Int64 (carried a) + 1)) (used - 1) /\
    (0 <= carried a < 2 ^ 63 - 1 ->
     askedNumbers (rev new) = repeat (carried a + 1) (used - 1)) /\
    waits new = failedHeaders new /\ followed false new /\
    Forall (waitOK (Timeout (env s))) new.
Proof.
  intros Hinv Hrun. destruct script as [|a tail]; [discriminate Hrun|].
  rewrite (verifyPoWProgress_cons lastBlockHash a tail s Hinv) in Hrun.
  cbv zeta in Hrun.
  destruct (requested_facts (fun c => EvBlockByHash c lastBlockHash) a s Hinv)
    as (Hinv2 & Hheld2 & Hlen2 & Hnow2 & HT2 & _ & Hto2 & Hname2 & _ & dl & Hev2).
  destruct (prior_quiet s) as (Pc & Pn & Ph & Pw & Pf & Pfol & Pok).
  cbv zeta in *.
  set (c := List.length (contexts (rt s))) in *.
  set (s2 := requested cfg (fun c => EvBlockByHash c lastBlockHash) a s) in *.
  assert (Hnum : forall new k,
            askedNumbers (rev new) = repeat (int64 (Int64 (carried a) + 1)) k ->
            0 <= carried a < 2 ^ 63 - 1 ->
            askedNumbers (rev new) = repeat (carried a + 1) k).
  { intros new k Hk Ha. rewrite Hk, (int64_next (carried a) Ha). reflexivity. }
  destruct (failure (reply a)) as [err|] eqn:Hf.
  - injection Hrun as <- <- <-. cbn [List.length].
    replace (S (List.length tail) - List.length tail)%nat with 1%nat by lia.
    split; [lia|].
    split; [after_turn; rewrite Hlen2; lia|].
    split; [transitivity (held s2); [reflexivity|rewrite Hheld2; f_equal; lia]|].
    after_turn.
    exists a, (EvBlockByHash c lastBlockHash (now (rt s)) (accepted (reply a)) ::
               EvWithTimeout c dl :: prior s).
    split; [reflexivity|]. split; [rewrite Hev2; reflexivity|].
    cbn [rev]. rewrite <- ?app_assoc. cbn [app].
    rewrite askedCtxs_app, askedNumbers_app, askedHashes_app, Pc, Pn, Ph.
    cbn [app askedCtxs askedNumbers askedHashes waits failedHeaders seq repeat
         Nat.sub].
    rewrite Pw, Pf.
    split; [reflexivity|]. split; [apply peakOpen_call; cbn; lia|].
    split; [reflexivity|]. split; [left; reflexivity|].
    split; [reflexivity|]. split; [reflexivity|]. split; [reflexivity|].
    split; [cbn [followed]; apply Pfol|].
    repeat (constructor; [exact I|]). apply Pok.
  - destruct (headerLoop_trace _ _ _ _ _ _ Hinv2 Hrun)
      as (Hlt & _ & Hheld' & Hlen' & new & Hev & Hws & Hpk & Hctxs & Hnums & Hhash
          & Hwaits & Hfol).
    rewrite Hlen2, Hto2 in *. rewrite Hheld2 in Hpk.
    assert (Hused : (List.length (a :: tail) - List.length rest
                     = S (List.length tail - List.length rest))%nat)
      by (cbn [List.length]; lia).
    rewrite Hused.
    split; [lia|]. split; [rewrite Hlen'; lia|].
    split; [rewrite Hheld'; f_equal; lia|].
    exists a, (new ++ EvBlockByHash c lastBlockHash (now (rt s)) (accepted (reply a))
                      :: EvWithTimeout c dl :: prior s).
    split; [reflexivity|].
    split; [rewrite Hev, Hev2, <- app_assoc; reflexivity|].
    rewrite rev_app_distr. cbn [rev]. rewrite <- !app_assoc. cbn [app].
    rewrite askedCtxs_app, askedNumbers_app, askedHashes_app, Pc, Pn, Ph.
    cbn [app askedCtxs askedNumbers askedHashes seq].
    rewrite Hctxs, Hhash.
    replace (S (List.length tail - List.length rest) - 1)%nat
      with (List.length tail - List.length rest)%nat by lia.
    split; [reflexivity|].
    split; [apply peakOpen_call; cbn [peakOpen]; exact Hpk|].
    split; [reflexivity|].
    split; [apply in_or_app; right; left; reflexivity|].
    split; [exact Hnums|].
    split; [intros Ha; rewrite Hnums, (int64_next (carried a) Ha); reflexivity|].
    rewrite waits_app, failedHeaders_app.
    cbn [waits failedHeaders]. rewrite Pw, Pf.
    split; [rewrite Hwaits; reflexivity|].
    split.
    { apply followed_app; [apply Hfol|]. intros b'. cbn [followed]. apply Pfol. }
    apply Forall_app. split; [exact Hws|].
    repeat (constructor; [exact I|]). apply Pok.
Qed.

End PoWFacts.

(** ** The further properties on concrete inputs *)

Lemma makeTransactions_nonces_witness :
  exists txs s',
    makeTransactions cfgAccept fourCalls stateUnspecified = (Ok txs, s') /\
    map txNonce txs = [0; 1; 2; 3] /\ NoDup (map txNonce txs) /\
    nonce (env s') = 4.
Proof.
  do 2 eexists.
  assert (Hrun : makeTransactions cfgAccept fourCalls stateUnspecified = (Ok _, _))
    by (vm_compute; reflexivity).
  split; [exact Hrun|].
  assert (H0 : 0 <= nonce (env stateUnspecified) < 2 ^ 64) by (cbn; lia).
  assert (H1 : nonce (env stateUnspecified) + Z.of_nat (List.length fourCalls) <= 2 ^ 64)
    by (cbn; lia).
  exact (makeTransactions_nonces cfgAccept fourCalls stateUnspecified _ _ H0 H1 Hrun).
Defined.

Lemma fixed_policy_types_witness :
  exists txs,
    fst (makeTransactions cfgAccept fourCalls (freshState "engine" LegacyTxOnly))
    = Ok txs /\
    Forall (fun tx => txType tx = LegacyTxType) txs.
Proof.
  eexists.
  assert (Hrun : fst (makeTransactions cfgAccept fourCalls
                        (freshState "engine" LegacyTxOnly)) = Ok _)
    by (vm_compute; reflexivity).
  split; [exact Hrun|].
  exact (proj1 (fixed_policy_types cfgAccept fourCalls
                  (freshState "engine" LegacyTxOnly) _ Hrun) eq_refl).
Defined.

Lemma makeNextTransaction_fields_witness :
  exists tx,
    fst (makeNextTransaction cfgAccept (Some 1) 75000 5 [] (atNonce 4 stateUnspecified))
    = Ok tx /\
    txNonce tx = 4 /\ txTo tx = Some 1 /\ txGas tx = 75000 /\ txValue tx = 5.
Proof.
  eexists.
  assert (Hrun : fst (makeNextTransaction cfgAccept (Some 1) 75000 5 []
                        (atNonce 4 stateUnspecified)) = Ok _)
    by (vm_compute; reflexivity).
  split; [exact Hrun|].
  destruct (makeNextTransaction_fields cfgAccept (Some 1) 75000 5 []
              (atNonce 4 stateUnspecified)) as [_ H].
  destruct (H _ Hrun) as (Hn & Ht & Hg & Hv & _).
  repeat split; assumption.
Defined.

Lemma Uint64_PutUint64_witness : Uint64 (PutUint64 234) = 234.
Proof.
  apply (Uint64_PutUint64 234). lia.
Defined.

Lemma contractLength_tight_witness :
  21000 + 32000 + 200 * (contractLengthFor 100000 + 1) <= 100000 /\
  100000 < 21000 + 32000 + 200 * (contractLengthFor 100000 + 2).
Proof.
  assert (H : 0 <= 100000 < 2 ^ 64) by lia.
  destruct (contractLength_tight 100000 H) as (_ & Hup & Hlow).
  split; [apply Hlow; lia|apply Hup; lia].
Defined.

Lemma contractLength_monotone_witness :
  contractLengthFor 60000 <= contractLengthFor 100000.
Proof.
  apply (contractLength_monotone 60000 100000); lia.
Defined.

Lemma makeNextBigContractTransaction_initCode_witness :
  exists tx imm,
    fst (makeNextBigContractTransaction cfgAccept 100000 stateUnspecified) = Ok tx /\
    txPayload tx = x67 :: imm ++ [x38; xf3] /\
    Uint64 imm = contractLengthFor 100000.
Proof.
  assert (Hrun : fst (makeNextBigContractTransaction cfgAccept 100000 stateUnspecified)
                 = Ok _) by (vm_compute; reflexivity).
  assert (H : 0 <= 100000 < 2 ^ 64) by lia.
  destruct (makeNextBigContractTransaction_initCode cfgAccept 100000 stateUnspecified
              _ H Hrun) as (_ & _ & _ & _ & _ & imm & Hp & _ & Hv).
  eexists. exists imm. split; [exact Hrun|]. split; [exact Hp|exact Hv].
Defined.

Lemma sendNextTransaction_one_nonce_witness :
  exists tx s' new,
    sendNextTransaction cfgAccept 1 5 [] [busy; busy; ready; busy] stateArmed
    = Some (Ok tx, s', [busy]) /\
    events (rt s') = new ++ events (rt stateArmed) /\
    match sends new with
    | O => False
    | S _ => nonce (env s') = 1
    end.
Proof.
  assert (Hrun : sendNextTransaction cfgAccept 1 5 [] [busy; busy; ready; busy]
                   stateArmed = Some (Ok _, _, [busy]))
    by (vm_compute; reflexivity).
  destruct (sendNextTransaction_one_nonce cfgAccept 1 5 [] _ _ _ _ _ Hrun)
    as (_ & _ & _ & new & Hev & Hcase).
  do 2 eexists. exists new. split; [exact Hrun|]. split; [exact Hev|].
  destruct (sends new).
  - destruct Hcase as (Hres & _). discriminate Hres.
  - exact (proj1 Hcase).
Defined.


Lemma CheckEthEngineLive_bounded_witness :
  exists e s' rest,
    CheckEthEngineLive cfgAccept (repeat busy 60) stateUnspecified
    = Some (Some e, s', rest) /\
    now (rt s') = (5 * Second)%N.
Proof.
  assert (Hrun : CheckEthEngineLive cfgAccept (repeat busy 60) stateUnspecified
                 = Some (Some _, _, _)) by (vm_compute; reflexivity).
  destruct (CheckEthEngineLive_bounded cfgAccept _ _ _ _ _ Hrun) as (_ & H & _).
  do 3 eexists. split; [exact Hrun|]. apply H. discriminate.
Defined.

Lemma CheckEthEngineLive_frame_witness :
  exists s',
    CheckEthEngineLive cfgAccept [ready; busy; ready] stateUnspecified
    = Some (None, s', []) /\
    env s' = env stateUnspecified /\
    contexts (rt s') = [{| ctxDeadline := (5 * Second)%N; ctxCancels := 1 |}].
Proof.
  assert (Hrun : CheckEthEngineLive cfgAccept [ready; busy; ready] stateUnspecified
                 = Some (None, _, [])) by (vm_compute; reflexivity).
  destruct (CheckEthEngineLive_frame cfgAccept _ _ _ _ _ Hrun) as (He & _ & _ & Hc).
  eexists. split; [exact Hrun|]. split; [exact He|exact Hc].
Defined.

Lemma StartClient_result_witness :
  (exists s',
     StartClient cfgAccept launchFive "client" [] 1000 [ready; busy; ready]
       stateUnspecified
     = Some (Ok (inl (5, EngineClientFor 5 1000)), s', []) /\
     T s' = T stateUnspecified)
  /\ (exists s' rest,
        StartClient cfgAccept launchFive "client" [] 1000 (repeat busy 60)
          stateUnspecified
        = Some (Ok (inr (portsNeverOpen DeadlineExceeded)), s', rest) /\
        T s' = T stateUnspecified).
Proof.
  split.
  - assert (Hrun : StartClient cfgAccept launchFive "client" [] 1000
                     [ready; busy; ready] stateUnspecified
                   = Some (Ok (inl (5, EngineClientFor 5 1000)), _, []))
      by (vm_compute; reflexivity).
    eexists. split; [exact Hrun|].
    exact (proj1 (StartClient_result cfgAccept launchFive "client" [] 1000 _
                    stateUnspecified 5 stateUnspecified _ _ _ eq_refl Hrun)).
  - assert (Hrun : StartClient cfgAccept launchFive "client" [] 1000
                     (repeat busy 60) stateUnspecified
                   = Some (Ok (inr (portsNeverOpen DeadlineExceeded)), _, _))
      by (vm_compute; reflexivity).
    do 2 eexists. split; [exact Hrun|].
    exact (proj1 (StartClient_result cfgAccept launchFive "client" [] 1000 _
                    stateUnspecified 5 stateUnspecified _ _ _ eq_refl Hrun)).
Defined.

Lemma RunTest_cleanup_witness :
  exists sb sf,
    sampleRun bodyFailingAfterTTD [ready; ready] = Some (Goexit, sf, []) /\
    events (rt sf) = cleanupEvents sb false ++ events (rt sb) /\
    T sf = T sb /\ env sf = env sb.
Proof.
  assert (Hlive : CheckEthEngineLive cfgAccept [ready; ready]
                    (fst (RunTest_setup cfgAccept "engine" 1000 8 16
                            UnspecifiedTransactionType stateUnspecified))
                  = Some (None, _, [])) by (vm_compute; reflexivity).
  match type of Hlive with
  | _ = Some (None, ?s1, _) =>
      assert (Hfn : bodyFailingAfterTTD [] (RunTest_arm (60 * Second) s1)
                    = Some (Goexit, _, [])) by (vm_compute; reflexivity)
  end.
  destruct (RunTest_cleanup cfgAccept "engine" 1000 8 16 (60 * Second)%N
              bodyFailingAfterTTD UnspecifiedTransactionType [ready; ready]
              stateUnspecified _ _ _ _ _ Hlive Hfn eq_refl eq_refl)
    as (sf & Hrun & Hev & _ & HT & He & _).
  eexists. exists sf. split; [exact Hrun|]. split; [exact Hev|].
  split; [exact HT|exact He].
Defined.

Lemma RunTest_ports_never_open_witness :
  exists sf rest,
    sampleRun bodyReachingTTD (repeat busy 60) = Some (Goexit, sf, rest) /\
    logs (T sf) = [FailPorts "engine" DeadlineExceeded] /\
    Failed sf = true /\ now (rt sf) = (5 * Second)%N.
Proof.
  assert (Hlive : CheckEthEngineLive cfgAccept (repeat busy 60)
                    (fst (RunTest_setup cfgAccept "engine" 1000 8 16
                            UnspecifiedTransactionType stateUnspecified))
                  = Some (Some _, _, _)) by (vm_compute; reflexivity).
  destruct (RunTest_ports_never_open cfgAccept "engine" 1000 8 16 (60 * Second)%N
              bodyReachingTTD UnspecifiedTransactionType (repeat busy 60)
              stateUnspecified _ _ _ Hlive)
    as (sf & Hrun & _ & Hlog & Hf & _ & Hnow).
  exists sf. eexists. split; [exact Hrun|]. split; [exact Hlog|].
  split; [exact Hf|exact Hnow].
Defined.

Lemma RunTest_body_start_witness :
  exists s1,
    CheckEthEngineLive cfgAccept [ready; ready]
      (fst (RunTest_setup cfgAccept "engine" 1000 8 16
              UnspecifiedTransactionType stateUnspecified))
    = Some (None, s1, []) /\
    let start := RunTest_arm (60 * Second) s1 in
    nonce (env start) = 0 /\
    Timeout (env start) = Some (now (rt start) + 60 * Second)%N /\
    (now (rt start) < 5 * Second)%N.
Proof.
  assert (Hlive : CheckEthEngineLive cfgAccept [ready; ready]
                    (fst (RunTest_setup cfgAccept "engine" 1000 8 16
                            UnspecifiedTransactionType stateUnspecified))
                  = Some (None, _, [])) by (vm_compute; reflexivity).
  destruct (RunTest_body_start cfgAccept "engine" 1000 8 16 (60 * Second)%N
              bodyIdle UnspecifiedTransactionType [ready; ready]
              stateUnspecified _ _ Hlive)
    as (_ & He & _ & _ & Hnow).
  eexists. split; [exact Hlive|]. cbv zeta.
  rewrite He. split; [reflexivity|]. split; [reflexivity|exact (proj2 Hnow)].
Defined.

Lemma RunTest_cancels_every_context_witness :
  exists sf,
    sampleRun (bodyAsking cfgAccept [(1 * Second)%N; (2 * Second)%N]) [ready; ready]
    = Some (Ok tt, sf, []) /\
    List.length (contexts (rt sf)) = 3%nat /\
    cancelsOf sf 0 = Some 1%nat /\ cancelsOf sf 1 = Some 1%nat /\
    cancelsOf sf 2 = Some 1%nat.
Proof.
  assert (Hrun : RunTest cfgAccept "engine" 1000 8 16 (60 * Second)%N
                   (bodyAsking cfgAccept [(1 * Second)%N; (2 * Second)%N])
                   UnspecifiedTransactionType [ready; ready] stateUnspecified
                 = Some (Ok tt, _, []))
    by (vm_compute; reflexivity).
  match type of Hrun with
  | _ = Some (_, ?sf, _) =>
      pose proof (RunTest_cancels_every_context cfgAccept "engine" 1000 8 16
                    (60 * Second)%N [(1 * Second)%N; (2 * Second)%N]
                    UnspecifiedTransactionType [ready; ready] stateUnspecified
                    (Ok tt) sf [] Hrun) as H
  end.
  destruct H as (_ & _ & _ & H).
  eexists. split; [exact Hrun|]. split; [reflexivity|].
  split; [|split]; apply H; split; vm_compute;
    solve [discriminate | intros Hc; discriminate Hc | repeat constructor].
Defined.

Lemma Ctx_spares_others_witness :
  let s := snd (CtxCalls cfgAccept [(1 * Second)%N; (2 * Second)%N] stateUnspecified) in
  let s' := snd (CtxCalls cfgAccept [0%N; (3 * Second)%N] s) in
  nth_error (contexts (rt s')) 0 =
    Some {| ctxDeadline := (11 * Second)%N; ctxCancels := 1 |} /\
  nth_error (contexts (rt s')) 1 =
    Some {| ctxDeadline := (13 * Second)%N; ctxCancels := 1 |} /\
  nonce (env s') = 0 /\ now (rt s') = (6 * Second)%N.
Proof.
  cbv zeta.
  assert (Hinv : CtxInv (snd (CtxCalls cfgAccept [(1 * Second)%N; (2 * Second)%N]
                                stateUnspecified))) by (vm_compute; repeat split).
  destruct (Ctx_spares_others cfgAccept [0%N; (3 * Second)%N] _ Hinv)
    as (Hother & Hheld & _ & _ & Hn & _ & _ & Hnow).
  split; [|split; [|split; [exact Hn|exact Hnow]]].
  - apply (Hother 0%nat {| ctxDeadline := (11 * Second)%N; ctxCancels := 1 |}).
    + vm_compute. reflexivity.
    + vm_compute. discriminate.
  - apply (Hheld 1%nat {| ctxDeadline := (13 * Second)%N; ctxCancels := 0 |}).
    + vm_compute. reflexivity.
    + vm_compute. reflexivity.
    + discriminate.
Defined.


(** The check of proof-of-work progress on concrete inputs: the block is
    found, the first request for the header fails, the second is answered
    with a difficulty of 5. *)
Example pow_progress_after_retry :
  match verifyPoWProgress cfgAccept 77 [blockNumbered 10; noAnswer; headerWith 5]
          stateArmed with
  | Some (Ok tt, s', []) =>
      rev (events (rt s')) =
        [ EvWithTimeout 0 (10 * Second);
          EvBlockByHash 0 77 0 true;
          EvCancel 0; EvWithTimeout 1 (10050 * Millisecond);
          EvHeaderByNumber 1 11 (50 * Millisecond) false;
          EvWait (150 * Millisecond) (1150 * Millisecond) false;
          EvCancel 1; EvWithTimeout 2 (11150 * Millisecond);
          EvHeaderByNumber 2 11 (1150 * Millisecond) true ] /\
      logs (T s') = [InfoTryAgain "engine" "not ready"] /\
      Failed s' = false /\ now (rt s') = (1200 * Millisecond)%N
  | _ => False
  end.
Proof. vm_compute. repeat split. Qed.

(** The global timeout fires during the wait after the failed request. *)
Example pow_progress_times_out :
  match verifyPoWProgress cfgAccept 77 [blockNumbered 10; noAnswer; headerWith 5]
          (armed (500 * Millisecond) stateUnspecified) with
  | Some (Goexit, s', rest) =>
      rest = [headerWith 5] /\
      logs (T s') = [InfoTryAgain "engine" "not ready"; FailPoWTimeout "engine"] /\
      Failed s' = true /\ now (rt s') = (500 * Millisecond)%N
  | _ => False
  end.
Proof. vm_compute. repeat split. Qed.

Example pow_block_not_found :
  match verifyPoWProgress cfgAccept 77 [noAnswer; headerWith 5] stateArmed with
  | Some (Goexit, s', rest) =>
      rest = [headerWith 5] /\
      logs (T s') = [FailFetchBlock "engine" "not ready"] /\
      Failed s' = true /\ now (rt s') = (100 * Millisecond)%N
  | _ => False
  end.
Proof. vm_compute. repeat split. Qed.


Lemma verifyPoWProgress_requests_witness :
  exists s' new,
    verifyPoWProgress cfgAccept 77 [blockNumbered 10; noAnswer; headerWith 5]
      stateArmed = Some (Ok tt, s', []) /\
    events (rt s') = new ++ events (rt stateArmed) /\
    askedCtxs (rev new) = [0; 1; 2]%nat /\
    askedNumbers (rev new) = [11; 11] /\
    waits new = failedHeaders new /\
    held s' = [2%nat].
Proof.
  assert (Hinv : CtxInv stateArmed) by exact I.
  assert (Hrun : verifyPoWProgress cfgAccept 77
                   [blockNumbered 10; noAnswer; headerWith 5] stateArmed
                 = Some (Ok tt, _, [])) by (vm_compute; reflexivity).
  destruct (verifyPoWProgress_requests cfgAccept 77 _ _ _ _ _ Hinv Hrun)
    as (_ & _ & Hheld & a & new & Ha & Hev & Hctxs & _ & _ & _ & _ & Hnum & Hw & _).
  injection Ha as <-.
  eexists. exists new. split; [exact Hrun|]. split; [exact Hev|].
  split; [exact Hctxs|]. split; [|split; [exact Hw|exact Hheld]].
  apply Hnum. cbn [carried blockNumbered]. lia.
Defined.
